(** * keyframe: signing, timestamping and revision-chain verification

    A shallow embedding of the TypeScript sources of
    [@substrate-system/keyframe] ([src/util.ts], [src/index.ts],
    [src/node/index.ts]) together with the properties stated for them.

    Conventions.
    - A [Uint8Array] is a [list byte]: a view that covers the whole of its
      buffer.
    - A JavaScript string is a [string]; every [ascii] stands for one
      UTF-16 code unit in the range 0..255.
    - A call that may throw returns an [outcome]; code that reads the clock,
      the random source or the network runs in the state monad [M] over the
      platform's [world].
    - What the library calls but does not define (WebCrypto, [fetch], the
      ASN.1 package; for [src/node/index.ts] also the EXIF package, [JSON]
      and the file system) is a field of the classes [Platform],
      [NodePlatform] and [FilePlatform]; the module [Mock] gives one
      deterministic instance of them. *)

From Stdlib Require Import ZArith NArith List String Ascii Lia Bool.
From Stdlib.Strings Require Import Byte.
From stdpp Require Import base option list strings gmap.
Import ListNotations.
Open Scope string_scope.

Global Instance byte_eq_dec : EqDecision byte.
Proof.
  intros a b. destruct (Byte.eqb a b) eqn:E.
  - left. by apply Byte.byte_dec_bl.
  - right. intros Hab. apply Byte.byte_dec_lb in Hab. congruence.
Defined.

(* ===================================================================== *)
(** ** JavaScript built-ins used by the codec *)
(* ===================================================================== *)

Module Js.

(** Digit of [Number.prototype.toString(radix)]: lowercase. *)
Definition digit_char (d : N) : ascii :=
  match d with
  | 0 => "0" | 1 => "1" | 2 => "2" | 3 => "3" | 4 => "4" | 5 => "5"
  | 6 => "6" | 7 => "7" | 8 => "8" | 9 => "9" | 10 => "a" | 11 => "b"
  | 12 => "c" | 13 => "d" | 14 => "e" | _ => "f"
  end%N%char.

Fixpoint digits (radix : N) (fuel : nat) (n : N) (acc : string) : string :=
  match fuel with
  | O => acc
  | S fuel' =>
      let acc' := String (digit_char (n mod radix)) acc in
      if (n / radix =? 0)%N then acc' else digits radix fuel' (n / radix) acc'
  end.

(** [n.toString(16)] for a non-negative integer [n]. *)
Definition Number_toString16 (n : N) : string :=
  digits 16 (S (N.to_nat (N.size n))) n "".

(** [String(n)] and [n.toString()] for a non-negative integer [n] below
    10^21. *)
Definition Number_toString10 (n : N) : string :=
  digits 10 (S (N.to_nat (N.size n))) n "".

Fixpoint repeat_to (n : nat) (fill rest : string) : string :=
  match n with
  | O => ""
  | S n' =>
      match rest with
      | String c rest' => String c (repeat_to n' fill rest')
      | EmptyString =>
          match fill with
          | String c fill' => String c (repeat_to n' fill fill')
          | EmptyString => ""
          end
      end
  end.

(** [s.padStart(target, fill)]. *)
Definition padStart (target : nat) (fill : string) (s : string) : string :=
  let n := String.length s in
  if (target <=? n)%nat then s
  else repeat_to (target - n) fill fill +:+ s.

(** [ls.join('')]. *)
Definition join_empty (ls : list string) : string :=
  fold_right String.append "" ls.

(** White space skipped by [parseInt] (StrWhiteSpaceChar), restricted to
    the code units 0..255: TAB, LF, VT, FF, CR, SP, NBSP. *)
Definition is_StrWhiteSpaceChar (c : ascii) : bool :=
  match N_of_ascii c with
  | 9 | 10 | 11 | 12 | 13 | 32 | 160 => true
  | _ => false
  end%N.

Fixpoint trimStart (s : string) : string :=
  match s with
  | String c s' => if is_StrWhiteSpaceChar c then trimStart s' else s
  | EmptyString => s
  end.

Definition hex_value (c : ascii) : option N :=
  let n := N_of_ascii c in
  if (48 <=? n)%N && (n <=? 57)%N then Some (n - 48)%N
  else if (97 <=? n)%N && (n <=? 102)%N then Some (n - 87)%N
  else if (65 <=? n)%N && (n <=? 70)%N then Some (n - 55)%N
  else None.

(** Longest prefix of radix-16 digits; [None] when there is no digit. *)
Fixpoint hex_prefix (s : string) (acc : option N) : option N :=
  match s with
  | String c s' =>
      match hex_value c with
      | Some d => hex_prefix s' (Some (16 * default 0 acc + d)%N)
      | None => acc
      end
  | EmptyString => acc
  end.

(** [parseInt(str, 16)]; [None] is [NaN].  Exact while the digits denote
    a number below 2^53, which covers the two-character inputs of
    [hexToBuffer]. *)
Definition parseInt16 (str : string) : option Z :=
  let s := trimStart str in
  let '(sign, s) :=
    match s with
    | String "-" r => ((-1)%Z, r)
    | String "+" r => (1%Z, r)
    | _ => (1%Z, s)
    end in
  let s :=
    match s with
    | String "0" (String "x" r) => r
    | String "0" (String "X" r) => r
    | _ => s
    end in
  match hex_prefix s None with
  | Some n => Some (sign * Z.of_N n)%Z
  | None => None
  end.

(** Store into a [Uint8Array] element: [NaN] becomes 0, an integer is
    reduced modulo 256. *)
Definition ToUint8 (v : option Z) : byte :=
  match v with
  | Some z => default x00 (Byte.of_N (Z.to_N (z mod 256)))
  | None => x00
  end.

(** [s.includes(needle)]. *)
Fixpoint includes (needle s : string) : bool :=
  String.prefix needle s ||
  match s with
  | String _ s' => includes needle s'
  | EmptyString => false
  end.

End Js.

(* ===================================================================== *)
(** ** Codec ([src/util.ts]) *)
(* ===================================================================== *)

Definition byte_hex (b : byte) : string :=
  Js.padStart 2 "0" (Js.Number_toString16 (Byte.to_N b)).

(** [Array.from(buffer).map(b => b.toString(16).padStart(2, '0')).join('')] *)
Definition bufferToHex (buffer : list byte) : string :=
  Js.join_empty (map byte_hex buffer).

(** The [for] loop of [hexToBuffer]: [i] advances by two while
    [i < hex.length]; a write past the end of the typed array is ignored,
    as is stdpp's list insert. *)
Fixpoint hexToBuffer_loop (fuel : nat) (hex : string) (i : nat)
    (bytes : list byte) : list byte :=
  match fuel with
  | O => bytes
  | S fuel' =>
      if (i <? String.length hex)%nat then
        hexToBuffer_loop fuel' hex (i + 2)
          (<[ (i / 2)%nat := Js.ToUint8 (Js.parseInt16 (substring i 2 hex)) ]>
             bytes)
      else bytes
  end.

(** [new Uint8Array(hex.length / 2)] truncates a fractional length. *)
Definition hexToBuffer (hex : string) : list byte :=
  hexToBuffer_loop (String.length hex) hex 0
    (replicate (String.length hex / 2)%nat x00).

Arguments bufferToHex : simpl never.
Arguments hexToBuffer : simpl never.

Definition is_lower_hex (c : ascii) : bool :=
  let n := N_of_ascii c in
  ((48 <=? n)%N && (n <=? 57)%N) || ((97 <=? n)%N && (n <=? 102)%N).

(* ===================================================================== *)
(** ** Exceptions and the platform *)
(* ===================================================================== *)

(** The result of a call: a value, or a thrown exception with its message. *)
Inductive outcome (A : Type) : Type :=
  | Returns (a : A)
  | Throws (msg : string).
Arguments Returns {A} a.
Arguments Throws {A} msg.

Global Instance outcome_ret : MRet outcome := λ A a, Returns a.
Global Instance outcome_bind : MBind outcome := λ A B f m,
  match m with
  | Returns a => f a
  | Throws msg => Throws msg
  end.

#[local] Set Warnings "-register-all".

(** A node of the verbose result of [ASN1.parse]: its tag, its children
    when it is constructed, its raw value when the parser kept one. *)
Inductive asn1node : Type :=
  | Asn1Node (type : N) (children : option (list asn1node))
      (value : option (list byte)).

Definition asn1_children (n : asn1node) : option (list asn1node) :=
  match n with Asn1Node _ c _ => c end.
Definition asn1_value (n : asn1node) : option (list byte) :=
  match n with Asn1Node _ _ v => v end.

(** What [ASN1.parse] may hand back: an array (non-verbose form) or a node. *)
Inductive asn1parsed : Type :=
  | AsnArray
  | AsnObject (n : asn1node).

(** A value that can stand where the code expects a hex string: a string,
    [undefined], a built-in function, or the [Object.prototype] object. *)
Inductive jsval : Type :=
  | JUndefined
  | JString (s : string)
  | JBuiltin (name : string)
  | JObjectPrototype.

(** The body and status line of a [fetch] response. *)
Record Response := {
  resp_ok : bool;
  resp_status : N;
  resp_body : list byte;
}.

(** Everything the library calls but does not define. *)
Class Platform := {
  (** state of the outside world: clock, random source, network *)
  world : Type;
  (** [new Date().toISOString()] *)
  Date_now_toISOString : world → string * world;
  (** [crypto.getRandomValues(new Uint8Array(n))] *)
  getRandomValues : nat → world → list byte * world;
  (** [fetch(url, {method: 'POST', headers, body})] followed by
      [response.arrayBuffer()] *)
  fetch_post : string → string → list byte → world → outcome Response * world;
  (** WebCrypto *)
  CryptoKey : Type;
  subtle_digest_SHA256 : list byte → list byte;
  subtle_importKey_raw : list byte → outcome CryptoKey;
  subtle_importKey_pkcs8 : list byte → outcome CryptoKey;
  subtle_sign : CryptoKey → list byte → outcome (list byte);
  subtle_verify : CryptoKey → list byte → list byte → bool;
  (** [btoa] *)
  btoa : string → string;
  (** [new TextDecoder().decode] *)
  TextDecoder_decode : list byte → string;
  (** [@substrate-system/asn1] *)
  ASN1_Any : string → list jsval → outcome string;
  ASN1_UInt : string → outcome string;
  ASN1_parse : list byte → outcome asn1parsed;
  (** the [version] field of [package.json] *)
  package_version : string;
}.

Section Monad.
Context {Pf : Platform}.

(** Computations that read the clock, the random source or the network. *)
Definition M (A : Type) : Type := world → outcome A * world.

Definition M_ret {A} (a : A) : M A := λ w, (Returns a, w).

Definition M_bind {A B} (m : M A) (f : A → M B) : M B := λ w,
  match m w with
  | (Returns a, w') => f a w'
  | (Throws msg, w') => (Throws msg, w')
  end.

(** A call that may throw but has no other effect. *)
Definition lift {A} (o : outcome A) : M A := λ w, (o, w).

(** A call that cannot throw. *)
Definition effect {A} (f : world → A * world) : M A := λ w,
  let '(a, w') := f w in (Returns a, w').

Definition throw {A} (msg : string) : M A := λ w, (Throws msg, w).
End Monad.

Notation "'let*' x ':=' m 'in' k" := (M_bind m (λ x, k))
  (at level 10, x pattern, m at level 100, k at level 200, only parsing).

(* ===================================================================== *)
(** ** Data model ([src/index.ts], Types) *)
(* ===================================================================== *)

Record Timestamp := {
  authority : string;
  token : string;
  verifiedAt : string;
}.

Record Keypair := {
  publicKey : list byte;
  privateKey : list byte;
}.

Record ContentSignature := {
  cs_contentHash : string;
  cs_signature : string;
  cs_publicKey : string;
  cs_timestamp : string;
}.

(** [TimestampedSignature extends ContentSignature]. *)
Record TimestampedSignature := {
  contentHash : string;
  signature : string;
  sig_publicKey : string;
  timestamp : string;
  tsaToken : string;
  verifiedTimestamp : string;
}.

Record ContentRevision := {
  rev_content : string;
  rev_signature : TimestampedSignature;
  previousHash : option string;
}.

(** The known keys of the optional [metadata] argument; [None] is
    [undefined]. *)
Record Metadata := {
  author : option string;
  title : option string;
  description : option string;
  mimeType : option string;
}.

Record FileInfo := {
  file_name : string;
  file_hash : string;
  file_size : Z;
  file_mimeType : option string;
}.

Record SignatureInfo := {
  si_algorithm : string;
  si_publicKey : string;
  si_signature : string;
  si_signedAt : string;
}.

Record FileSignature := {
  fs_version : string;
  fs_file : FileInfo;
  fs_signature : SignatureInfo;
  fs_timestamp : Timestamp;
  fs_metadata : option Metadata;
}.

(** [{ valid, errors }] *)
Record Verdict := {
  valid : bool;
  errors : list string;
}.

Record TSAConfig := {
  url : string;
  hashAlgorithm : option string;
  policyOID : option string;
}.

(* ===================================================================== *)
(** ** Crypto utilities ([src/index.ts]) *)
(* ===================================================================== *)

Section Crypto.
Context {Pf : Platform}.

(** [privateKey : Uint8Array | CryptoKey] *)
Definition signHash (hash : list byte) (privateKey : list byte + CryptoKey)
    : outcome string :=
  key ← match privateKey with
        | inr key => Returns key
        | inl raw => subtle_importKey_pkcs8 raw
        end;
  signature ← subtle_sign key hash;
  mret (bufferToHex signature).

Definition verifySignature (hash signature : string)
    (publicKey : list byte) : outcome bool :=
  key ← subtle_importKey_raw publicKey;
  let signatureBytes := hexToBuffer signature in
  let valid := subtle_verify key signatureBytes (hexToBuffer hash) in
  mret valid.

(** [errors.push(msg)] when [failed]. *)
Definition push_if (failed : bool) (msg : string) (errors : list string)
    : list string :=
  if failed then (errors ++ [msg])%list else errors.

Definition signFile (filename : string) (fileBuffer : list byte)
    (keypair : Keypair) (ts : Timestamp) (metadata : option Metadata)
    : M FileSignature :=
  let hashBuffer := subtle_digest_SHA256 fileBuffer in
  let fileHash := bufferToHex hashBuffer in
  let* signature := lift (signHash hashBuffer (inl (privateKey keypair))) in
  let* signedAt := effect Date_now_toISOString in
  M_ret {|
    fs_version := "1.0";
    fs_file := {|
      file_name := filename;
      file_hash := fileHash;
      file_size := Z.of_nat (length fileBuffer);
      file_mimeType := metadata ≫= mimeType;
    |};
    fs_signature := {|
      si_algorithm := "Ed25519";
      si_publicKey := bufferToHex (publicKey keypair);
      si_signature := signature;
      si_signedAt := signedAt;
    |};
    fs_timestamp := ts;
    fs_metadata := metadata;
  |}.

Definition verifyFileSignature (sig : FileSignature)
    (fileBuffer : list byte) : outcome Verdict :=
  let errors := [] in
  let hashBuffer := subtle_digest_SHA256 fileBuffer in
  let computedHash := bufferToHex hashBuffer in
  let errors :=
    push_if (negb (String.eqb computedHash (file_hash (fs_file sig))))
      "File hash mismatch - file has been modified" errors in
  let errors :=
    push_if (negb (Z.of_nat (length fileBuffer) =? file_size (fs_file sig))%Z)
      "File size mismatch" errors in
  let publicKey := hexToBuffer (si_publicKey (fs_signature sig)) in
  valid ← verifySignature (file_hash (fs_file sig))
             (si_signature (fs_signature sig)) publicKey;
  let errors := push_if (negb valid) "Invalid signature" errors in
  mret {| valid := (length errors =? 0)%nat; errors := errors |}.

(** A keypair as [generateKeypair] makes it: both halves import, and
    what the private half signs the public half verifies. *)
Definition matching_keypair (kp : Keypair) : Prop :=
  ∃ sk pk,
    subtle_importKey_pkcs8 (privateKey kp) = Returns sk
    ∧ subtle_importKey_raw (publicKey kp) = Returns pk
    ∧ ∀ m, ∃ s, subtle_sign sk m = Returns s ∧ subtle_verify pk s m = true.

(** An Ed25519 signature has 64 bytes, and the platform's [verify] answers
    [false], without an exception, for a signature of any other length
    (as WebCrypto's [verify] does for Ed25519). *)
Definition rejects_malformed_length : Prop :=
  ∀ (key : CryptoKey) (signature data : list byte),
    length signature ≠ 64%nat → subtle_verify key signature data = false.

End Crypto.

(* ===================================================================== *)
(** ** [Date]: the ECMAScript date-time string format *)
(* ===================================================================== *)

Module JsDate.

(** A [Date] object is its time value, milliseconds since the epoch;
    [None] is the Invalid Date. *)
Definition Date : Type := option Z.

Definition is_digit (c : ascii) : bool :=
  let n := N_of_ascii c in (48 <=? n)%N && (n <=? 57)%N.

(** Exactly [n] decimal digits at the head of [s]: the regex [\d{n}]. *)
Fixpoint take_digits (n : nat) (s : string) : option (string * string) :=
  match n with
  | O => Some ("", s)
  | S n' =>
      match s with
      | String c s' =>
          if is_digit c then
            match take_digits n' s' with
            | Some (d, r) => Some (String c d, r)
            | None => None
            end
          else None
      | EmptyString => None
      end
  end.

(** The longest run of decimal digits at the head of [s]: the regex [\d*]. *)
Fixpoint span_digits (s : string) : string * string :=
  match s with
  | String c s' =>
      if is_digit c then
        let '(d, r) := span_digits s' in (String c d, r)
      else ("", s)
  | EmptyString => ("", s)
  end.

Fixpoint dec_value_from (acc : Z) (s : string) : Z :=
  match s with
  | String c s' => dec_value_from (10 * acc + (Z.of_N (N_of_ascii c) - 48)) s'
  | EmptyString => acc
  end.
Definition dec_value (s : string) : Z := dec_value_from 0 s.

Definition expect (c : ascii) (s : string) : option string :=
  match s with
  | String c' s' => if Ascii.eqb c c' then Some s' else None
  | EmptyString => None
  end.

(** An optional [.digits] group. *)
Definition optional_fraction (s : string) : option string * string :=
  match s with
  | String "." s' =>
      let '(f, r) := span_digits s' in
      match f with
      | EmptyString => (None, s)
      | _ => (Some f, r)
      end
  | _ => (None, s)
  end.

(** Day number of a civil date (proleptic Gregorian), day 0 = 1970-01-01. *)
Definition days_from_civil (y m d : Z) : Z :=
  let y := if (m <=? 2)%Z then (y - 1)%Z else y in
  let era := (y / 400)%Z in
  let yoe := (y - era * 400)%Z in
  let mp := if (2 <? m)%Z then (m - 3)%Z else (m + 9)%Z in
  let doy := ((153 * mp + 2) / 5 + d - 1)%Z in
  let doe := (yoe * 365 + yoe / 4 - yoe / 100 + doy)%Z in
  (era * 146097 + doe - 719468)%Z.

Definition civil_from_days (z : Z) : Z * Z * Z :=
  let z := (z + 719468)%Z in
  let era := (z / 146097)%Z in
  let doe := (z - era * 146097)%Z in
  let yoe := ((doe - doe / 1460 + doe / 36524 - doe / 146096) / 365)%Z in
  let y := (yoe + era * 400)%Z in
  let doy := (doe - (365 * yoe + yoe / 4 - yoe / 100))%Z in
  let mp := ((5 * doy + 2) / 153)%Z in
  let d := (doy - (153 * mp + 2) / 5 + 1)%Z in
  let m := if (mp <? 10)%Z then (mp + 3)%Z else (mp - 9)%Z in
  (if (m <=? 2)%Z then (y + 1)%Z else y, m, d).

Fixpoint skip_zeros (s : string) : string :=
  match s with
  | String c s' => if Ascii.eqb c "0" then skip_zeros s' else s
  | EmptyString => s
  end.

(** The number that a run of digits is to the date parser of V8: leading
    zeros are skipped, and digits after the ninth significant one are
    ignored. *)
Definition token_number (digits : string) : Z :=
  dec_value (substring 0 9 (skip_zeros digits)).

(** The milliseconds of a fraction of a second ([ReadMilliseconds] of V8):
    one or two digits are tenths or hundredths; of more than three digits
    the first three count, the length taken as at most nine. *)
Definition ReadMilliseconds (f : string) : Z :=
  let number := token_number f in
  let length := String.length f in
  if (length =? 1)%nat then (number * 100)%Z
  else if (length =? 2)%nat then (number * 10)%Z
  else if (length <=? 3)%nat then number
  else (number / 10 ^ Z.of_nat (Nat.min length 9 - 3))%Z.

(** The time value of the fields of a date-time string, as V8 (Node.js,
    Chrome) makes it.  The month is 1 to 12 and the day 1 to 31, whatever
    the month: a day past the end of the month counts on into the next
    month ([MakeDay]).  The hour is at most 24, and 24 only as 24:00:00
    with no non-zero digit in the fraction.  Anything else is the Invalid
    Date. *)
Definition of_fields (year month day hour minute second : string)
    (fraction : option string) : Date :=
  let y := dec_value year in
  let mo := dec_value month in
  let d := dec_value day in
  let h := dec_value hour in
  let mi := dec_value minute in
  let sec := dec_value second in
  let ms := from_option ReadMilliseconds 0%Z fraction in
  if ((1 <=? mo) && (mo <=? 12) && (1 <=? d) && (d <=? 31)
      && (h <=? 24) && (mi <=? 59) && (sec <=? 59)
      && ((h <? 24)
          || ((mi =? 0) && (sec =? 0)
              && (from_option token_number 0 fraction =? 0))))%Z
  then Some ((days_from_civil y mo 1 + (d - 1)) * 86400000
             + h * 3600000 + mi * 60000 + sec * 1000 + ms)%Z
  else None.

(** [new Date(s)] for [s] of the form [YYYY-MM-DDTHH:mm:ss[.f]Z], the only
    form [parseTimestampToken] builds; any other form is not modelled and
    reads as invalid. *)
Definition Date_parse (s : string) : Date :=
  '(year, s) ← take_digits 4 s;
  s ← expect "-" s;
  '(month, s) ← take_digits 2 s;
  s ← expect "-" s;
  '(day, s) ← take_digits 2 s;
  s ← expect "T" s;
  '(hour, s) ← take_digits 2 s;
  s ← expect ":" s;
  '(minute, s) ← take_digits 2 s;
  s ← expect ":" s;
  '(second, s) ← take_digits 2 s;
  let '(fraction, s) := optional_fraction s in
  if negb (String.eqb s "Z") then None
  else of_fields year month day hour minute second fraction.

Definition pad_dec (width : nat) (n : Z) : string :=
  Js.padStart width "0" (Js.Number_toString10 (Z.to_N n)).

(** [date.toISOString()]: throws a [RangeError] on the Invalid Date. *)
Definition Date_toISOString (d : Date) : outcome string :=
  match d with
  | None => Throws "RangeError: Invalid time value"
  | Some t =>
      let day := (t / 86400000)%Z in
      let r := (t mod 86400000)%Z in
      let '(y, m, dd) := civil_from_days day in
      let year :=
        if ((0 <=? y) && (y <=? 9999))%Z then pad_dec 4 y
        else ((if (y <? 0)%Z then "-" else "+") +:+ pad_dec 6 (Z.abs y)) in
      Returns (year +:+ "-" +:+ pad_dec 2 m +:+ "-" +:+ pad_dec 2 dd
               +:+ "T" +:+ pad_dec 2 (r / 3600000)
               +:+ ":" +:+ pad_dec 2 (r / 60000 mod 60)
               +:+ ":" +:+ pad_dec 2 (r / 1000 mod 60)
               +:+ "." +:+ pad_dec 3 (r mod 1000) +:+ "Z")
  end.

End JsDate.

(* ===================================================================== *)
(** ** RFC 3161 TSA integration ([src/index.ts]) *)
(* ===================================================================== *)

(** [String.fromCharCode] of each byte, then [btoa]. *)
Definition binary_string (buffer : list byte) : string :=
  string_of_list_ascii (map ascii_of_byte buffer).

(** The object literal [oids] of [createTimeStampRequest]: its own
    properties. *)
Definition oids : gmap string string :=
  {[ "sha256" := "608648016503040201";
     "sha384" := "608648016503040202";
     "sha512" := "608648016503040203" ]}.

(** The properties every object literal inherits from [Object.prototype]. *)
Definition Object_prototype_builtins : list string :=
  [ "constructor"; "hasOwnProperty"; "isPrototypeOf"; "propertyIsEnumerable";
    "toLocaleString"; "toString"; "valueOf"; "__defineGetter__";
    "__defineSetter__"; "__lookupGetter__"; "__lookupSetter__" ].

Definition Object_prototype_get (key : string) : jsval :=
  if bool_decide (key ∈ Object_prototype_builtins) then JBuiltin key
  else if String.eqb key "__proto__" then JObjectPrototype
  else JUndefined.

(** [obj[key]] on an object literal with string-valued own properties: the
    own property if there is one, else what the prototype chain gives. *)
Definition get_property (obj : gmap string string) (key : string) : jsval :=
  match obj !! key with
  | Some v => JString v
  | None => Object_prototype_get key
  end.

Definition truthy (v : jsval) : bool :=
  match v with
  | JUndefined => false
  | JString s => negb (String.eqb s "")
  | JBuiltin _ | JObjectPrototype => true
  end.

(** [a || b] *)
Definition js_or (a b : jsval) : jsval := if truthy a then a else b.

(** [config.hashAlgorithm || 'sha256'] *)
Definition hashAlg_of (config : TSAConfig) : string :=
  match hashAlgorithm config with
  | Some s => if String.eqb s "" then "sha256" else s
  | None => "sha256"
  end.

(** [oids[hashAlg] || oids.sha256] *)
Definition oid_of (config : TSAConfig) : jsval :=
  js_or (get_property oids (hashAlg_of config)) (get_property oids "sha256").

(** The match of
    [/^(\d{4})(\d{2})(\d{2})(\d{2})(\d{2})(\d{2})(?:\.(\d+))?Z$/]:
    the capture groups. *)
Record GenTimeMatch := {
  gt_year : string;
  gt_month : string;
  gt_day : string;
  gt_hour : string;
  gt_minute : string;
  gt_second : string;
  gt_fraction : option string;
}.

Definition match_genTime (timeStr : string) : option GenTimeMatch :=
  '(year, s) ← JsDate.take_digits 4 timeStr;
  '(month, s) ← JsDate.take_digits 2 s;
  '(day, s) ← JsDate.take_digits 2 s;
  '(hour, s) ← JsDate.take_digits 2 s;
  '(minute, s) ← JsDate.take_digits 2 s;
  '(second, s) ← JsDate.take_digits 2 s;
  let '(fraction, s) := JsDate.optional_fraction s in
  if String.eqb s "Z" then
    Some {| gt_year := year; gt_month := month; gt_day := day;
            gt_hour := hour; gt_minute := minute; gt_second := second;
            gt_fraction := fraction |}
  else None.

Definition isoString_of (m : GenTimeMatch) : string :=
  gt_year m +:+ "-" +:+ gt_month m +:+ "-" +:+ gt_day m +:+ "T" +:+ gt_hour m
  +:+ ":" +:+ gt_minute m +:+ ":" +:+ gt_second m
  +:+ match gt_fraction m with
      | Some fraction => "." +:+ fraction
      | None => ""
      end
  +:+ "Z".

(** The last step of [parseTimestampToken]: from the decoded [genTime]
    string to the [Date]. *)
Definition parseGenTime (timeStr : string) : outcome JsDate.Date :=
  match match_genTime timeStr with
  | None => Throws ("Invalid GeneralizedTime format: " +:+ timeStr)
  | Some m => Returns (JsDate.Date_parse (isoString_of m))
  end.

(** [if (!x) throw new Error(msg)] for an optional [x]. *)
Definition require {A} (x : option A) (msg : string) : outcome A :=
  match x with
  | Some a => Returns a
  | None => Throws msg
  end.

(** [node.children?.[i]] *)
Definition child (i : nat) (node : asn1node) : option asn1node :=
  asn1_children node ≫= (λ c, c !! i).

(** [node] when [node.children] is there. *)
Definition with_children (node : asn1node) : option asn1node :=
  match asn1_children node with
  | Some _ => Some node
  | None => None
  end.

Section TSA.
Context {Pf : Platform}.

Definition bufferToBase64 (buffer : list byte) : string :=
  btoa (binary_string buffer).

Definition createTimeStampRequest (hash : string) (config : TSAConfig)
    : M (list byte) :=
  let hashBytes := hexToBuffer hash in
  let oid := oid_of config in
  let* nonce := effect (getRandomValues 8) in
  let* algorithm := lift (ASN1_Any "06" [oid]) in
  let* parameters := lift (ASN1_Any "05" [JString ""]) in
  let* algorithmIdentifier :=
    lift (ASN1_Any "30" [JString algorithm; JString parameters]) in
  let* hashedMessage := lift (ASN1_Any "04" [JString (bufferToHex hashBytes)]) in
  let* messageImprint :=
    lift (ASN1_Any "30" [JString algorithmIdentifier; JString hashedMessage]) in
  let* version := lift (ASN1_UInt "01") in
  let* nonceInt := lift (ASN1_UInt (bufferToHex nonce)) in
  let* certReq := lift (ASN1_Any "01" [JString "01"]) in
  let* request :=
    lift (ASN1_Any "30" [JString version; JString messageImprint;
                         JString nonceInt; JString certReq]) in
  M_ret (hexToBuffer request).

(** The [catch] clause logs and rethrows, so it does not show here. *)
Definition parseTimestampToken (token : list byte) : outcome JsDate.Date :=
  resp ← ASN1_parse token;
  match resp with
  | AsnArray => Throws "Expected verbose object, got array"
  | AsnObject resp =>
      resp ← require (with_children resp) "Invalid TimeStampResp structure";
      timeStampToken ← require (child 1 resp ≫= with_children)
        "No TimeStampToken in response";
      signedData ← require
        ((child 1 timeStampToken ≫= child 0) ≫= with_children)
        "Invalid SignedData structure";
      encapContentInfo ← require (child 2 signedData ≫= with_children)
        "No EncapsulatedContentInfo";
      eContent ← require
        ((child 1 encapContentInfo ≫= child 0) ≫= asn1_value)
        "No eContent found";
      tstInfoParsed ← ASN1_parse eContent;
      match tstInfoParsed with
      | AsnArray => Throws "Expected verbose TSTInfo object, got array"
      | AsnObject tstInfo =>
          tstInfo ← require (with_children tstInfo) "Invalid TSTInfo structure";
          genTime ← require (child 4 tstInfo ≫= asn1_value)
            "No genTime in TSTInfo";
          parseGenTime (TextDecoder_decode genTime)
      end
  end.

Definition requestTimestamp (hash : string) (config : TSAConfig)
    : M (string * JsDate.Date) :=
  let* request := createTimeStampRequest hash config in
  let* response :=
    fetch_post (url config) "application/timestamp-query" request in
  if negb (resp_ok response) then
    throw ("TSA request failed: " +:+ Js.Number_toString10 (resp_status response))
  else
    let tokenBuffer := resp_body response in
    let token := bufferToBase64 tokenBuffer in
    let* timestamp := lift (parseTimestampToken tokenBuffer) in
    M_ret (token, timestamp).

End TSA.

(* ===================================================================== *)
(** ** Core signing functions and the revision chain ([src/index.ts]) *)
(* ===================================================================== *)

(** [new TextEncoder().encode]: UTF-8 of code units 0..255. *)
Definition utf8_encode_char (c : ascii) : list byte :=
  let n := N_of_ascii c in
  if (n <? 128)%N then [byte_of_ascii c]
  else [default x00 (Byte.of_N (192 + n / 64)%N);
        default x00 (Byte.of_N (128 + n mod 64)%N)].

Definition TextEncoder_encode (s : string) : list byte :=
  flat_map utf8_encode_char (list_ascii_of_string s).

(** The [data] of a manifest assertion. *)
Inductive json : Type :=
  | JsonUndefined
  | JsonNull
  | JsonBool (b : bool)
  | JsonNumber (z : Z)
  | JsonString (s : string)
  | JsonObject (fields : list (string * json))
  | JsonArray (items : list json).

Record Manifest := {
  claim_generator_info : string;
  manifest_title : string;
  assertions : list (string * json);
  manifest_signature_alg : string;
  manifest_signature_value : string;
}.

Record SignedContent := {
  content : string;
  revisions : list ContentRevision;
  c2paManifest : option Manifest;
}.

(** [x || fallback] for an optional string [x]. *)
Definition string_or (x : option string) (fallback : string) : string :=
  match x with
  | Some s => if String.eqb s "" then fallback else s
  | None => fallback
  end.

Definition json_of_option (x : option string) : json :=
  match x with
  | Some s => JsonString s
  | None => JsonUndefined
  end.

Section Chain.
Context {Pf : Platform}.

Definition hashContent (content : string) : list byte :=
  subtle_digest_SHA256 (TextEncoder_encode content).

Definition signContent (content : string) (keypair : Keypair)
    : M ContentSignature :=
  let contentHash := hashContent content in
  let* signature := lift (signHash contentHash (inl (privateKey keypair))) in
  let* now := effect Date_now_toISOString in
  M_ret {|
    cs_contentHash := bufferToHex contentHash;
    cs_signature := signature;
    cs_publicKey := bufferToHex (publicKey keypair);
    cs_timestamp := now;
  |}.

Definition signContentWithTimestamp (content : string) (keypair : Keypair)
    (tsaConfig : TSAConfig) : M TimestampedSignature :=
  let* basicSig := signContent content keypair in
  let* (token, timestamp) :=
    requestTimestamp (cs_contentHash basicSig) tsaConfig in
  let* verified := lift (JsDate.Date_toISOString timestamp) in
  M_ret {|
    contentHash := cs_contentHash basicSig;
    signature := cs_signature basicSig;
    sig_publicKey := cs_publicKey basicSig;
    timestamp := cs_timestamp basicSig;
    tsaToken := token;
    verifiedTimestamp := verified;
  |}.

Definition createC2PAManifest (content : string)
    (sig : TimestampedSignature) (metadata : option Metadata)
    : Manifest :=
  {|
    claim_generator_info := "@substrate-system/keyframe" +:+ package_version;
    manifest_title := string_or (metadata ≫= title) "Signed Content";
    assertions := [
      ("c2pa.hash.data", JsonObject [
         ("alg", JsonString "sha256");
         ("hash", JsonString (contentHash sig));
         ("name", JsonString "content.md") ]);
      ("c2pa.actions", JsonObject [
         ("actions", JsonArray [ JsonObject [
            ("action", JsonString "c2pa.created");
            ("when", JsonString (verifiedTimestamp sig));
            ("digitalSourceType", JsonString
               "http://cv.iptc.org/newscodes/digitalsourcetype/trainedAlgorithmicMedia")
         ]]) ]);
      ("stds.schema-org.CreativeWork", JsonObject [
         ("@context", JsonString "https://schema.org");
         ("@type", JsonString "CreativeWork");
         ("author", JsonString (string_or (metadata ≫= author)
            (substring 0 16 (sig_publicKey sig) +:+ "...")));
         ("dateCreated", JsonString (verifiedTimestamp sig));
         ("description", json_of_option (metadata ≫= description)) ]);
      ("org.nichoth.signature", JsonObject [
         ("publicKey", JsonString (sig_publicKey sig));
         ("signature", JsonString (signature sig));
         ("timestamp", JsonString (timestamp sig));
         ("tsaToken", JsonString (tsaToken sig));
         ("verifiedTimestamp", JsonString (verifiedTimestamp sig)) ])
    ];
    manifest_signature_alg := "ed25519";
    manifest_signature_value := signature sig;
  |}.

Definition createSignedContent (content : string) (keypair : Keypair)
    (tsaConfig : TSAConfig) (metadata : option Metadata) : M SignedContent :=
  let* signature := signContentWithTimestamp content keypair tsaConfig in
  let manifest := createC2PAManifest content signature metadata in
  let revision := {|
    rev_content := content;
    rev_signature := signature;
    previousHash := None;
  |} in
  M_ret {|
    content := content;
    revisions := [revision];
    c2paManifest := Some manifest;
  |}.

(** Reading [.signature] of [undefined] (an empty [revisions]) throws. *)
Definition addRevision (signedContent : SignedContent) (newContent : string)
    (keypair : Keypair) (tsaConfig : TSAConfig) : M SignedContent :=
  let* lastRevision :=
    lift (require
      (revisions signedContent !! (length (revisions signedContent) - 1)%nat)
      "Cannot read properties of undefined (reading 'signature')") in
  let previousHash := contentHash (rev_signature lastRevision) in
  let* signature := signContentWithTimestamp newContent keypair tsaConfig in
  let revision := {|
    rev_content := newContent;
    rev_signature := signature;
    previousHash := Some previousHash;
  |} in
  M_ret {|
    content := newContent;
    revisions := (revisions signedContent ++ [revision])%list;
    c2paManifest := Some (createC2PAManifest newContent signature None);
  |}.

Definition revision_label (i : nat) : string :=
  "Revision " +:+ Js.Number_toString10 (N.of_nat i).

(** [a !== b] where [a] is a string or [null] and [b] is a string. *)
Definition differs (a : option string) (b : string) : bool :=
  match a with
  | Some s => negb (String.eqb s b)
  | None => true
  end.

(** One turn of the [for] loop of [verifyChain], for [revisions[i]]. *)
Definition verifyChain_step (signedContent : SignedContent)
    (publicKey : list byte) (i : nat) (revision : ContentRevision)
    (errors : list string) : outcome (list string) :=
  let computedHash := hashContent (rev_content revision) in
  let hashString := bufferToHex computedHash in
  let errors :=
    push_if (negb (String.eqb hashString (contentHash (rev_signature revision))))
      (revision_label i +:+ ": Content hash mismatch") errors in
  valid ← verifySignature (contentHash (rev_signature revision))
             (signature (rev_signature revision)) publicKey;
  let errors :=
    push_if (negb valid) (revision_label i +:+ ": Invalid signature") errors in
  if (0 <? i)%nat then
    prev ← require (revisions signedContent !! (i - 1)%nat)
      "Cannot read properties of undefined (reading 'signature')";
    let prevHash := contentHash (rev_signature prev) in
    mret (push_if (differs (previousHash revision) prevHash)
            (revision_label i +:+ ": Chain linkage broken") errors)
  else
    mret (push_if (bool_decide (previousHash revision ≠ None))
            (revision_label i +:+ ": First revision should have "
               +:+ "null previousHash") errors).

Fixpoint verifyChain_loop (fuel : nat) (signedContent : SignedContent)
    (publicKey : list byte) (i : nat) (errors : list string)
    : outcome (list string) :=
  match fuel with
  | O => Returns errors
  | S fuel' =>
      match revisions signedContent !! i with
      | Some revision =>
          errors ← verifyChain_step signedContent publicKey i revision errors;
          verifyChain_loop fuel' signedContent publicKey (S i) errors
      | None => Returns errors
      end
  end.

Definition verifyChain (signedContent : SignedContent)
    (publicKey : list byte) : outcome Verdict :=
  errors ← verifyChain_loop (length (revisions signedContent)) signedContent
              publicKey 0 [];
  mret {| valid := (length errors =? 0)%nat; errors := errors |}.

End Chain.

(* ===================================================================== *)
(** ** JPEG EXIF embedding ([src/node/index.ts]) *)
(* ===================================================================== *)

(** An entry of the EXIF object: a string, or a value of another type
    (an array of numbers, a number, ...). *)
Inductive exif_value : Type :=
  | ExifText (s : string)
  | ExifOther.

(** The EXIF object of [@substrate-system/exif], reduced to the entries the
    code reads or writes; [exif_rest] is everything else it holds. *)
Record ExifObj (R : Type) := {
  exif_UserComment : option exif_value;
  exif_Artist : option string;
  exif_ImageDescription : option string;
  exif_Software : option string;
  exif_rest : R;
}.
Arguments exif_UserComment {R}.
Arguments exif_Artist {R}.
Arguments exif_ImageDescription {R}.
Arguments exif_Software {R}.
Arguments exif_rest {R}.

(** What [src/node/index.ts] calls besides the platform: the EXIF package
    and [JSON]. *)
Class NodePlatform := {
  ExifRest : Type;
  (** the rest of the object [{'0th': {}, Exif: {}, GPS: {}, ...}] *)
  exif_no_rest : ExifRest;
  (** [load], [remove], [dump], [insert] of [@substrate-system/exif] *)
  exif_load : list byte → outcome (ExifObj ExifRest);
  exif_remove : list byte → outcome (list byte);
  exif_dump : ExifObj ExifRest → outcome (list byte);
  exif_insert : list byte → list byte → outcome (list byte);
  (** [JSON.stringify(sig)] and [JSON.parse(text) as FileSignature] *)
  JSON_stringify : FileSignature → string;
  JSON_parse : string → outcome FileSignature;
}.

Definition is_LineTerminator (c : ascii) : bool :=
  match N_of_ascii c with
  | 10 | 13 => true
  | _ => false
  end%N.

(** The longest prefix of the first line of [s] that ends with [}]. *)
Fixpoint up_to_last_brace (s : string) : option string :=
  match s with
  | EmptyString => None
  | String c s' =>
      if is_LineTerminator c then None
      else
        match up_to_last_brace s' with
        | Some m => Some (String c m)
        | None => if Ascii.eqb c "}" then Some (String c "") else None
        end
  end.

(** The greedy match of [.+\}] at the head of [s]. *)
Definition dot_plus_brace (s : string) : option string :=
  match s with
  | EmptyString => None
  | String c s' =>
      if is_LineTerminator c then None
      else option_map (String c) (up_to_last_brace s')
  end.

Fixpoint string_drop (n : nat) (s : string) : string :=
  match n, s with
  | S n', String _ s' => string_drop n' s'
  | _, _ => s
  end.

(** [s.match(/Signature: (\{.+\})/)]: the first capture group of the
    leftmost match. *)
Fixpoint match_Signature (s : string) : option string :=
  match
    (if String.prefix "Signature: {" s
     then dot_plus_brace (string_drop 12 s) else None)
  with
  | Some m => Some (String "{" m)
  | None =>
      match s with
      | String _ s' => match_Signature s'
      | EmptyString => None
      end
  end.

(** [{ valid, signature, errors }] *)
Record ExifVerdict := {
  ev_valid : bool;
  ev_signature : option FileSignature;
  ev_errors : list string;
}.

Definition no_signature (msg : string) : ExifVerdict :=
  {| ev_valid := false; ev_signature := None; ev_errors := [msg] |}.

(** [x] when it is a non-empty string. *)
Definition truthy_string (x : option string) : option string :=
  match x with
  | Some s => if String.eqb s "" then None else Some s
  | None => None
  end.

Section Node.
Context {Pf : Platform} {Nf : NodePlatform}.

(** [load(jpegBuffer)], or the empty EXIF object when it throws. *)
Definition load_or_empty (jpegBuffer : list byte) : ExifObj ExifRest :=
  match exif_load jpegBuffer with
  | Returns o => o
  | Throws _ =>
      {| exif_UserComment := None; exif_Artist := None;
         exif_ImageDescription := None; exif_Software := None;
         exif_rest := exif_no_rest |}
  end.

(** The metadata [signJpegWithExif] signs: [{ ...metadata, mimeType }]. *)
Definition jpeg_metadata (metadata : option Metadata) : Metadata :=
  {| author := metadata ≫= author;
     title := metadata ≫= title;
     description := metadata ≫= description;
     mimeType := Some "image/jpeg" |}.

(** The assignments [signJpegWithExif] makes to [exifObj]: the signature
    in [UserComment], then [Artist], [ImageDescription] and [Software]. *)
Definition with_signature (exifObj : ExifObj ExifRest)
    (metadata : option Metadata) (sig : FileSignature) : ExifObj ExifRest :=
  let userComment := Some (ExifText (JSON_stringify sig)) in
  let artist :=
    match truthy_string (metadata ≫= author) with
    | Some a => Some a
    | None => exif_Artist exifObj
    end in
  let imageDescription :=
    match truthy_string (metadata ≫= title) with
    | Some t => Some t
    | None => exif_ImageDescription exifObj
    end in
  let imageDescription :=
    match truthy_string (metadata ≫= description) with
    | Some d =>
        Some (match truthy_string (metadata ≫= title) with
              | Some t => t +:+ String "010" (String "010" "")
              | None => ""
              end +:+ d)
    | None => imageDescription
    end in
  let software := Some ("@substrate-system/keyframe v" +:+ package_version) in
  {| exif_UserComment := userComment;
     exif_Artist := artist;
     exif_ImageDescription := imageDescription;
     exif_Software := software;
     exif_rest := exif_rest exifObj |}.

Definition signJpegWithExif (jpegBuffer : list byte) (filename : string)
    (keypair : Keypair) (timestamp : Timestamp) (metadata : option Metadata)
    : M (list byte) :=
  let exifObj := load_or_empty jpegBuffer in
  let* cleanJpegBuffer := lift (exif_remove jpegBuffer) in
  let* sig :=
    signFile filename cleanJpegBuffer keypair timestamp
      (Some (jpeg_metadata metadata)) in
  let exifObj := with_signature exifObj metadata sig in
  let* exifBytes := lift (exif_dump exifObj) in
  lift (exif_insert exifBytes cleanJpegBuffer).

(** What the outer [catch] returns. *)
Definition caught (msg : string) : ExifVerdict :=
  no_signature ("Failed to verify JPEG EXIF: " +:+ msg).

Definition verifyJpegExif (jpegBuffer : list byte) : ExifVerdict :=
  match exif_load jpegBuffer with
  | Throws msg => caught msg
  | Returns exifObj =>
      match exif_UserComment exifObj with
      | Some (ExifText userComment) =>
          if String.eqb userComment "" then
            no_signature "No signature found in EXIF metadata"
          else
            let sigJson :=
              if Js.includes "Signature: " userComment then
                match match_Signature userComment with
                | Some group => group
                | None => userComment
                end
              else userComment in
            match JSON_parse sigJson with
            | Throws _ =>
                no_signature "Failed to parse signature JSON from EXIF"
            | Returns signature =>
                match exif_remove jpegBuffer with
                | Throws msg => caught msg
                | Returns cleanJpegBuffer =>
                    match verifyFileSignature signature cleanJpegBuffer with
                    | Throws msg => caught msg
                    | Returns verification =>
                        {| ev_valid := valid verification;
                           ev_signature := Some signature;
                           ev_errors := errors verification |}
                    end
                end
            end
      | Some ExifOther | None =>
          no_signature "No signature found in EXIF metadata"
      end
  end.

End Node.

(* ===================================================================== *)
(** ** [addRevision] on the heap

    The chain [addRevision] receives is an object that refers to an array
    of revision objects; the copy [[...signedContent.revisions, revision]]
    is a new array that shares the revision objects of the old one. *)
(* ===================================================================== *)

Abbreviation loc := positive.

Inductive object : Type :=
  | ORevision (r : ContentRevision)
  | OArray (items : list loc)
  | OSignedContent (content : string) (revisions : loc)
      (c2paManifest : option Manifest).

Abbreviation heap := (gmap loc object).

(** A new object at an address the heap does not use. *)
Definition alloc (o : object) (h : heap) : loc * heap :=
  let l := fresh (dom h) in (l, <[l := o]> h).

Arguments alloc : simpl never.

Definition as_revision (o : object) : option ContentRevision :=
  match o with
  | ORevision r => Some r
  | _ => None
  end.

Definition read_revisions (h : heap) (items : list loc)
    : option (list ContentRevision) :=
  mapM (λ l, h !! l ≫= as_revision) items.

(** The chain at address [l], as a value. *)
Definition read_chain (h : heap) (l : loc) : option SignedContent :=
  match h !! l with
  | Some (OSignedContent c a m) =>
      match h !! a with
      | Some (OArray items) =>
          revs ← read_revisions h items;
          Some {| content := c; revisions := revs; c2paManifest := m |}
      | _ => None
      end
  | _ => None
  end.

Section Heap.
Context {Pf : Platform}.

Definition addRevision_heap (h : heap) (signedContent : loc)
    (newContent : string) (keypair : Keypair) (tsaConfig : TSAConfig)
    : M (loc * heap) :=
  match h !! signedContent with
  | Some (OSignedContent _ revisions _) =>
      match h !! revisions with
      | Some (OArray items) =>
          let* lastRevision :=
            lift (require
              ((items !! (length items - 1)%nat ≫= (h !!.)) ≫= as_revision)
              "Cannot read properties of undefined (reading 'signature')") in
          let previousHash := contentHash (rev_signature lastRevision) in
          let* signature :=
            signContentWithTimestamp newContent keypair tsaConfig in
          let '(revision, h) :=
            alloc (ORevision {| rev_content := newContent;
                                rev_signature := signature;
                                previousHash := Some previousHash |}) h in
          let '(newRevisions, h) :=
            alloc (OArray (items ++ [revision])%list) h in
          let manifest := createC2PAManifest newContent signature None in
          let '(result, h) :=
            alloc (OSignedContent newContent newRevisions (Some manifest)) h in
          M_ret (result, h)
      | _ => throw "signedContent.revisions is not iterable"
      end
  | _ => throw "Cannot read properties of undefined (reading 'revisions')"
  end.

End Heap.

(* ===================================================================== *)
(** ** Definitions used to state the properties *)
(* ===================================================================== *)

Arguments JsDate.is_digit : simpl never.

Definition all_digits (s : string) : Prop :=
  Forall (λ c, JsDate.is_digit c = true) (list_ascii_of_string s).

(** The grammar [YYYYMMDDHHMMSS[.fraction]Z]: fourteen decimal digits, then
    optionally a dot and at least one decimal digit, then the letter Z. *)
Definition genTime_grammar (s : string) : Prop :=
  ∃ (date_time : string) (fraction : option string),
    String.length date_time = 14%nat
    ∧ all_digits date_time
    ∧ (∀ f, fraction = Some f → f ≠ "" ∧ all_digits f)
    ∧ s = date_time +:+ from_option (λ f, "." +:+ f) "" fraction +:+ "Z".

(** [s] ends with the letter Z. *)
Definition ends_with_Z (s : string) : Prop := ∃ s', s = s' +:+ "Z".

(** The instant of a date and a time of day in UTC, in milliseconds since
    the epoch.  The day is counted from the first of the month, so that a
    day past the end of the month is a day of the next month. *)
Definition utc_instant (y mo d h mi s ms : Z) : Z :=
  ((JsDate.days_from_civil y mo 1 + (d - 1)) * 86400000
   + h * 3600000 + mi * 60000 + s * 1000 + ms)%Z.

(** The milliseconds of a fraction of a second: its first three digits, a
    shorter fraction read as if zeros followed it. *)
Definition fraction_milliseconds (f : string) : Z :=
  JsDate.dec_value (substring 0 3 (f +:+ "00")).

Definition all_zeros (f : string) : bool :=
  forallb (Ascii.eqb "0") (list_ascii_of_string f).

(** The fields for which [new Date] gives an instant: a month from 1 to 12,
    a day from 1 to 31, a minute and a second up to 59, and an hour up to
    23, or the time 24:00:00 with nothing but zeros in the fraction. *)
Definition genTime_in_range (mo d h mi s : Z) (fraction : option string)
    : bool :=
  ((1 <=? mo) && (mo <=? 12) && (1 <=? d) && (d <=? 31)
   && (mi <=? 59) && (s <=? 59)
   && ((h <=? 23)
       || ((h =? 24) && (mi =? 0) && (s =? 0)
           && from_option all_zeros true fraction)))%Z.

(** The Date of the fields of a [genTime]: their instant when they are in
    range, the Invalid Date when they are not. *)
Definition genTime_date (year month day hour minute second : string)
    (fraction : option string) : JsDate.Date :=
  let y := JsDate.dec_value year in
  let mo := JsDate.dec_value month in
  let d := JsDate.dec_value day in
  let h := JsDate.dec_value hour in
  let mi := JsDate.dec_value minute in
  let s := JsDate.dec_value second in
  if genTime_in_range mo d h mi s fraction
  then Some (utc_instant y mo d h mi s
               (from_option JsDate.ReadMilliseconds 0%Z fraction))
  else None.

(** The OID of SHA-256, 2.16.840.1.101.3.4.2.1, in hex. *)
Definition sha256_oid : string := "608648016503040201".

(** The algorithm names the configuration documents. *)
Definition supported_hashAlgorithm (name : string) : Prop :=
  name = "sha256" ∨ name = "sha384" ∨ name = "sha512".

Section Statements.
Context {Pf : Platform}.

(** The three checks of [verifyFileSignature]. *)
Definition hash_check (sig : FileSignature) (fileBuffer : list byte) : bool :=
  String.eqb (bufferToHex (subtle_digest_SHA256 fileBuffer))
    (file_hash (fs_file sig)).

Definition size_check (sig : FileSignature) (fileBuffer : list byte) : bool :=
  (Z.of_nat (length fileBuffer) =? file_size (fs_file sig))%Z.

Definition signature_check (sig : FileSignature) (key : CryptoKey) : bool :=
  subtle_verify key (hexToBuffer (si_signature (fs_signature sig)))
    (hexToBuffer (file_hash (fs_file sig))).


(** The timestamp authority answers the request for [hash] made in world
    [w]: it returns [token] and a time whose ISO form is [verified]. *)
Definition tsa_answers (hash : string) (config : TSAConfig) (w w' : world)
    (token verified : string) : Prop :=
  ∃ time, requestTimestamp hash config w = (Returns (token, time), w')
          ∧ JsDate.Date_toISOString time = Returns verified.

(** The three checks [verifyChain] makes on each revision. *)
Inductive check : Type :=
  | HashCheck
  | SignatureCheck
  | LinkageCheck.

(** Whether check [c] holds of revision [i]: the stored hash is the hash of
    the content; the signature verifies over the stored hash; the previous
    hash is that of revision [i - 1], or null for the first revision. *)
Definition check_passes (sc : SignedContent) (key : CryptoKey) (i : nat)
    (c : check) : bool :=
  match revisions sc !! i with
  | None => true
  | Some r =>
      match c with
      | HashCheck =>
          String.eqb (bufferToHex (hashContent (rev_content r)))
            (contentHash (rev_signature r))
      | SignatureCheck =>
          subtle_verify key (hexToBuffer (signature (rev_signature r)))
            (hexToBuffer (contentHash (rev_signature r)))
      | LinkageCheck =>
          match i with
          | O => bool_decide (previousHash r = None)
          | S j =>
              match revisions sc !! j with
              | Some prev =>
                  bool_decide
                    (previousHash r = Some (contentHash (rev_signature prev)))
              | None => true
              end
          end
      end
  end.

Definition checks_of (i : nat) : list (nat * check) :=
  [(i, HashCheck); (i, SignatureCheck); (i, LinkageCheck)].

(** Every check of every revision from [i] on, in the order of the chain. *)
Definition checks_from (i n : nat) : list (nat * check) :=
  flat_map checks_of (seq i n).

Definition fails (sc : SignedContent) (key : CryptoKey) (ic : nat * check)
    : Prop :=
  check_passes sc key ic.1 ic.2 = false.

Global Instance fails_dec (sc : SignedContent) (key : CryptoKey)
    (ic : nat * check) : Decision (fails sc key ic).
Proof. unfold fails. apply _. Defined.

(** The failed checks of a chain, front to back. *)
Definition failed_checks (sc : SignedContent) (key : CryptoKey)
    : list (nat * check) :=
  filter (fails sc key) (checks_from 0 (length (revisions sc))).

(** The error string of a failed check. *)
Definition message (ic : nat * check) : string :=
  revision_label ic.1 +:+
  match ic.2 with
  | HashCheck => ": Content hash mismatch"
  | SignatureCheck => ": Invalid signature"
  | LinkageCheck =>
      match ic.1 with
      | O => ": First revision should have null previousHash"
      | S _ => ": Chain linkage broken"
      end
  end.

(** Every check of every revision of the chain holds. *)
Definition intact (sc : SignedContent) (key : CryptoKey) : Prop :=
  ∀ i c, check_passes sc key i c = true.

(** [signedContent.revisions[i].content = tampered], the stored hash left
    as it is. *)
Definition corrupt_content (i : nat) (tampered : string) (sc : SignedContent)
    : SignedContent :=
  {| content := content sc;
     revisions :=
       alter (λ r, {| rev_content := tampered;
                      rev_signature := rev_signature r;
                      previousHash := previousHash r |}) i (revisions sc);
     c2paManifest := c2paManifest sc |}.

End Statements.

Section NodeStatements.
Context {Pf : Platform} {Nf : NodePlatform}.

(** Stripping a stripped image changes nothing. *)
Definition strip_idempotent : Prop :=
  ∀ image clean, exif_remove image = Returns clean →
                 exif_remove clean = Returns clean.

(** The codec gives back what was embedded: stripping [out] gives the
    stripped image [clean] again, and loading [out] gives the
    [UserComment] of [exifObj]. *)
Definition codec_round_trip (exifObj : ExifObj ExifRest)
    (clean out : list byte) : Prop :=
  exif_remove out = Returns clean
  ∧ ∃ loaded, exif_load out = Returns loaded
              ∧ exif_UserComment loaded = exif_UserComment exifObj.

(** [JSON.parse] gives back the signature that [JSON.stringify] wrote. *)
Definition json_round_trip (sig : FileSignature) : Prop :=
  JSON_stringify sig ≠ "" ∧ JSON_parse (JSON_stringify sig) = Returns sig.

(** The JSON text of the signature contains [Signature: ], the mark of the
    legacy format that [verifyJpegExif] looks for. *)
Definition has_legacy_mark (sig : FileSignature) : bool :=
  Js.includes "Signature: " (JSON_stringify sig).

End NodeStatements.

(* ===================================================================== *)
(** ** More of [src/util.ts]: what [hexToBuffer] does with any string *)
(* ===================================================================== *)

(** The pieces [hex.substring(i, i + 2)] at even [i] that have two
    characters. *)
Fixpoint hex_pairs (hex : string) : list string :=
  match hex with
  | String a (String b rest) => String a (String b "") :: hex_pairs rest
  | _ => []
  end.

(** [parseInt(pair, 16)] stored into a byte. *)
Definition pair_byte (pair : string) : byte :=
  Js.ToUint8 (Js.parseInt16 pair).

(** [atob] is the platform's; it throws on text that is not base64. *)
Definition base64ToBuffer (atob : string → outcome string) (base64 : string)
    : outcome (list byte) :=
  binary ← atob base64;
  mret (map byte_of_ascii (list_ascii_of_string binary)).

Definition is_hex_digit (c : ascii) : bool :=
  match Js.hex_value c with
  | Some _ => true
  | None => false
  end.

(** A hexadecimal digit in lower case. *)
Definition hex_lower (c : ascii) : ascii :=
  let n := N_of_ascii c in
  if (65 <=? n)%N && (n <=? 70)%N then ascii_of_N (n + 32) else c.

Fixpoint lower_hex (s : string) : string :=
  match s with
  | String c s' => String (hex_lower c) (lower_hex s')
  | EmptyString => ""
  end.

(** Every code unit of the model. *)
Definition all_ascii : list ascii := map ascii_of_nat (seq 0 256).

(** Two hexadecimal digits decode to the byte whose hex form they are, up
    to the case of the letters. *)
Definition decodes_to_lower (a b : ascii) : bool :=
  implb (is_hex_digit a && is_hex_digit b)
    (String.eqb (byte_hex (pair_byte (String a (String b ""))))
       (String (hex_lower a) (String (hex_lower b) ""))).

(* ===================================================================== *)
(** ** What the verifiers look at *)
(* ===================================================================== *)

(** Two file signatures agree on the fields [verifyFileSignature] reads:
    the hash and the size of the file, the public key and the signature. *)
Definition same_checked_fields (a b : FileSignature) : Prop :=
  file_hash (fs_file a) = file_hash (fs_file b)
  ∧ file_size (fs_file a) = file_size (fs_file b)
  ∧ si_publicKey (fs_signature a) = si_publicKey (fs_signature b)
  ∧ si_signature (fs_signature a) = si_signature (fs_signature b).

(** [sig] with another file name, timestamp and metadata. *)
Definition relabelled (name : string) (ts : Timestamp)
    (metadata : option Metadata) (sig : FileSignature) : FileSignature :=
  {| fs_version := fs_version sig;
     fs_file := {| file_name := name;
                   file_hash := file_hash (fs_file sig);
                   file_size := file_size (fs_file sig);
                   file_mimeType := metadata ≫= mimeType |};
     fs_signature := fs_signature sig;
     fs_timestamp := ts;
     fs_metadata := metadata |}.

(** The fields of a revision that [verifyChain] reads: the content, the
    stored hash, the signature and the previous hash. *)
Definition checked_fields (r : ContentRevision)
    : string * string * string * option string :=
  (rev_content r, contentHash (rev_signature r), signature (rev_signature r),
   previousHash r).

(** The chain cut after its first [n] revisions. *)
Definition truncated (n : nat) (sc : SignedContent) : SignedContent :=
  {| content := content sc;
     revisions := take n (revisions sc);
     c2paManifest := c2paManifest sc |}.

(** The chain without its first [n] revisions. *)
Definition without_first (n : nat) (sc : SignedContent) : SignedContent :=
  {| content := content sc;
     revisions := drop n (revisions sc);
     c2paManifest := c2paManifest sc |}.

(* ===================================================================== *)
(** ** Export ([src/index.ts]) *)
(* ===================================================================== *)

(** An entry of [ChainProof.revisions]. *)
Record ChainProofEntry := {
  cp_contentHash : string;
  cp_signature : string;
  cp_timestamp : string;
  cp_previousHash : option string;
}.

Record ChainProof := {
  cp_revisions : list ChainProofEntry;
}.

(** [{ content, manifest, chainProof }] *)
Record Exported := {
  exp_content : string;
  exp_manifest : option Manifest;
  exp_chainProof : ChainProof;
}.

Definition exportWithManifest (signedContent : SignedContent) : Exported :=
  {| exp_content := content signedContent;
     exp_manifest := c2paManifest signedContent;
     exp_chainProof := {|
       cp_revisions :=
         map (λ r, {| cp_contentHash := contentHash (rev_signature r);
                      cp_signature := signature (rev_signature r);
                      cp_timestamp := verifiedTimestamp (rev_signature r);
                      cp_previousHash := previousHash r |})
           (revisions signedContent) |} |}.

Section C2PA.
Context {Pf : Platform}.

(** [{ signature, manifest }] *)
Definition signContentC2PA (content : string) (keypair : Keypair)
    (tsaConfig : TSAConfig) (metadata : option Metadata)
    : M (TimestampedSignature * Manifest) :=
  let* sig := signContentWithTimestamp content keypair tsaConfig in
  let manifest := createC2PAManifest content sig metadata in
  M_ret (sig, manifest).

End C2PA.

(** The [data] of the assertion labelled [label], and a member of it. *)
Definition assertion (label : string) (m : Manifest) : option json :=
  snd <$> head (filter (λ a, a.1 = label) (assertions m)).

Definition json_field (key : string) (v : json) : option json :=
  match v with
  | JsonObject fields => snd <$> head (filter (λ kv, kv.1 = key) fields)
  | _ => None
  end.

(** The hash a manifest binds: the [hash] of its [c2pa.hash.data]. *)
Definition manifest_hash (m : Manifest) : option json :=
  assertion "c2pa.hash.data" m ≫= json_field "hash".

(** The manifest of the chain is about its last revision: it carries the
    signature of that revision and binds its hash, and the content of the
    chain is the content of that revision. *)
Definition manifest_of_last_revision (sc : SignedContent) : Prop :=
  ∃ m r,
    c2paManifest sc = Some m
    ∧ last (revisions sc) = Some r
    ∧ rev_content r = content sc
    ∧ manifest_signature_value m = signature (rev_signature r)
    ∧ manifest_hash m = Some (JsonString (contentHash (rev_signature r))).

(* ===================================================================== *)
(** ** File wrappers ([src/node/index.ts]) and serialization *)
(* ===================================================================== *)

(** [s.split('/')] *)
Fixpoint split_slash (s : string) : list string :=
  match s with
  | EmptyString => [""]
  | String c s' =>
      if Ascii.eqb c "/" then "" :: split_slash s'
      else
        match split_slash s' with
        | piece :: pieces => String c piece :: pieces
        | [] => [String c ""]
        end
  end.

(** [filepath.split('/').pop() || filepath] *)
Definition filename_of (filepath : string) : string :=
  string_or (last (split_slash filepath)) filepath.

(** [s.endsWith('/')] *)
Fixpoint ends_with_slash (s : string) : bool :=
  match s with
  | EmptyString => false
  | String c EmptyString => Ascii.eqb c "/"
  | String _ s' => ends_with_slash s'
  end.

(** The pieces, each followed by a slash. *)
Fixpoint slash_join (pieces : list string) : string :=
  match pieces with
  | [] => ""
  | piece :: pieces' => piece +:+ String "/" (slash_join pieces')
  end.

Definition no_slash (s : string) : Prop :=
  Forall (λ c, c ≠ "/"%char) (list_ascii_of_string s).

(** What the file wrappers call besides the platform: [readFile] and
    [writeFile] of [node:fs/promises], for bytes and for text, and the
    indenting [JSON.stringify(sig, null, 2)]. *)
Class FilePlatform := {
  (** the state of the file system *)
  files : Type;
  readFile : string → files → outcome (list byte) * files;
  readFile_utf8 : string → files → outcome string * files;
  writeFile : string → list byte → files → outcome unit * files;
  writeFile_text : string → string → files → outcome unit * files;
  JSON_stringify_indent : FileSignature → string;
}.

(** [{ ...result, signature }] *)
Record FileVerdict := {
  fv_valid : bool;
  fv_errors : list string;
  fv_signature : FileSignature;
}.

Section FileIO.
Context {Pf : Platform} {Nf : NodePlatform} {Ff : FilePlatform}.

(** Computations on the world and on the file system. *)
Definition IO (A : Type) : Type := world * files → outcome A * (world * files).

Definition IO_ret {A} (a : A) : IO A := λ s, (Returns a, s).

Definition IO_bind {A B} (m : IO A) (f : A → IO B) : IO B := λ s,
  match m s with
  | (Returns a, s') => f a s'
  | (Throws msg, s') => (Throws msg, s')
  end.

Definition in_world {A} (m : M A) : IO A := λ s,
  let '(o, w') := m s.1 in (o, (w', s.2)).

Definition in_files {A} (m : files → outcome A * files) : IO A := λ s,
  let '(o, fsys') := m s.2 in (o, (s.1, fsys')).

Definition serializeFileSignature (sig : FileSignature) : string :=
  JSON_stringify_indent sig.

Definition parseFileSignature (json : string) : outcome FileSignature :=
  JSON_parse json.

Definition signFileFromPath (filepath : string) (keypair : Keypair)
    (ts : Timestamp) (metadata : option Metadata) : IO FileSignature :=
  IO_bind (in_files (readFile filepath)) (λ fileBuffer,
  let filename := filename_of filepath in
  in_world (signFile filename fileBuffer keypair ts metadata)).

Definition verifyFileFromPath (filepath signaturePath : string)
    : IO FileVerdict :=
  IO_bind (in_files (readFile filepath)) (λ fileBuffer,
  IO_bind (in_files (readFile_utf8 signaturePath)) (λ sigJson,
  IO_bind (in_world (lift (parseFileSignature sigJson))) (λ sig,
  IO_bind (in_world (lift (verifyFileSignature sig fileBuffer))) (λ result,
  IO_ret {| fv_valid := valid result; fv_errors := errors result;
            fv_signature := sig |})))).

(** [outputPath] is optional; [None] is [undefined]. *)
Definition signAndSaveSidecar (filepath : string) (keypair : Keypair)
    (ts : Timestamp) (outputPath : option string)
    (metadata : option Metadata) : IO (FileSignature * string) :=
  IO_bind (signFileFromPath filepath keypair ts metadata) (λ sig,
  let sidecarPath := string_or outputPath (filepath +:+ ".sig") in
  IO_bind (in_files (writeFile_text sidecarPath (serializeFileSignature sig)))
    (λ _, IO_ret (sig, sidecarPath))).

Definition signJpegFileWithExif (inputPath outputPath : string)
    (keypair : Keypair) (ts : Timestamp) (metadata : option Metadata)
    : IO unit :=
  IO_bind (in_files (readFile inputPath)) (λ jpegBuffer,
  let filename := filename_of inputPath in
  IO_bind (in_world (signJpegWithExif jpegBuffer filename keypair ts metadata))
    (λ signedJpeg, in_files (writeFile outputPath signedJpeg))).

Definition verifyJpegFileExif (filepath : string) : IO ExifVerdict :=
  IO_bind (in_files (readFile filepath)) (λ jpegBuffer,
  IO_ret (verifyJpegExif jpegBuffer)).

End FileIO.

(** No line terminator in [s]. *)
Definition single_line (s : string) : bool :=
  forallb (λ c, negb (is_LineTerminator c)) (list_ascii_of_string s).

(* ===================================================================== *)
(** ** A deterministic platform

    A stand-in for the browser or Node.js, in the manner of the mock
    timestamp of [test/node.ts]: a clock that ticks once per reading, a
    counter for random bytes, one timestamp authority with a fixed
    response, and a signature scheme with the interface of Ed25519 in
    WebCrypto (32-byte raw public keys, PKCS8 private keys, 64-byte
    signatures).  It is used to run the library on concrete inputs. *)
(* ===================================================================== *)

Module Mock.

Definition byte_of (n : N) : byte := default x00 (Byte.of_N (n mod 256)).

(** A 32-byte digest (not SHA-256: a checksum that stands in for it). *)
Definition mix (acc : N) (b : byte) : N :=
  ((acc * 131 + Byte.to_N b + 1) mod 4294967291)%N.

Fixpoint stream (n : nat) (state : N) : list byte :=
  match n with
  | O => []
  | S n' =>
      let state' := ((state * 1103515245 + 12345) mod 2147483648)%N in
      byte_of (state' / 65536) :: stream n' state'
  end.

Definition digest (data : list byte) : list byte :=
  stream 32 (fold_left mix data (N.of_nat (length data) + 5381)%N).

Record key := {
  key_private : bool;
  key_material : list byte;
}.

Definition pkcs8_prefix : list byte :=
  [x30; x2e; x02; x01; x00; x30; x05; x06; x03; x2b; x65; x70; x04; x22;
   x04; x20].

(** The public key that belongs to a 32-byte private seed. *)
Definition public_of_seed (seed : list byte) : list byte :=
  digest (seed ++ [x01])%list.

(** As in WebCrypto, a raw Ed25519 public key has 32 bytes and the import
    of any other length is rejected (a [DataError]). *)
Definition importKey_raw (keyData : list byte) : outcome key :=
  if (length keyData =? 32)%nat then
    Returns {| key_private := false; key_material := keyData |}
  else Throws "Invalid keyData".

(** A PKCS8 private key: the 16-byte Ed25519 header and a 32-byte seed. *)
Definition importKey_pkcs8 (keyData : list byte) : outcome key :=
  if bool_decide (take 16 keyData = pkcs8_prefix)
     && (length keyData =? 48)%nat then
    Returns {| key_private := true;
               key_material := public_of_seed (drop 16 keyData) |}
  else Throws "Invalid keyData".

Definition tag (material data : list byte) : list byte :=
  (digest (material ++ data) ++ digest (data ++ material))%list.

Definition sign (k : key) (data : list byte) : outcome (list byte) :=
  if key_private k then Returns (tag (key_material k) data)
  else Throws "Unable to use this key to sign".

Definition verify (k : key) (sig data : list byte) : bool :=
  bool_decide (sig = tag (key_material k) data).

(** The clock starts at 2024-01-01T12:00:00.000Z and advances by one
    second per reading. *)
Definition now (w : nat) : string * nat :=
  (match JsDate.Date_toISOString
           (Some (1704110400000 + 1000 * Z.of_nat w)%Z) with
   | Returns s => s
   | Throws _ => ""
   end, S w).

Definition random (n : nat) (w : nat) : list byte * nat :=
  (stream n (N.of_nat w), S w).

Definition base64_char (n : N) : ascii :=
  if (n <? 26)%N then ascii_of_N (65 + n)
  else if (n <? 52)%N then ascii_of_N (71 + n)
  else if (n <? 62)%N then ascii_of_N (n - 4)
  else if (n =? 62)%N then "+"%char else "/"%char.

Fixpoint base64 (s : list N) : string :=
  match s with
  | a :: b :: c :: rest =>
      String (base64_char (a / 4))
        (String (base64_char (a mod 4 * 16 + b / 16))
           (String (base64_char (b mod 16 * 4 + c / 64))
              (String (base64_char (c mod 64)) (base64 rest))))
  | [a; b] =>
      String (base64_char (a / 4))
        (String (base64_char (a mod 4 * 16 + b / 16))
           (String (base64_char (b mod 16 * 4)) "="))
  | [a] =>
      String (base64_char (a / 4)) (String (base64_char (a mod 4 * 16)) "==")
  | [] => ""
  end%N.

Definition base64_of_binary (binary : string) : string :=
  base64 (map N_of_ascii (list_ascii_of_string binary)).

Definition decode (bytes : list byte) : string :=
  string_of_list_ascii (map ascii_of_byte bytes).

Definition bytes_of_string (s : string) : list byte :=
  map byte_of_ascii (list_ascii_of_string s).

Definition jsval_text (v : jsval) : string :=
  match v with
  | JString s => s
  | JUndefined => ""
  | JBuiltin name => "function " +:+ name +:+ "() { [native code] }"
  | JObjectPrototype => "[object Object]"
  end.

(** DER length octets, in hex. *)
Definition der_length (n : N) : string :=
  if (n <? 128)%N then byte_hex (byte_of n)
  else if (n <? 256)%N then "81" +:+ byte_hex (byte_of n)
  else "82" +:+ byte_hex (byte_of (n / 256)) +:+ byte_hex (byte_of n).

Definition Any (type : string) (parts : list jsval) : outcome string :=
  let hex := Js.join_empty (map jsval_text parts) in
  if Nat.even (String.length hex) then
    Returns (type +:+ der_length (N.of_nat (String.length hex / 2)) +:+ hex)
  else Throws "invalid hex".

Definition UInt (hex : string) : outcome string :=
  match hexToBuffer hex with
  | b :: _ =>
      if (128 <=? Byte.to_N b)%N then Any "02" [JString ("00" +:+ hex)]
      else Any "02" [JString hex]
  | [] => Any "02" [JString hex]
  end.

Definition leaf (type : N) (value : list byte) : asn1node :=
  Asn1Node type None (Some value).
Definition seq (type : N) (children : list asn1node) : asn1node :=
  Asn1Node type (Some children) None.

(** The one response of the authority and the [TSTInfo] inside it. *)
Definition tstInfo_bytes : list byte := bytes_of_string "TSTInfo".
Definition response_bytes : list byte := bytes_of_string "TimeStampResp".

Definition tstInfo : asn1node :=
  seq 48 [ leaf 2 [x01]; leaf 6 [x2a]; seq 48 []; leaf 2 [x07];
           leaf 24 (bytes_of_string "20240101120000Z") ].

Definition timeStampResp : asn1node :=
  seq 48 [
    seq 48 [ leaf 2 [x00] ];
    seq 48 [
      leaf 6 [x2a];
      seq 160 [
        seq 48 [
          leaf 2 [x03];
          seq 49 [];
          seq 48 [ leaf 6 [x2a]; seq 160 [ leaf 4 tstInfo_bytes ] ]
        ]
      ]
    ]
  ].

Definition parse (der : list byte) : outcome asn1parsed :=
  if bool_decide (der = response_bytes) then Returns (AsnObject timeStampResp)
  else if bool_decide (der = tstInfo_bytes) then Returns (AsnObject tstInfo)
  else Throws "ASN.1 parse error".

(** The authority at [https://tsa.example/tsr] answers every request; any
    other address answers 503. *)
Definition fetch (url contentType : string) (body : list byte) (w : nat)
    : outcome Response * nat :=
  if String.eqb url "https://tsa.example/tsr" then
    (Returns {| resp_ok := true; resp_status := 200;
                resp_body := response_bytes |}, S w)
  else
    (Returns {| resp_ok := false; resp_status := 503; resp_body := [] |}, S w).

#[export] Instance platform : Platform := {|
  world := nat;
  Date_now_toISOString := now;
  getRandomValues := random;
  fetch_post := fetch;
  CryptoKey := key;
  subtle_digest_SHA256 := digest;
  subtle_importKey_raw := importKey_raw;
  subtle_importKey_pkcs8 := importKey_pkcs8;
  subtle_sign := sign;
  subtle_verify := verify;
  btoa := base64_of_binary;
  TextDecoder_decode := decode;
  ASN1_Any := Any;
  ASN1_UInt := UInt;
  ASN1_parse := parse;
  package_version := "0.1.0";
|}.

(** *** JSON text *)

Definition dquote : ascii := "034"%char.
Definition backslash : ascii := "092"%char.

Definition quote_char (c : ascii) : string :=
  let n := N_of_ascii c in
  if (n =? 34)%N then String backslash (String dquote "")
  else if (n =? 92)%N then String backslash (String backslash "")
  else if (n =? 8)%N then String backslash "b"
  else if (n =? 9)%N then String backslash "t"
  else if (n =? 10)%N then String backslash "n"
  else if (n =? 12)%N then String backslash "f"
  else if (n =? 13)%N then String backslash "r"
  else if (n <? 32)%N then String backslash ("u00" +:+ byte_hex (byte_of n))
  else String c "".

(** The JSON string literal of [s]. *)
Definition quote (s : string) : string :=
  String dquote
    (Js.join_empty (map quote_char (list_ascii_of_string s))
     +:+ String dquote "").

Definition number_text (z : Z) : string :=
  (if (z <? 0)%Z then "-" else "") +:+ Js.Number_toString10 (Z.abs_N z).

Fixpoint join_comma (parts : list string) : string :=
  match parts with
  | [] => ""
  | [x] => x
  | x :: rest => x +:+ "," +:+ join_comma rest
  end.

(** [JSON.stringify(v)] without indentation; [None] is [undefined]. *)
Fixpoint stringify (v : json) : option string :=
  let fix members (fields : list (string * json)) : list string :=
    match fields with
    | [] => []
    | (k, x) :: rest =>
        match stringify x with
        | Some t => (quote k +:+ ":" +:+ t) :: members rest
        | None => members rest
        end
    end in
  let fix elements (items : list json) : list string :=
    match items with
    | [] => []
    | x :: rest => default "null" (stringify x) :: elements rest
    end in
  match v with
  | JsonUndefined => None
  | JsonNull => Some "null"
  | JsonBool b => Some (if b then "true" else "false")
  | JsonNumber z => Some (number_text z)
  | JsonString s => Some (quote s)
  | JsonObject fields => Some ("{" +:+ join_comma (members fields) +:+ "}")
  | JsonArray items => Some ("[" +:+ join_comma (elements items) +:+ "]")
  end.

Definition json_of_Metadata (m : Metadata) : json :=
  JsonObject [ ("author", json_of_option (author m));
               ("title", json_of_option (title m));
               ("description", json_of_option (description m));
               ("mimeType", json_of_option (mimeType m)) ].

Definition json_of_FileSignature (sig : FileSignature) : json :=
  JsonObject [
    ("version", JsonString (fs_version sig));
    ("file", JsonObject [
       ("name", JsonString (file_name (fs_file sig)));
       ("hash", JsonString (file_hash (fs_file sig)));
       ("size", JsonNumber (file_size (fs_file sig)));
       ("mimeType", json_of_option (file_mimeType (fs_file sig))) ]);
    ("signature", JsonObject [
       ("algorithm", JsonString (si_algorithm (fs_signature sig)));
       ("publicKey", JsonString (si_publicKey (fs_signature sig)));
       ("signature", JsonString (si_signature (fs_signature sig)));
       ("signedAt", JsonString (si_signedAt (fs_signature sig))) ]);
    ("timestamp", JsonObject [
       ("authority", JsonString (authority (fs_timestamp sig)));
       ("token", JsonString (token (fs_timestamp sig)));
       ("verifiedAt", JsonString (verifiedAt (fs_timestamp sig))) ]);
    ("metadata", match fs_metadata sig with
                 | Some m => json_of_Metadata m
                 | None => JsonUndefined
                 end) ].

Definition stringify_FileSignature (sig : FileSignature) : string :=
  default "" (stringify (json_of_FileSignature sig)).

Definition is_ws (c : ascii) : bool :=
  match N_of_ascii c with
  | 9 | 10 | 13 | 32 => true
  | _ => false
  end%N.

Fixpoint skip_ws (s : string) : string :=
  match s with
  | String c s' => if is_ws c then skip_ws s' else s
  | EmptyString => s
  end.

Definition hex4 (a b c d : ascii) : option N :=
  x ← Js.hex_value a; y ← Js.hex_value b;
  z ← Js.hex_value c; t ← Js.hex_value d;
  Some (((x * 16 + y) * 16 + z) * 16 + t)%N.

(** The rest of a string literal, after its opening quote: the string and
    what follows the closing quote.  An escape for a code unit above 255
    is outside the model and is refused. *)
Fixpoint string_body (s : string) : option (string * string) :=
  match s with
  | EmptyString => None
  | String c r =>
      if Ascii.eqb c dquote then Some ("", r)
      else if Ascii.eqb c backslash then
        match r with
        | String e r' =>
            let continue (x : ascii) (rest : option (string * string)) :=
              '(t, r'') ← rest; Some (String x t, r'') in
            if Ascii.eqb e dquote then continue dquote (string_body r')
            else if Ascii.eqb e backslash then
              continue backslash (string_body r')
            else if Ascii.eqb e "/" then continue "/"%char (string_body r')
            else if Ascii.eqb e "b" then continue "008"%char (string_body r')
            else if Ascii.eqb e "f" then continue "012"%char (string_body r')
            else if Ascii.eqb e "n" then continue "010"%char (string_body r')
            else if Ascii.eqb e "r" then continue "013"%char (string_body r')
            else if Ascii.eqb e "t" then continue "009"%char (string_body r')
            else if Ascii.eqb e "u" then
              match r' with
              | String h1 (String h2 (String h3 (String h4 r''))) =>
                  match hex4 h1 h2 h3 h4 with
                  | Some n =>
                      if (n <? 256)%N
                      then continue (ascii_of_N n) (string_body r'')
                      else None
                  | None => None
                  end
              | _ => None
              end
            else None
        | EmptyString => None
        end
      else if (N_of_ascii c <? 32)%N then None
      else '(t, r') ← string_body r; Some (String c t, r')
  end.

(** An integer; a fraction or an exponent is outside the model. *)
Definition number (s : string) : option (json * string) :=
  let '(negative, s) :=
    match s with
    | String "-" r => (true, r)
    | _ => (false, s)
    end in
  let '(digits, r) := JsDate.span_digits s in
  match digits, r with
  | EmptyString, _ => None
  | _, String "." _ | _, String "e" _ | _, String "E" _ => None
  | _, _ =>
      Some (JsonNumber (if negative then - JsDate.dec_value digits
                        else JsDate.dec_value digits)%Z, r)
  end.

Fixpoint value (fuel : nat) (s : string) : option (json * string) :=
  match fuel with
  | O => None
  | S fuel =>
      let s := skip_ws s in
      match s with
      | String c r =>
          if Ascii.eqb c "{" then members fuel r []
          else if Ascii.eqb c "[" then elements fuel r []
          else if Ascii.eqb c dquote then
            '(t, r') ← string_body r; Some (JsonString t, r')
          else if String.prefix "true" s then
            Some (JsonBool true, string_drop 4 s)
          else if String.prefix "false" s then
            Some (JsonBool false, string_drop 5 s)
          else if String.prefix "null" s then Some (JsonNull, string_drop 4 s)
          else number s
      | EmptyString => None
      end
  end
with members (fuel : nat) (s : string) (acc : list (string * json))
    : option (json * string) :=
  match fuel with
  | O => None
  | S fuel =>
      match skip_ws s with
      | String c r =>
          if Ascii.eqb c "}" then
            match acc with
            | [] => Some (JsonObject [], r)
            | _ => None
            end
          else if Ascii.eqb c dquote then
            '(k, r) ← string_body r;
            match skip_ws r with
            | String ":" r =>
                '(v, r) ← value fuel r;
                match skip_ws r with
                | String "," r => members fuel r (acc ++ [(k, v)])%list
                | String "}" r => Some (JsonObject (acc ++ [(k, v)])%list, r)
                | _ => None
                end
            | _ => None
            end
          else None
      | EmptyString => None
      end
  end
with elements (fuel : nat) (s : string) (acc : list json)
    : option (json * string) :=
  match fuel with
  | O => None
  | S fuel =>
      match skip_ws s, acc with
      | String "]" r, [] => Some (JsonArray [], r)
      | _, _ =>
          '(v, r) ← value fuel s;
          match skip_ws r with
          | String "," r => elements fuel r (acc ++ [v])%list
          | String "]" r => Some (JsonArray (acc ++ [v])%list, r)
          | _ => None
          end
      end
  end.

(** [v[key]] on a parsed value. *)
Definition field (key : string) (v : json) : option json :=
  match v with
  | JsonObject fields =>
      snd <$> last (filter (λ kv, kv.1 = key) fields)
  | _ => None
  end.

Definition as_string (v : json) : option string :=
  match v with
  | JsonString s => Some s
  | _ => None
  end.

Definition as_number (v : json) : option Z :=
  match v with
  | JsonNumber z => Some z
  | _ => None
  end.

Definition text_field (key : string) (v : json) : option string :=
  field key v ≫= as_string.

Definition FileSignature_of_json (v : json) : option FileSignature :=
  version ← text_field "version" v;
  file ← field "file" v;
  name ← text_field "name" file;
  hash ← text_field "hash" file;
  size ← field "size" file ≫= as_number;
  signature ← field "signature" v;
  algorithm ← text_field "algorithm" signature;
  publicKey ← text_field "publicKey" signature;
  sigHex ← text_field "signature" signature;
  signedAt ← text_field "signedAt" signature;
  timestamp ← field "timestamp" v;
  tsAuthority ← text_field "authority" timestamp;
  tsToken ← text_field "token" timestamp;
  tsVerifiedAt ← text_field "verifiedAt" timestamp;
  Some {|
    fs_version := version;
    fs_file := {| file_name := name; file_hash := hash; file_size := size;
                  file_mimeType := text_field "mimeType" file |};
    fs_signature := {| si_algorithm := algorithm; si_publicKey := publicKey;
                       si_signature := sigHex; si_signedAt := signedAt |};
    fs_timestamp := {| authority := tsAuthority; token := tsToken;
                       verifiedAt := tsVerifiedAt |};
    fs_metadata :=
      (λ m, {| author := text_field "author" m;
               title := text_field "title" m;
               description := text_field "description" m;
               mimeType := text_field "mimeType" m |}) <$> field "metadata" v
  |}.

(** [JSON.parse(text) as FileSignature]: a [SyntaxError] for text that is
    not JSON. *)
Definition parse_FileSignature (text : string) : outcome FileSignature :=
  match value (S (String.length text)) text with
  | Some (v, rest) =>
      match skip_ws rest with
      | EmptyString =>
          match FileSignature_of_json v with
          | Some sig => Returns sig
          | None => Throws "Cannot read properties of undefined"
          end
      | _ => Throws "Unexpected non-whitespace character after JSON"
      end
  | None => Throws "Unexpected token in JSON"
  end.

(** *** A codec for EXIF blocks

    An image is a flag byte followed by its data: [x00] and the compressed
    stream for an image without metadata; [x01], the length of the EXIF
    block in three bytes, the block and the compressed stream for an image
    with metadata. *)

Definition length3 (n : nat) : list byte :=
  let n := N.of_nat n in [byte_of (n / 65536); byte_of (n / 256); byte_of n].

Definition read3 (bytes : list byte) : option (nat * list byte) :=
  match bytes with
  | a :: b :: c :: rest =>
      Some (N.to_nat ((Byte.to_N a * 256 + Byte.to_N b) * 256 + Byte.to_N c),
            rest)
  | _ => None
  end.

(** The first byte, as a number, and the bytes after it. *)
Definition uncons (bytes : list byte) : option (N * list byte) :=
  match bytes with
  | b :: rest => Some (Byte.to_N b, rest)
  | [] => None
  end.

Definition dump_text (x : option string) : list byte :=
  match x with
  | Some s => x01 :: length3 (String.length s) ++ bytes_of_string s
  | None => [x00]
  end%list.

Definition dump (o : ExifObj unit) : outcome (list byte) :=
  Returns
    (match exif_UserComment o with
     | Some (ExifText s) => dump_text (Some s)
     | Some ExifOther => [x02]
     | None => [x00]
     end
     ++ dump_text (exif_Artist o)
     ++ dump_text (exif_ImageDescription o)
     ++ dump_text (exif_Software o))%list.

Definition load_value (bytes : list byte)
    : option (option exif_value * list byte) :=
  '(flag, rest) ← uncons bytes;
  if (flag =? 0)%N then Some (None, rest)
  else if (flag =? 1)%N then
    '(n, rest) ← read3 rest;
    Some (Some (ExifText (decode (take n rest))), drop n rest)
  else if (flag =? 2)%N then Some (Some ExifOther, rest)
  else None.

Definition text_of (v : option exif_value) : option string :=
  match v with
  | Some (ExifText s) => Some s
  | _ => None
  end.

Definition load_block (block : list byte) : option (ExifObj unit) :=
  '(comment, rest) ← load_value block;
  '(artist, rest) ← load_value rest;
  '(imageDescription, rest) ← load_value rest;
  '(software, rest) ← load_value rest;
  Some {| exif_UserComment := comment; exif_Artist := text_of artist;
          exif_ImageDescription := text_of imageDescription;
          exif_Software := text_of software; exif_rest := () |}.

Definition load (image : list byte) : outcome (ExifObj unit) :=
  match uncons image with
  | Some (flag, rest) =>
      if (flag =? 0)%N then
        Returns {| exif_UserComment := None; exif_Artist := None;
                   exif_ImageDescription := None; exif_Software := None;
                   exif_rest := () |}
      else if (flag =? 1)%N then
        match read3 rest ≫= (λ '(n, rest), load_block (take n rest)) with
        | Some o => Returns o
        | None => Throws "Invalid EXIF data"
        end
      else Throws "Given data is not jpeg"
  | None => Throws "Given data is not jpeg"
  end.

Definition remove (image : list byte) : outcome (list byte) :=
  match uncons image with
  | Some (flag, rest) =>
      if (flag =? 0)%N then Returns (x00 :: rest)
      else if (flag =? 1)%N then
        match read3 rest with
        | Some (n, rest) => Returns (x00 :: drop n rest)
        | None => Throws "Invalid EXIF data"
        end
      else Throws "Given data is not jpeg"
  | None => Throws "Given data is not jpeg"
  end.

Definition insert (block image : list byte) : outcome (list byte) :=
  stream ← remove image;
  Returns (x01 :: length3 (length block) ++ block ++ drop 1 stream)%list.

#[export] Instance node : NodePlatform := {|
  ExifRest := unit;
  exif_no_rest := ();
  exif_load := load;
  exif_remove := remove;
  exif_dump := dump;
  exif_insert := insert;
  JSON_stringify := stringify_FileSignature;
  JSON_parse := parse_FileSignature;
|}.

(** An image without metadata. *)
Definition image : list byte := [x00; xff; xd8; x10; x20; x30; xff; xd9].

Definition seed : list byte := stream 32 42.

Definition keypair : Keypair := {|
  publicKey := public_of_seed seed;
  privateKey := (pkcs8_prefix ++ seed)%list;
|}.

Definition tsaConfig : TSAConfig := {|
  url := "https://tsa.example/tsr";
  hashAlgorithm := None;
  policyOID := None;
|}.

Definition mockTimestamp : Timestamp := {|
  authority := "http://mock-tsa/timestamp";
  token := "AAAAAAAAAAAAAA==";
  verifiedAt := "2024-01-01T12:00:00.000Z";
|}.

Definition no_signature_record : FileSignature :=
  {| fs_version := "";
     fs_file := {| file_name := ""; file_hash := ""; file_size := 0;
                   file_mimeType := None |};
     fs_signature := {| si_algorithm := ""; si_publicKey := "";
                        si_signature := ""; si_signedAt := "" |};
     fs_timestamp := mockTimestamp;
     fs_metadata := None |}.

Definition value_of {A} (r : outcome A * nat) (d : A) : A :=
  match r with
  | (Returns a, _) => a
  | (Throws _, _) => d
  end.

(** The signature that [signJpegWithExif] embeds in [image]. *)
Definition photo_signature : FileSignature :=
  Eval vm_compute in
    value_of (signFile "photo.jpg" image keypair mockTimestamp
                (Some (jpeg_metadata None)) 0%nat)
      no_signature_record.

Definition signed_photo : list byte :=
  Eval vm_compute in
    value_of (signJpegWithExif image "photo.jpg" keypair mockTimestamp None
                0%nat) [].

Definition loaded_photo : ExifObj unit :=
  Eval vm_compute in load_or_empty signed_photo.

(** The same image signed under a file name that carries the legacy mark
    [Signature: ] without a brace after it. *)
Definition labelled_signature : FileSignature :=
  Eval vm_compute in
    value_of (signFile "Signature: x.jpg" image keypair mockTimestamp
                (Some (jpeg_metadata None)) 0%nat)
      no_signature_record.

Definition labelled_photo : list byte :=
  Eval vm_compute in
    value_of (signJpegWithExif image "Signature: x.jpg" keypair mockTimestamp
                None 0%nat) [].

Definition loaded_labelled_photo : ExifObj unit :=
  Eval vm_compute in load_or_empty labelled_photo.

(** The same image signed under a file name in which a brace follows the
    legacy mark. *)
Definition renamed_signature : FileSignature :=
  Eval vm_compute in
    value_of (signFile "Signature: {.jpg" image keypair mockTimestamp
                (Some (jpeg_metadata None)) 0%nat)
      no_signature_record.

Definition renamed_photo : list byte :=
  Eval vm_compute in
    value_of (signJpegWithExif image "Signature: {.jpg" keypair mockTimestamp
                None 0%nat) [].

Definition loaded_renamed_photo : ExifObj unit :=
  Eval vm_compute in load_or_empty renamed_photo.

(** What the pattern of [verifyJpegExif] takes out of the JSON text of
    [renamed_signature]: the text from the brace of the file name on. *)
Definition renamed_group : string :=
  Eval vm_compute in
    default "" (match_Signature (stringify_FileSignature renamed_signature)).

(** A chain of four revisions, made by [createSignedContent] and three
    calls of [addRevision]. *)
Definition empty_chain : SignedContent :=
  {| content := ""; revisions := []; c2paManifest := None |}.

Definition chain0 : SignedContent :=
  Eval vm_compute in
    value_of (createSignedContent "draft" keypair tsaConfig None 0%nat)
      empty_chain.
Definition chain1 : SignedContent :=
  Eval vm_compute in
    value_of (addRevision chain0 "second draft" keypair tsaConfig 3%nat)
      empty_chain.
Definition chain2 : SignedContent :=
  Eval vm_compute in
    value_of (addRevision chain1 "third draft" keypair tsaConfig 6%nat)
      empty_chain.
Definition chain3 : SignedContent :=
  Eval vm_compute in
    value_of (addRevision chain2 "final" keypair tsaConfig 9%nat) empty_chain.

Definition revision0 : ContentRevision :=
  Eval vm_compute in
    default {| rev_content := "";
               rev_signature :=
                 {| contentHash := ""; signature := ""; sig_publicKey := "";
                    timestamp := ""; tsaToken := "";
                    verifiedTimestamp := "" |};
               previousHash := None |}
      (head (revisions chain0)).

(** A heap that holds [chain0], its [content] field edited since. *)
Definition edited_chain0 : SignedContent :=
  {| content := "edited out of band";
     revisions := revisions chain0;
     c2paManifest := c2paManifest chain0 |}.

Definition heap0 : heap :=
  <[3%positive := OSignedContent (content edited_chain0) 2%positive
                    (c2paManifest edited_chain0)]>
    (<[2%positive := OArray [1%positive]]>
       {[1%positive := ORevision revision0]}).

(** [signed_photo] with another [Artist] written into its metadata. *)
Definition retagged_photo : list byte :=
  Eval vm_compute in
    match
      (block ← dump {| exif_UserComment := exif_UserComment loaded_photo;
                       exif_Artist := Some "somebody else";
                       exif_ImageDescription :=
                         exif_ImageDescription loaded_photo;
                       exif_Software := exif_Software loaded_photo;
                       exif_rest := () |};
       insert block image)
    with
    | Returns out => out
    | Throws _ => []
    end.

Definition loaded_retagged_photo : ExifObj unit :=
  Eval vm_compute in load_or_empty retagged_photo.

(** *** Files

    A file system is a map from paths to bytes; text is stored in UTF-8. *)

(** [new TextDecoder().decode] on the encodings of the code units 0..255;
    a byte that starts no such encoding reads as a question mark. *)
Fixpoint utf8_decode (bytes : list byte) : string :=
  match bytes with
  | [] => ""
  | b :: rest =>
      let n := Byte.to_N b in
      if (n <? 128)%N then String (ascii_of_byte b) (utf8_decode rest)
      else
        match rest with
        | b2 :: rest' =>
            let n2 := Byte.to_N b2 in
            if ((194 <=? n) && (n <=? 195) && (128 <=? n2) && (n2 <? 192))%N
            then String (ascii_of_N ((n - 192) * 64 + (n2 - 128)))
                   (utf8_decode rest')
            else String "?" (utf8_decode rest)
        | [] => "?"
        end
  end.

Definition file_system : Type := gmap string (list byte).

Definition missing (path : string) : string :=
  "ENOENT: no such file or directory, open '" +:+ path +:+ "'".

Definition read (path : string) (fsys : file_system)
    : outcome (list byte) * file_system :=
  (require (fsys !! path) (missing path), fsys).

Definition read_text (path : string) (fsys : file_system)
    : outcome string * file_system :=
  (match fsys !! path with
   | Some bytes => Returns (utf8_decode bytes)
   | None => Throws (missing path)
   end, fsys).

Definition write (path : string) (data : list byte) (fsys : file_system)
    : outcome unit * file_system :=
  (Returns (), <[path := data]> fsys).

Definition write_text (path text : string) (fsys : file_system)
    : outcome unit * file_system :=
  write path (TextEncoder_encode text) fsys.

Definition newline : string := String "010" "".

Fixpoint join_with (sep : string) (parts : list string) : string :=
  match parts with
  | [] => ""
  | [x] => x
  | x :: rest => x +:+ sep +:+ join_with sep rest
  end.

(** [JSON.stringify(v, null, 2)] at the indentation [indent]. *)
Fixpoint stringify_indent (indent : string) (v : json) {struct v}
    : option string :=
  let inner := indent +:+ "  " in
  let fix members (fields : list (string * json)) : list string :=
    match fields with
    | [] => []
    | (k, x) :: rest =>
        match stringify_indent inner x with
        | Some t => (inner +:+ quote k +:+ ": " +:+ t) :: members rest
        | None => members rest
        end
    end in
  let fix elements (items : list json) : list string :=
    match items with
    | [] => []
    | x :: rest =>
        (inner +:+ default "null" (stringify_indent inner x)) :: elements rest
    end in
  let block (opening closing : string) (lines : list string) : string :=
    match lines with
    | [] => opening +:+ closing
    | _ => opening +:+ newline +:+ join_with ("," +:+ newline) lines
           +:+ newline +:+ indent +:+ closing
    end in
  match v with
  | JsonUndefined => None
  | JsonNull => Some "null"
  | JsonBool b => Some (if b then "true" else "false")
  | JsonNumber z => Some (number_text z)
  | JsonString s => Some (quote s)
  | JsonObject fields => Some (block "{" "}" (members fields))
  | JsonArray items => Some (block "[" "]" (elements items))
  end.

#[export] Instance file_platform : FilePlatform := {|
  files := file_system;
  readFile := read;
  readFile_utf8 := read_text;
  writeFile := write;
  writeFile_text := write_text;
  JSON_stringify_indent := λ sig,
    default "" (stringify_indent "" (json_of_FileSignature sig));
|}.

(** A disk that holds [image]. *)
Definition disk : file_system := {[ "photos/photo.jpg" := image ]}.

(** The signature [signFileFromPath] makes of the file on [disk], and the
    disk with its sidecar. *)
Definition sidecar_signature : FileSignature :=
  Eval vm_compute in
    value_of (signFile "photo.jpg" image keypair mockTimestamp None 0%nat)
      no_signature_record.

Definition sidecar_text : string :=
  Eval vm_compute in JSON_stringify_indent sidecar_signature.

Definition disk_with_sidecar : file_system :=
  <["photos/photo.jpg.sig" := TextEncoder_encode sidecar_text]> disk.

Definition disk_with_signed_photo : file_system :=
  <["photos/signed.jpg" := signed_photo]> disk.

(** *** [atob]

    The forgiving-base64 decoding of the HTML standard: white space is
    dropped; one or two closing [=] are dropped when the length is a
    multiple of four; a length of 1 modulo 4 and a character outside the
    alphabet are errors; left-over bits are discarded. *)

Definition base64_value (c : ascii) : option N :=
  let n := N_of_ascii c in
  if (65 <=? n)%N && (n <=? 90)%N then Some (n - 65)%N
  else if (97 <=? n)%N && (n <=? 122)%N then Some (n - 71)%N
  else if (48 <=? n)%N && (n <=? 57)%N then Some (n + 4)%N
  else if (n =? 43)%N then Some 62%N
  else if (n =? 47)%N then Some 63%N
  else None.

(** ASCII white space: TAB, LF, FF, CR, SP. *)
Definition is_ascii_whitespace (c : ascii) : bool :=
  match N_of_ascii c with
  | 9 | 10 | 12 | 13 | 32 => true
  | _ => false
  end%N.

Definition is_padding (c : ascii) : bool := Ascii.eqb c "=".

Definition strip_padding (s : list ascii) : list ascii :=
  if (length s mod 4 =? 0)%nat then
    match reverse s with
    | c1 :: r1 =>
        if is_padding c1 then
          match r1 with
          | c2 :: r2 => if is_padding c2 then reverse r2 else reverse r1
          | [] => reverse r1
          end
        else s
    | [] => s
    end
  else s.

Fixpoint bytes_of_sextets (v : list N) : list N :=
  match v with
  | a :: b :: c :: d :: rest =>
      (a * 4 + b / 16) :: (b mod 16 * 16 + c / 4) :: (c mod 4 * 64 + d)
      :: bytes_of_sextets rest
  | [a; b; c] => [a * 4 + b / 16; b mod 16 * 16 + c / 4]
  | [a; b] => [a * 4 + b / 16]
  | _ => []
  end%N.

Definition atob (data : string) : outcome string :=
  let s :=
    filter (λ c, is_ascii_whitespace c = false) (list_ascii_of_string data) in
  let s := strip_padding s in
  if (length s mod 4 =? 1)%nat then
    Throws "InvalidCharacterError: The string to be decoded is not correctly encoded."
  else
    match mapM base64_value s with
    | Some v =>
        Returns (string_of_list_ascii (map ascii_of_N (bytes_of_sextets v)))
    | None =>
        Throws "InvalidCharacterError: The string to be decoded is not correctly encoded."
    end.

(** What [base64] writes: the 6-bit groups of the bytes, then the
    padding. *)
Fixpoint sextets (s : list N) : list N :=
  match s with
  | a :: b :: c :: rest =>
      a / 4 :: (a mod 4 * 16 + b / 16) :: (b mod 16 * 4 + c / 64) :: c mod 64
      :: sextets rest
  | [a; b] => [a / 4; a mod 4 * 16 + b / 16; b mod 16 * 4]
  | [a] => [a / 4; a mod 4 * 16]
  | [] => []
  end%N.

Fixpoint padding (s : list N) : list ascii :=
  match s with
  | _ :: _ :: _ :: rest => padding rest
  | [_; _] => ["="%char]
  | [_] => ["="%char; "="%char]
  | [] => []
  end.

(** A 6-bit group is written as a character of the alphabet, which is
    neither white space nor padding and reads back as the group. *)
Definition sextet_ok (v : N) : bool :=
  negb (is_ascii_whitespace (base64_char v))
  && negb (is_padding (base64_char v))
  && bool_decide (base64_value (base64_char v) = Some v).

(** [image] with a comment in the legacy form: the text [Signature: ]
    followed by the JSON text of [photo_signature]. *)
Definition legacy_comment : string :=
  Eval vm_compute in "Signature: " +:+ stringify_FileSignature photo_signature.

Definition legacy_photo : list byte :=
  Eval vm_compute in
    match
      (block ← dump {| exif_UserComment := Some (ExifText legacy_comment);
                       exif_Artist := None;
                       exif_ImageDescription := None;
                       exif_Software := None;
                       exif_rest := () |};
       insert block image)
    with
    | Returns out => out
    | Throws _ => []
    end.

Definition loaded_legacy_photo : ExifObj unit :=
  Eval vm_compute in load_or_empty legacy_photo.

End Mock.

Definition tampered_signature : FileSignature := {|
  fs_version := "1.0";
  fs_file := {| file_name := "photo.jpg";
                file_hash := bufferToHex (Mock.digest [x01; x02; x03]);
                file_size := 4;
                file_mimeType := None |};
  fs_signature := {| si_algorithm := "Ed25519";
                     si_publicKey := bufferToHex (publicKey Mock.keypair);
                     si_signature := "zz";
                     si_signedAt := "2024-01-01T12:00:00.000Z" |};
  fs_timestamp := Mock.mockTimestamp;
  fs_metadata := None;
|}.

(* ===================================================================== *)
(** ** Tactics *)
(* ===================================================================== *)

(** Case analysis on membership in the three checks of a revision. *)
Ltac in_checks_of H :=
  unfold checks_of in H; rewrite !elem_of_cons, elem_of_nil in H;
  destruct H as [->|[->|[->|[]]]].

(** Linear arithmetic with division and remainder by constants. *)
Ltac divlia := zify; Z.to_euclidean_division_equations; lia.

(** Move [String] constructors out of the left operand of an append. *)
Ltac push_append :=
  repeat first
    [ progress change (String ?c ?a +:+ ?b) with (String c (a +:+ b))
    | progress change ("" +:+ ?b) with b ].

(* ===================================================================== *)
(** ** The definitions on small inputs *)
(* ===================================================================== *)

Example bufferToHex_three_bytes : bufferToHex [x00; x0f; xff] = "000fff".
Proof. reflexivity. Qed.

(** An odd number of characters: the last one is dropped. *)
Example hexToBuffer_odd_length : hexToBuffer "0fa" = [x0f].
Proof. reflexivity. Qed.

(** A pair that [parseInt] cannot read gives 0; a pair it can read in part
    gives that part. *)
Example hexToBuffer_not_hex : hexToBuffer "zz1g-1" = [x00; x01; xff].
Proof. reflexivity. Qed.

Example Date_parse_examples :
  JsDate.Date_parse "1970-01-01T00:00:00Z" = Some 0%Z
  ∧ JsDate.Date_parse "2024-02-29T23:59:59.999Z" = Some 1709251199999%Z
  ∧ JsDate.Date_parse "2023-02-29T00:00:00Z"
    = JsDate.Date_parse "2023-03-01T00:00:00Z"
  ∧ JsDate.Date_parse "2023-03-01T00:00:00Z" = Some 1677628800000%Z
  ∧ JsDate.Date_parse "2024-04-31T00:00:00Z"
    = JsDate.Date_parse "2024-05-01T00:00:00Z"
  ∧ JsDate.Date_parse "2024-01-01T24:00:00.000Z"
    = JsDate.Date_parse "2024-01-02T00:00:00Z"
  ∧ JsDate.Date_parse "2024-01-01T24:00:00.000123Z" = None
  ∧ JsDate.Date_parse "2024-01-01T23:59:59.000123Z" = Some 1704153599000%Z
  ∧ JsDate.Date_parse "2024-13-01T00:00:00Z" = None
  ∧ JsDate.Date_parse "2024-01-32T00:00:00Z" = None
  ∧ JsDate.Date_parse "2024-01-01T12:60:00Z" = None.
Proof. by vm_compute. Qed.

Example Date_toISOString_examples :
  JsDate.Date_toISOString (Some 0%Z) = Returns "1970-01-01T00:00:00.000Z"
  ∧ JsDate.Date_toISOString (Some (-1)%Z) = Returns "1969-12-31T23:59:59.999Z"
  ∧ JsDate.Date_toISOString None = Throws "RangeError: Invalid time value".
Proof. by vm_compute. Qed.

(** Fields out of range pass the regular expression and give the Invalid
    Date; an offset in place of Z does not pass. *)
Example parseGenTime_month_13 : parseGenTime "20241301000000Z" = Returns None.
Proof. by vm_compute. Qed.

Example parseGenTime_offset :
  parseGenTime "20240101120000+0100"
  = Throws "Invalid GeneralizedTime format: 20240101120000+0100".
Proof. by vm_compute. Qed.

(** The capture group runs to the last brace of the line. *)
Example match_Signature_greedy :
  match_Signature "x Signature: {a}b}c" = Some "{a}b}"
  ∧ match_Signature "Signature: {}" = None
  ∧ match_Signature "Signature: " = None.
Proof. by vm_compute. Qed.

Example oid_of_examples :
  oid_of {| url := ""; hashAlgorithm := None; policyOID := None |}
  = JString "608648016503040201"
  ∧ oid_of {| url := ""; hashAlgorithm := Some "sha512"; policyOID := None |}
    = JString "608648016503040203"
  ∧ oid_of {| url := ""; hashAlgorithm := Some "md5"; policyOID := None |}
    = JString "608648016503040201".
Proof. by vm_compute. Qed.

(* ===================================================================== *)
(** ** Properties of the codec *)
(* ===================================================================== *)

Lemma byte_hex_facts (b : byte) :
  String.length (byte_hex b) = 2%nat
  ∧ forallb is_lower_hex (list_ascii_of_string (byte_hex b)) = true
  ∧ Js.ToUint8 (Js.parseInt16 (byte_hex b)) = b.
Proof. destruct b; vm_compute; auto. Qed.

Lemma byte_hex_two (b : byte) :
  ∃ c1 c2, byte_hex b = String c1 (String c2 "")
           ∧ is_lower_hex c1 = true ∧ is_lower_hex c2 = true
           ∧ Js.ToUint8 (Js.parseInt16 (String c1 (String c2 ""))) = b.
Proof.
  destruct (byte_hex_facts b) as (Hlen & Hlow & Hback).
  destruct (byte_hex b) as [|c1 [|c2 [|c3 s]]]; try discriminate Hlen.
  exists c1, c2. cbn in Hlow.
  apply andb_true_iff in Hlow as [H1 Hlow].
  apply andb_true_iff in Hlow as [H2 _]. auto.
Qed.

Lemma bufferToHex_cons b bs :
  bufferToHex (b :: bs) = byte_hex b +:+ bufferToHex bs.
Proof. reflexivity. Qed.

Lemma bufferToHex_length (bs : list byte) :
  String.length (bufferToHex bs) = (2 * length bs)%nat.
Proof.
  induction bs as [|b bs IH]; [done|].
  rewrite bufferToHex_cons.
  destruct (byte_hex_two b) as (c1 & c2 & -> & _).
  change (String.length (String c1 (String c2 "") +:+ bufferToHex bs))
    with (S (S (String.length (bufferToHex bs)))).
  rewrite IH. cbn [length]. lia.
Qed.

Lemma bufferToHex_lower (bs : list byte) :
  Forall (λ c, is_lower_hex c = true)
    (list_ascii_of_string (bufferToHex bs)).
Proof.
  induction bs as [|b bs IH]; [constructor|].
  rewrite bufferToHex_cons.
  destruct (byte_hex_two b) as (c1 & c2 & -> & H1 & H2 & _).
  change (String c1 (String c2 "") +:+ bufferToHex bs)
    with (String c1 (String c2 (bufferToHex bs))).
  cbn [list_ascii_of_string]. by repeat constructor.
Qed.

(** The pair of characters at offset [2k] encodes the [k]-th byte. *)
Lemma bufferToHex_substring (bs : list byte) (k : nat) (b : byte) :
  bs !! k = Some b →
  substring (2 * k) 2 (bufferToHex bs) = byte_hex b.
Proof.
  revert k. induction bs as [|b0 bs IH]; intros k Hk; [done|].
  rewrite bufferToHex_cons.
  destruct (byte_hex_two b0) as (c1 & c2 & E0 & _).
  destruct k as [|k].
  - injection Hk as ->. rewrite E0.
    change (String c1 (String c2 "") +:+ bufferToHex bs)
      with (String c1 (String c2 (bufferToHex bs))).
    cbn [Nat.mul substring]. destruct (bufferToHex bs); reflexivity.
  - cbn in Hk. rewrite E0.
    replace (2 * S k)%nat with (S (S (2 * k))) by lia.
    change (String c1 (String c2 "") +:+ bufferToHex bs)
      with (String c1 (String c2 (bufferToHex bs))).
    cbn [substring]. by apply IH.
Qed.

Lemma hexToBuffer_loop_spec (bs : list byte) (fuel k : nat) :
  (length bs - k ≤ fuel)%nat → (k ≤ length bs)%nat →
  hexToBuffer_loop fuel (bufferToHex bs) (2 * k)
    (take k bs ++ replicate (length bs - k) x00)%list = bs.
Proof.
  revert k. induction fuel as [|fuel IH]; intros k Hf Hk.
  - cbn. replace (length bs - k)%nat with 0%nat by lia.
    rewrite take_ge; [|lia]. by rewrite app_nil_r.
  - cbn [hexToBuffer_loop]. rewrite bufferToHex_length.
    destruct (Nat.ltb_spec (2 * k) (2 * length bs)) as [Hlt|Hge].
    + assert (Hk' : (k < length bs)%nat) by lia.
      destruct (lookup_lt_is_Some_2 bs k Hk') as [b Hb].
      rewrite (bufferToHex_substring bs k b Hb).
      destruct (byte_hex_two b) as (c1 & c2 & -> & _ & _ & ->).
      replace (2 * k / 2)%nat with k
        by (symmetry; rewrite Nat.mul_comm; apply Nat.div_mul; lia).
      replace (2 * k + 2)%nat with (2 * S k)%nat by lia.
      replace (<[k:=b]> (take k bs ++ replicate (length bs - k) x00)%list)
        with (take (S k) bs ++ replicate (length bs - S k) x00)%list.
      { apply IH; lia. }
      rewrite insert_app_r_alt; rewrite length_take; [|lia].
      replace (k - k `min` length bs)%nat with 0%nat by lia.
      replace (length bs - k)%nat with (S (length bs - S k)) by lia.
      cbn. rewrite (take_S_r bs k b Hb). by rewrite <- app_assoc.
    + replace (length bs - k)%nat with 0%nat by lia.
      rewrite take_ge; [|lia]. by rewrite app_nil_r.
Qed.


Lemma hexToBuffer_bufferToHex_id (bs : list byte) :
  hexToBuffer (bufferToHex bs) = bs.
Proof.
  unfold hexToBuffer. rewrite bufferToHex_length.
  replace (2 * length bs / 2)%nat with (length bs)
    by (symmetry; rewrite Nat.mul_comm; apply Nat.div_mul; lia).
  pose proof (hexToBuffer_loop_spec bs (2 * length bs) 0) as Hloop.
  cbn [take app Nat.mul] in Hloop. rewrite Nat.sub_0_r in Hloop.
  apply Hloop; lia.
Qed.

(** C10: for every byte array [b], [bufferToHex b] has exactly two
    characters per byte (hence an even length), all of them lowercase
    hexadecimal digits, and [hexToBuffer] maps it back to [b]. *)
Theorem hexToBuffer_bufferToHex (b : list byte) :
  hexToBuffer (bufferToHex b) = b
  ∧ String.length (bufferToHex b) = (2 * length b)%nat
  ∧ Forall (λ c, is_lower_hex c = true) (list_ascii_of_string (bufferToHex b)).
Proof.
  split; [|split].
  - apply hexToBuffer_bufferToHex_id.
  - apply bufferToHex_length.
  - apply bufferToHex_lower.
Qed.

(* ===================================================================== *)
(** ** Signature verification *)
(* ===================================================================== *)

Section CryptoFacts.
Context {Pf : Platform}.

Lemma verifySignature_imported (hash signature : string)
    (publicKey : list byte) (key : CryptoKey) :
  subtle_importKey_raw publicKey = Returns key →
  verifySignature hash signature publicKey
  = Returns (subtle_verify key (hexToBuffer signature) (hexToBuffer hash)).
Proof. intros Hkey. unfold verifySignature. by rewrite Hkey. Qed.

Lemma verifySignature_rejected (hash signature : string)
    (publicKey : list byte) (msg : string) :
  subtle_importKey_raw publicKey = Throws msg →
  verifySignature hash signature publicKey = Throws msg.
Proof. intros Hkey. unfold verifySignature. by rewrite Hkey. Qed.

Lemma signHash_matching (kp : Keypair) (sk pk : CryptoKey) (m : list byte) :
  subtle_importKey_pkcs8 (privateKey kp) = Returns sk →
  (∀ m, ∃ s, subtle_sign sk m = Returns s ∧ subtle_verify pk s m = true) →
  ∃ s, signHash m (inl (privateKey kp)) = Returns (bufferToHex s)
       ∧ subtle_verify pk s m = true.
Proof.
  intros Hsk Hsign. destruct (Hsign m) as (s & Hs & Hv).
  exists s. split; [|done]. unfold signHash. rewrite Hsk. cbn. by rewrite Hs.
Qed.

(** What a signature made with a matching keypair verifies to. *)
Lemma verifySignature_signHash (kp : Keypair) (m : list byte) :
  matching_keypair kp →
  ∃ sigHex, signHash m (inl (privateKey kp)) = Returns sigHex
            ∧ verifySignature (bufferToHex m) sigHex (publicKey kp)
              = Returns true.
Proof.
  intros (sk & pk & Hsk & Hpk & Hsign).
  destruct (signHash_matching kp sk pk m Hsk Hsign) as (s & Hs & Hv).
  exists (bufferToHex s). split; [done|].
  rewrite (verifySignature_imported _ _ _ pk Hpk).
  by rewrite !hexToBuffer_bufferToHex_id, Hv.
Qed.

Lemma push_if_nil (failed : bool) (msg : string) :
  push_if failed msg [] = if failed then [msg] else [].
Proof. by destruct failed. Qed.

End CryptoFacts.

Lemma Mock_keypair_matching : matching_keypair (Pf:=Mock.platform) Mock.keypair.
Proof.
  exists {| Mock.key_private := true;
            Mock.key_material := Mock.public_of_seed Mock.seed |},
         {| Mock.key_private := false;
            Mock.key_material := Mock.public_of_seed Mock.seed |}.
  split; [by vm_compute|]. split; [by vm_compute|].
  intros m. exists (Mock.tag (Mock.public_of_seed Mock.seed) m).
  split; [reflexivity|].
  exact (bool_decide_eq_true_2 _ eq_refl).
Qed.

Lemma hexToBuffer_loop_length (fuel : nat) (hex : string) (i : nat)
    (bytes : list byte) :
  length (hexToBuffer_loop fuel hex i bytes) = length bytes.
Proof.
  revert i bytes. induction fuel as [|fuel IH]; intros i bytes; [done|].
  cbn [hexToBuffer_loop]. destruct (i <? String.length hex)%nat; [|done].
  by rewrite IH, length_insert.
Qed.

(** A hex string decodes to half as many bytes as it has characters. *)
Lemma hexToBuffer_length (hex : string) :
  length (hexToBuffer hex) = (String.length hex / 2)%nat.
Proof.
  unfold hexToBuffer. by rewrite hexToBuffer_loop_length, length_replicate.
Qed.

Lemma Mock_stream_length (n : nat) (state : N) :
  length (Mock.stream n state) = n.
Proof.
  revert state. induction n as [|n IH]; intros state; [done|].
  cbn [Mock.stream length]. by rewrite IH.
Qed.

Lemma Mock_rejects_malformed_length :
  rejects_malformed_length (Pf:=Mock.platform).
Proof.
  intros key signature data Hlen. cbn. unfold Mock.verify.
  apply bool_decide_eq_false_2. intros ->. apply Hlen.
  unfold Mock.tag, Mock.digest. by rewrite length_app, !Mock_stream_length.
Qed.

(** C6 (as amended): when the platform imports the public key,
    [verifySignature] does not throw, for any hash string and any
    signature string: it decodes both with [hexToBuffer] and returns the
    boolean the platform's Ed25519 check gives on the decoded bytes.  The
    signature decodes to half as many bytes as the string has characters,
    so on a platform whose check answers [false] for a signature that is
    not 64 bytes long, every signature string of a length other than 128
    or 129 characters gets [false].  When the platform does not import the
    public key (a raw Ed25519 key of the wrong length, say),
    [verifySignature] throws what the import threw and returns nothing. *)
Theorem verifySignature_returns_verdict {Pf : Platform}
    (hash signature : string) (publicKey : list byte) :
  (∀ key, subtle_importKey_raw publicKey = Returns key →
     verifySignature hash signature publicKey
     = Returns (subtle_verify key (hexToBuffer signature) (hexToBuffer hash))
     ∧ length (hexToBuffer signature) = (String.length signature / 2)%nat
     ∧ (rejects_malformed_length →
        String.length signature ≠ 128%nat →
        String.length signature ≠ 129%nat →
        verifySignature hash signature publicKey = Returns false))
  ∧ (∀ msg, subtle_importKey_raw publicKey = Throws msg →
        verifySignature hash signature publicKey = Throws msg).
Proof.
  split.
  - intros key Hkey. rewrite (verifySignature_imported _ _ _ key Hkey).
    split; [done|]. split; [apply hexToBuffer_length|].
    intros Hverify H128 H129. f_equal. apply Hverify.
    rewrite hexToBuffer_length. intros Hlen.
    pose proof (Nat.div_mod_eq (String.length signature) 2) as Hdiv.
    pose proof (Nat.mod_upper_bound (String.length signature) 2) as Hmod.
    lia.
  - intros msg Hkey. by apply verifySignature_rejected.
Qed.

(** Under a well-formed key a signature of three hex characters gets
    [false], not an exception. *)
Lemma verifySignature_returns_verdict_witness :
  subtle_importKey_raw (Platform:=Mock.platform) (publicKey Mock.keypair)
  = Returns {| Mock.key_private := false;
               Mock.key_material := publicKey Mock.keypair |}
  ∧ rejects_malformed_length (Pf:=Mock.platform)
  ∧ String.length "abc" ≠ 128%nat
  ∧ String.length "abc" ≠ 129%nat
  ∧ verifySignature (Pf:=Mock.platform) "00ff" "abc" (publicKey Mock.keypair)
    = Returns false.
Proof.
  split; [by vm_compute|]. split; [exact Mock_rejects_malformed_length|].
  split; [by vm_compute|]. split; [by vm_compute|].
  apply (proj1 (verifySignature_returns_verdict (Pf:=Mock.platform) "00ff"
                  "abc" (publicKey Mock.keypair))
           {| Mock.key_private := false;
              Mock.key_material := publicKey Mock.keypair |});
    [by vm_compute|exact Mock_rejects_malformed_length
    |by vm_compute|by vm_compute].
Defined.

(** C6 fails as stated: with a public key the platform cannot import (here
    the empty byte array) [verifySignature] throws. *)
Lemma verifySignature_throws_on_bad_key :
  verifySignature (Pf:=Mock.platform) "00ff" "abcd" [] = Throws "Invalid keyData".
Proof. by vm_compute. Qed.

(* ===================================================================== *)
(** ** File signatures *)
(* ===================================================================== *)

Section FileFacts.
Context {Pf : Platform}.

Lemma verifyFileSignature_imported (sig : FileSignature)
    (fileBuffer : list byte) (key : CryptoKey) :
  subtle_importKey_raw (hexToBuffer (si_publicKey (fs_signature sig)))
  = Returns key →
  verifyFileSignature sig fileBuffer
  = Returns {|
      valid := hash_check sig fileBuffer && size_check sig fileBuffer
               && signature_check sig key;
      errors :=
        ((if hash_check sig fileBuffer then []
          else ["File hash mismatch - file has been modified"])
         ++ (if size_check sig fileBuffer then [] else ["File size mismatch"])
         ++ (if signature_check sig key then [] else ["Invalid signature"]))%list
    |}.
Proof.
  intros Hkey. unfold verifyFileSignature.
  rewrite (verifySignature_imported _ _ _ key Hkey).
  fold (hash_check sig fileBuffer) (size_check sig fileBuffer)
       (signature_check sig key).
  by destruct (hash_check sig fileBuffer), (size_check sig fileBuffer),
       (signature_check sig key).
Qed.

Lemma signFile_returns (filename : string) (fileBuffer : list byte)
    (kp : Keypair) (ts : Timestamp) (metadata : option Metadata)
    (sigHex : string) (w : world) :
  signHash (subtle_digest_SHA256 fileBuffer) (inl (privateKey kp))
  = Returns sigHex →
  signFile filename fileBuffer kp ts metadata w
  = (Returns {|
       fs_version := "1.0";
       fs_file := {|
         file_name := filename;
         file_hash := bufferToHex (subtle_digest_SHA256 fileBuffer);
         file_size := Z.of_nat (length fileBuffer);
         file_mimeType := metadata ≫= mimeType |};
       fs_signature := {|
         si_algorithm := "Ed25519";
         si_publicKey := bufferToHex (publicKey kp);
         si_signature := sigHex;
         si_signedAt := fst (Date_now_toISOString w) |};
       fs_timestamp := ts;
       fs_metadata := metadata |},
     snd (Date_now_toISOString w)).
Proof.
  intros Hsig. unfold signFile, M_bind, lift, effect, M_ret. rewrite Hsig.
  by destruct (Date_now_toISOString w).
Qed.

(** A file signed with a matching keypair verifies against its bytes. *)
Lemma verifyFileSignature_signFile (filename : string)
    (fileBuffer : list byte) (kp : Keypair) (ts : Timestamp)
    (metadata : option Metadata) (w : world) :
  matching_keypair kp →
  ∃ sig w',
    signFile filename fileBuffer kp ts metadata w = (Returns sig, w')
    ∧ file_hash (fs_file sig) = bufferToHex (subtle_digest_SHA256 fileBuffer)
    ∧ fs_metadata sig = metadata
    ∧ verifyFileSignature sig fileBuffer
      = Returns {| valid := true; errors := [] |}.
Proof.
  intros Hkp.
  destruct (verifySignature_signHash kp (subtle_digest_SHA256 fileBuffer) Hkp)
    as (sigHex & Hsign & Hverify).
  eexists _, _. split; [by apply signFile_returns|].
  split; [done|]. split; [done|].
  unfold verifyFileSignature. cbn.
  rewrite hexToBuffer_bufferToHex_id, Hverify, String.eqb_refl, Z.eqb_refl.
  done.
Qed.

End FileFacts.

(** C1: for every file name, byte string, TSA timestamp record and optional
    metadata, and every keypair whose halves match, [signFile] returns a
    signature, and [verifyFileSignature] on that signature and the same
    bytes returns [valid = true] with an empty list of errors. *)
Theorem verifyFileSignature_signFile_valid {Pf : Platform}
    (filename : string) (b : list byte) (kp : Keypair) (ts : Timestamp)
    (metadata : option Metadata) (w : world) :
  matching_keypair kp →
  ∃ sig w',
    signFile filename b kp ts metadata w = (Returns sig, w')
    ∧ verifyFileSignature sig b = Returns {| valid := true; errors := [] |}.
Proof.
  intros Hkp.
  destruct (verifyFileSignature_signFile filename b kp ts metadata w Hkp)
    as (sig & w' & Hsign & _ & _ & Hverify).
  by exists sig, w'.
Qed.

Lemma verifyFileSignature_signFile_valid_witness :
  matching_keypair (Pf:=Mock.platform) Mock.keypair
  ∧ ∃ sig (w' : nat),
      signFile (Pf:=Mock.platform) "photo.jpg" [x01; x02; x03] Mock.keypair
        Mock.mockTimestamp None 0%nat = (Returns sig, w')
      ∧ verifyFileSignature (Pf:=Mock.platform) sig [x01; x02; x03]
        = Returns {| valid := true; errors := [] |}.
Proof.
  split; [exact Mock_keypair_matching|].
  exact (verifyFileSignature_signFile_valid (Pf:=Mock.platform) "photo.jpg"
           [x01; x02; x03] Mock.keypair Mock.mockTimestamp None 0%nat
           Mock_keypair_matching).
Defined.

(** C5 (as amended): for every file signature and every byte string, when
    the platform imports the public key of the signature,
    [verifyFileSignature] returns a result in which [valid] is the
    conjunction of the hash check, the size check and the Ed25519 check, and
    [errors] is non-empty exactly when [valid] is false.  When the platform
    refuses the public key, [verifyFileSignature] throws what the import
    threw. *)
Theorem verifyFileSignature_verdict {Pf : Platform} (sig : FileSignature)
    (b : list byte) :
  (∀ key,
     subtle_importKey_raw (hexToBuffer (si_publicKey (fs_signature sig)))
     = Returns key →
     ∃ v, verifyFileSignature sig b = Returns v
          ∧ valid v = hash_check sig b && size_check sig b
                      && signature_check sig key
          ∧ (errors v ≠ [] ↔ valid v = false))
  ∧ (∀ msg,
       subtle_importKey_raw (hexToBuffer (si_publicKey (fs_signature sig)))
       = Throws msg →
       verifyFileSignature sig b = Throws msg).
Proof.
  split.
  - intros key Hkey. eexists. split; [by apply verifyFileSignature_imported|].
    split; [done|]. cbn.
    by destruct (hash_check sig b), (size_check sig b),
         (signature_check sig key).
  - intros msg Hkey. unfold verifyFileSignature.
    by rewrite (verifySignature_rejected _ _ _ msg Hkey).
Qed.

Lemma verifyFileSignature_verdict_witness :
  ∃ v, verifyFileSignature (Pf:=Mock.platform) tampered_signature
         [x01; x02; x03] = Returns v
       ∧ valid v = false
       ∧ errors v = ["File size mismatch"; "Invalid signature"].
Proof.
  destruct (proj1 (verifyFileSignature_verdict (Pf:=Mock.platform)
                     tampered_signature [x01; x02; x03])
              {| Mock.key_private := false;
                 Mock.key_material := publicKey Mock.keypair |})
    as (v & Hv & _); [by vm_compute|].
  exists v. split; [exact Hv|].
  vm_compute in Hv. injection Hv as <-. by vm_compute.
Defined.

(** C5 fails as stated: a file signature whose [publicKey] field does not
    decode to an importable key makes [verifyFileSignature] throw. *)
Lemma verifyFileSignature_throws_on_bad_key :
  verifyFileSignature (Pf:=Mock.platform)
    {| fs_version := "1.0";
       fs_file := {| file_name := "photo.jpg"; file_hash := "00";
                     file_size := 3; file_mimeType := None |};
       fs_signature := {| si_algorithm := "Ed25519"; si_publicKey := "";
                          si_signature := "00";
                          si_signedAt := "2024-01-01T12:00:00.000Z" |};
       fs_timestamp := Mock.mockTimestamp;
       fs_metadata := None |}
    [x01; x02; x03]
  = Throws "Invalid keyData".
Proof. by vm_compute. Qed.

(* ===================================================================== *)
(** ** The revision chain: what [verifyChain] computes *)
(* ===================================================================== *)

Section ChainFacts.
Context {Pf : Platform}.

Lemma differs_decide (a : option string) (b : string) :
  differs a b = negb (bool_decide (a = Some b)).
Proof.
  destruct a as [s|]; cbn; [|done].
  destruct (String.eqb_spec s b) as [->|Hne].
  - by rewrite bool_decide_eq_true_2.
  - rewrite bool_decide_eq_false_2; [done|congruence].
Qed.

Lemma not_None_decide (a : option string) :
  bool_decide (a ≠ None) = negb (bool_decide (a = None)).
Proof. by destruct a. Qed.

Lemma filter_checks_of (sc : SignedContent) (key : CryptoKey) (i : nat) :
  filter (fails sc key) (checks_of i)
  = ((if check_passes sc key i HashCheck then [] else [(i, HashCheck)])
     ++ (if check_passes sc key i SignatureCheck then []
         else [(i, SignatureCheck)])
     ++ (if check_passes sc key i LinkageCheck then []
         else [(i, LinkageCheck)]))%list.
Proof.
  unfold checks_of. rewrite !filter_cons, filter_nil.
  repeat case_decide; unfold fails in *; cbn in *;
    repeat match goal with
      | Hf : check_passes _ _ _ _ = false |- _ => rewrite Hf; clear Hf
      | Hp : ¬ (check_passes _ _ _ _ = false) |- _ =>
          apply not_false_is_true in Hp; rewrite Hp; clear Hp
      end; done.
Qed.

(** One turn of the loop appends the messages of the failed checks of
    revision [i]. *)
Lemma verifyChain_step_spec (sc : SignedContent) (publicKey : list byte)
    (key : CryptoKey) (i : nat) (r : ContentRevision) (errs : list string) :
  subtle_importKey_raw publicKey = Returns key →
  revisions sc !! i = Some r →
  verifyChain_step sc publicKey i r errs
  = Returns (errs ++ (message <$> filter (fails sc key) (checks_of i)))%list.
Proof.
  intros Hkey Hr. rewrite filter_checks_of. unfold check_passes. rewrite Hr.
  unfold verifyChain_step.
  rewrite (verifySignature_imported _ _ _ key Hkey). cbn.
  destruct i as [|j].
  - cbn. rewrite not_None_decide.
    destruct (String.eqb _ _), (subtle_verify _ _ _),
      (bool_decide (previousHash r = None)); cbn;
      by rewrite <- ?app_assoc, ?app_nil_r.
  - destruct (lookup_lt_is_Some_2 (revisions sc) j) as [prev Hprev].
    { apply lookup_lt_Some in Hr. lia. }
    replace (S j - 1)%nat with j by lia. rewrite Hprev. cbn.
    rewrite differs_decide.
    destruct (String.eqb _ _), (subtle_verify _ _ _),
      (bool_decide (previousHash r = Some _)); cbn;
      by rewrite <- ?app_assoc, ?app_nil_r.
Qed.

Lemma verifyChain_loop_spec (sc : SignedContent) (publicKey : list byte)
    (key : CryptoKey) (fuel i : nat) (errs : list string) :
  subtle_importKey_raw publicKey = Returns key →
  (i + fuel = length (revisions sc))%nat →
  verifyChain_loop fuel sc publicKey i errs
  = Returns (errs ++ (message <$> filter (fails sc key) (checks_from i fuel)))%list.
Proof.
  intros Hkey. revert i errs.
  induction fuel as [|fuel IH]; intros i errs Hlen.
  - cbn. by rewrite app_nil_r.
  - cbn [verifyChain_loop].
    destruct (lookup_lt_is_Some_2 (revisions sc) i) as [r Hr]; [lia|].
    rewrite Hr, (verifyChain_step_spec sc publicKey key i r errs Hkey Hr).
    cbn [mbind outcome_bind]. rewrite IH by lia.
    unfold checks_from. cbn [seq flat_map].
    by rewrite filter_app, fmap_app, app_assoc.
Qed.

(** With an importable key, [verifyChain] returns the messages of all the
    failed checks of the chain, revision by revision. *)
Lemma verifyChain_spec (sc : SignedContent) (publicKey : list byte)
    (key : CryptoKey) :
  subtle_importKey_raw publicKey = Returns key →
  verifyChain sc publicKey
  = Returns {| valid := (length (failed_checks sc key) =? 0)%nat;
               errors := message <$> failed_checks sc key |}.
Proof.
  intros Hkey. unfold verifyChain.
  rewrite (verifyChain_loop_spec sc publicKey key _ 0 [] Hkey) by lia.
  cbn. by rewrite length_fmap.
Qed.

(** A key that does not import stops the loop at the first revision. *)
Lemma verifyChain_rejected (sc : SignedContent) (pk : list byte)
    (msg : string) :
  subtle_importKey_raw pk = Throws msg →
  verifyChain sc pk
  = match revisions sc with
    | [] => Returns {| valid := true; errors := [] |}
    | _ :: _ => Throws msg
    end.
Proof.
  intros Hkey. unfold verifyChain.
  destruct (revisions sc) as [|r rs] eqn:Hrev; [done|].
  cbn [length verifyChain_loop]. rewrite Hrev. cbn [lookup list_lookup].
  unfold verifyChain_step. by rewrite (verifySignature_rejected _ _ _ msg Hkey).
Qed.

End ChainFacts.

(* ===================================================================== *)
(** ** Signing content *)
(* ===================================================================== *)

Section SigningFacts.
Context {Pf : Platform}.

Lemma signContentWithTimestamp_returns (c : string) (kp : Keypair)
    (cfg : TSAConfig) (w w' : world) (token verified : string)
    (sk key : CryptoKey) :
  subtle_importKey_pkcs8 (privateKey kp) = Returns sk →
  (∀ m, ∃ s, subtle_sign sk m = Returns s ∧ subtle_verify key s m = true) →
  tsa_answers (bufferToHex (hashContent c)) cfg
    (snd (Date_now_toISOString w)) w' token verified →
  ∃ sig,
    signContentWithTimestamp c kp cfg w = (Returns sig, w')
    ∧ contentHash sig = bufferToHex (hashContent c)
    ∧ subtle_verify key (hexToBuffer (signature sig))
        (hexToBuffer (contentHash sig)) = true
    ∧ tsaToken sig = token ∧ verifiedTimestamp sig = verified.
Proof.
  intros Hsk Hsign (time & Hreq & Hiso).
  destruct (signHash_matching kp sk key (hashContent c) Hsk Hsign)
    as (s & Hs & Hv).
  destruct (Date_now_toISOString w) as [now w1] eqn:Hnow. cbn [snd] in Hreq.
  exists {| contentHash := bufferToHex (hashContent c);
            signature := bufferToHex s;
            sig_publicKey := bufferToHex (publicKey kp);
            timestamp := now;
            tsaToken := token;
            verifiedTimestamp := verified |}.
  split.
  - unfold signContentWithTimestamp, signContent, M_bind, lift, effect, M_ret.
    rewrite Hs, Hnow. cbn [cs_contentHash]. rewrite Hreq, Hiso. reflexivity.
  - cbn. by rewrite !hexToBuffer_bufferToHex_id.
Qed.

Lemma signContentWithTimestamp_inv (c : string) (kp : Keypair)
    (cfg : TSAConfig) (w w' : world) (sig : TimestampedSignature)
    (sk key : CryptoKey) :
  subtle_importKey_pkcs8 (privateKey kp) = Returns sk →
  (∀ m, ∃ s, subtle_sign sk m = Returns s ∧ subtle_verify key s m = true) →
  signContentWithTimestamp c kp cfg w = (Returns sig, w') →
  contentHash sig = bufferToHex (hashContent c)
  ∧ subtle_verify key (hexToBuffer (signature sig))
      (hexToBuffer (contentHash sig)) = true.
Proof.
  intros Hsk Hsign.
  destruct (signHash_matching kp sk key (hashContent c) Hsk Hsign)
    as (s & Hs & Hv).
  unfold signContentWithTimestamp, signContent, M_bind, lift, effect, M_ret.
  rewrite Hs. destruct (Date_now_toISOString w) as [now w1].
  destruct (requestTimestamp _ cfg w1) as [[[token time]|msg] w2];
    [|discriminate].
  destruct (JsDate.Date_toISOString time) as [verified|msg]; [|discriminate].
  intros [= <- <-]. cbn. by rewrite !hexToBuffer_bufferToHex_id.
Qed.

End SigningFacts.

(* ===================================================================== *)
(** ** The chain invariant *)
(* ===================================================================== *)

Section InvariantFacts.
Context {Pf : Platform}.

Lemma elem_of_checks_from (ic : nat * check) (i n : nat) :
  ic ∈ checks_from i n ↔ (i ≤ ic.1 < i + n)%nat.
Proof.
  unfold checks_from. rewrite list_elem_of_In, in_flat_map. split.
  - intros (k & Hk & Hic). apply in_seq in Hk.
    apply list_elem_of_In in Hic. in_checks_of Hic; cbn; lia.
  - intros Hic. exists ic.1. split; [apply in_seq; lia|].
    apply list_elem_of_In. unfold checks_of. rewrite !elem_of_cons.
    destruct ic as [k []]; cbn; auto.
Qed.

Lemma NoDup_checks_from (i n : nat) : NoDup (checks_from i n).
Proof.
  revert i. induction n as [|n IH]; intros i; [constructor|].
  unfold checks_from. cbn [seq flat_map]. apply NoDup_app. split; [|split].
  - unfold checks_of. rewrite !NoDup_cons, !elem_of_cons, !elem_of_nil.
    repeat split; try apply NoDup_nil_2; intuition congruence.
  - intros ic Hic Hin. apply (elem_of_checks_from ic (S i) n) in Hin.
    in_checks_of Hic; cbn in Hin; lia.
  - apply IH.
Qed.

Lemma elem_of_failed_checks (sc : SignedContent) (key : CryptoKey)
    (i : nat) (c : check) :
  (i, c) ∈ failed_checks sc key
  ↔ (i < length (revisions sc))%nat ∧ check_passes sc key i c = false.
Proof.
  unfold failed_checks. rewrite list_elem_of_filter, elem_of_checks_from.
  unfold fails. cbn. intuition lia.
Qed.

Lemma intact_failed_checks (sc : SignedContent) (key : CryptoKey) :
  intact sc key → failed_checks sc key = [].
Proof.
  intros Hok. apply elem_of_nil_inv. intros [i c] Hin.
  apply elem_of_failed_checks in Hin as [_ Hfail].
  by rewrite Hok in Hfail.
Qed.

(** A list without duplicates in which exactly [x] satisfies [P]. *)
Lemma filter_singleton {A} (P : A → Prop) `{∀ a, Decision (P a)}
    (l : list A) (x : A) :
  NoDup l → x ∈ l → P x → (∀ y, y ∈ l → P y → y = x) → filter P l = [x].
Proof.
  intros Hnd Hx HP Honly. induction Hnd as [|a l Hal Hnd IH]; [set_solver|].
  rewrite filter_cons. apply elem_of_cons in Hx as [<-|Hx].
  - rewrite decide_True by done. f_equal.
    apply elem_of_nil_inv. intros y Hy.
    apply list_elem_of_filter in Hy as [HPy Hy].
    assert (y = x) as -> by (apply Honly; [set_solver|done]). done.
  - rewrite decide_False.
    + apply IH; [done|]. intros y Hy. apply Honly. set_solver.
    + intros HPa. assert (a = x) as -> by (apply Honly; [set_solver|done]).
      done.
Qed.

Lemma createSignedContent_inv (c : string) (kp : Keypair) (cfg : TSAConfig)
    (md : option Metadata) (w w' : world) (sc : SignedContent) :
  createSignedContent c kp cfg md w = (Returns sc, w') →
  ∃ sig, signContentWithTimestamp c kp cfg w = (Returns sig, w')
         ∧ revisions sc = [ {| rev_content := c; rev_signature := sig;
                               previousHash := None |} ]
         ∧ content sc = c.
Proof.
  unfold createSignedContent, M_bind, M_ret.
  destruct (signContentWithTimestamp c kp cfg w) as [[sig|msg] w1];
    [|discriminate].
  intros [= <- <-]. by exists sig.
Qed.

Lemma addRevision_inv (sc : SignedContent) (c : string) (kp : Keypair)
    (cfg : TSAConfig) (w w' : world) (sc' : SignedContent) :
  addRevision sc c kp cfg w = (Returns sc', w') →
  ∃ lastRevision sig,
    last (revisions sc) = Some lastRevision
    ∧ signContentWithTimestamp c kp cfg w = (Returns sig, w')
    ∧ revisions sc'
      = (revisions sc
         ++ [ {| rev_content := c; rev_signature := sig;
                 previousHash :=
                   Some (contentHash (rev_signature lastRevision)) |} ])%list
    ∧ content sc' = c.
Proof.
  unfold addRevision, M_bind, M_ret, lift.
  replace (revisions sc !! (length (revisions sc) - 1)%nat)
    with (last (revisions sc)) by (by rewrite last_lookup, Nat.sub_1_r).
  destruct (last (revisions sc)) as [lastRevision|]; [|discriminate]. cbn.
  destruct (signContentWithTimestamp c kp cfg w) as [[sig|msg] w1];
    [|discriminate].
  intros [= <- <-]. by exists lastRevision, sig.
Qed.

(** The first revision of a chain made by [createSignedContent] passes all
    checks. *)
Lemma intact_singleton (sc : SignedContent) (key : CryptoKey) (c : string)
    (sig : TimestampedSignature) :
  revisions sc = [ {| rev_content := c; rev_signature := sig;
                      previousHash := None |} ] →
  contentHash sig = bufferToHex (hashContent c) →
  subtle_verify key (hexToBuffer (signature sig))
    (hexToBuffer (contentHash sig)) = true →
  intact sc key.
Proof.
  intros Hrev Hhash Hsig i ch. unfold check_passes. rewrite Hrev.
  destruct i as [|i]; [|done]. cbn.
  destruct ch; [by rewrite Hhash, String.eqb_refl|done|done].
Qed.

(** Appending a revision signed over its own content and linked to the
    last stored hash keeps the chain intact. *)
Lemma intact_snoc (sc sc' : SignedContent) (key : CryptoKey) (c : string)
    (sig : TimestampedSignature) (lastRevision : ContentRevision) :
  intact sc key →
  last (revisions sc) = Some lastRevision →
  revisions sc'
  = (revisions sc
     ++ [ {| rev_content := c; rev_signature := sig;
             previousHash :=
               Some (contentHash (rev_signature lastRevision)) |} ])%list →
  contentHash sig = bufferToHex (hashContent c) →
  subtle_verify key (hexToBuffer (signature sig))
    (hexToBuffer (contentHash sig)) = true →
  intact sc' key.
Proof.
  intros Hok Hlast Hrev Hhash Hsig i ch.
  assert (Hlen : (0 < length (revisions sc))%nat).
  { destruct (revisions sc); [done|cbn; lia]. }
  rewrite last_lookup in Hlast.
  specialize (Hok i ch). unfold check_passes in *. rewrite Hrev.
  destruct (decide (i < length (revisions sc))%nat) as [Hi|Hi].
  - rewrite lookup_app_l by done.
    destruct (revisions sc !! i) as [r|] eqn:Hr; [|done].
    destruct ch; [done|done|].
    destruct i as [|j]; [done|].
    rewrite lookup_app_l by lia. done.
  - rewrite lookup_app_r by lia.
    destruct (i - length (revisions sc))%nat as [|k] eqn:Hk; [|done]. cbn.
    destruct ch; [by rewrite Hhash, String.eqb_refl|done|].
    destruct i as [|j]; [lia|].
    assert (j = pred (length (revisions sc))) as -> by lia.
    rewrite lookup_app_l by lia. rewrite Hlast.
    by apply bool_decide_eq_true.
Qed.

(** Changing the content of revision [k] of an intact chain, so that its
    hash no longer is the stored one, fails the hash check of revision [k]
    and no other check. *)
Lemma failed_checks_corrupt (sc : SignedContent) (key : CryptoKey)
    (k : nat) (r : ContentRevision) (tampered : string) :
  intact sc key →
  revisions sc !! k = Some r →
  bufferToHex (hashContent tampered) ≠ contentHash (rev_signature r) →
  failed_checks (corrupt_content k tampered sc) key = [(k, HashCheck)].
Proof.
  intros Hok Hr Hne.
  assert (Hk : (k < length (revisions sc))%nat) by by eapply lookup_lt_Some.
  assert (Hpass : ∀ i ch, check_passes (corrupt_content k tampered sc) key i ch
                          = false → (i, ch) = (k, HashCheck)).
  { intros i ch. specialize (Hok i ch). unfold check_passes in *. cbn.
    destruct (decide (i = k)) as [->|Hik].
    - rewrite list_lookup_alter_eq, Hr in *. cbn.
      destruct ch; [done|by rewrite Hok|].
      destruct k as [|j]; [by rewrite Hok|].
      rewrite (list_lookup_alter_ne _ _ (S j) j); [|lia].
      destruct (revisions sc !! j); [by rewrite Hok|done].
    - rewrite list_lookup_alter_ne by done.
      destruct (revisions sc !! i) as [ri|]; [|done].
      destruct ch; [by rewrite Hok|by rewrite Hok|].
      destruct i as [|j]; [by rewrite Hok|].
      destruct (decide (j = k)) as [->|Hjk].
      + rewrite list_lookup_alter_eq, Hr in *. cbn. by rewrite Hok.
      + rewrite list_lookup_alter_ne by done.
        destruct (revisions sc !! j); [by rewrite Hok|done]. }
  unfold failed_checks. cbn. rewrite length_alter.
  apply filter_singleton.
  - apply NoDup_checks_from.
  - apply elem_of_checks_from. cbn. lia.
  - unfold fails, check_passes. cbn. rewrite list_lookup_alter_eq, Hr. cbn.
    by apply String.eqb_neq.
  - intros [i ch] _ Hfail. by apply Hpass.
Qed.

End InvariantFacts.

(* ===================================================================== *)
(** ** Error messages are distinct *)
(* ===================================================================== *)

Section MessageFacts.

Lemma digit_char_dec (d : N) :
  (d < 10)%N →
  JsDate.is_digit (Js.digit_char d) = true
  ∧ (Z.of_N (N_of_ascii (Js.digit_char d)) - 48 = Z.of_N d)%Z.
Proof.
  intros Hd.
  assert (d = 0 ∨ d = 1 ∨ d = 2 ∨ d = 3 ∨ d = 4 ∨ d = 5 ∨ d = 6 ∨ d = 7
          ∨ d = 8 ∨ d = 9)%N as Hcases by lia.
  repeat (destruct Hcases as [->|Hcases]; [by vm_compute|]).
  subst d. by vm_compute.
Qed.

Lemma digits_all_digits (fuel : nat) (n : N) (acc : string) :
  all_digits acc → all_digits (Js.digits 10 fuel n acc).
Proof.
  revert n acc. induction fuel as [|fuel IH]; intros n acc Hacc; [done|].
  cbn [Js.digits].
  assert (Hd : all_digits (String (Js.digit_char (n mod 10)) acc)).
  { constructor; [|done]. apply digit_char_dec. by apply N.mod_lt. }
  destruct (n / 10 =? 0)%N; [done|by apply IH].
Qed.

Lemma digits_value (fuel : nat) (n : N) (acc : string) :
  (n < 10 ^ N.of_nat fuel)%N →
  JsDate.dec_value (Js.digits 10 fuel n acc)
  = JsDate.dec_value_from (Z.of_N n) acc.
Proof.
  revert n acc. induction fuel as [|fuel IH]; intros n acc Hn.
  - cbn in *. by replace n with 0%N by lia.
  - cbn [Js.digits].
    assert (Hsplit : (n = 10 * (n / 10) + n mod 10)%N)
      by (apply N.div_mod; lia).
    assert (Hm : (n mod 10 < 10)%N) by (by apply N.mod_lt).
    destruct (digit_char_dec (n mod 10) Hm) as [_ Hval].
    destruct (N.eqb_spec (n / 10) 0) as [Hq|Hq].
    + unfold JsDate.dec_value. cbn [JsDate.dec_value_from]. rewrite Hval.
      f_equal. lia.
    + rewrite IH.
      * cbn [JsDate.dec_value_from]. rewrite Hval. f_equal. lia.
      * apply N.Div0.div_lt_upper_bound.
        rewrite Nat2N.inj_succ, N.pow_succ_r' in Hn. lia.
Qed.

Lemma Number_toString10_value (n : N) :
  JsDate.dec_value (Js.Number_toString10 n) = Z.of_N n.
Proof.
  unfold Js.Number_toString10. rewrite digits_value; [done|].
  rewrite Nat2N.inj_succ, N2Nat.id, N.pow_succ_r'.
  pose proof (N.size_gt n) as Hsize.
  assert ((2 ^ N.size n ≤ 10 ^ N.size n)%N) by (apply N.pow_le_mono_l; lia).
  lia.
Qed.

Lemma Number_toString10_inj (m n : N) :
  Js.Number_toString10 m = Js.Number_toString10 n → m = n.
Proof.
  intros E. apply (f_equal JsDate.dec_value) in E.
  rewrite !Number_toString10_value in E. lia.
Qed.

Lemma Number_toString10_digits (n : N) : all_digits (Js.Number_toString10 n).
Proof. apply digits_all_digits. constructor. Qed.

Lemma append_assoc (a b c : string) : (a +:+ b) +:+ c = a +:+ (b +:+ c).
Proof.
  induction a as [|x a IH]; [done|].
  change (String x ((a +:+ b) +:+ c) = String x (a +:+ (b +:+ c))).
  by rewrite IH.
Qed.

Lemma append_inv_head (s a b : string) : s +:+ a = s +:+ b → a = b.
Proof. induction s as [|c s IH]; cbn; [done|]. intros [= E]. auto. Qed.

(** A run of digits followed by a colon determines the run. *)
Lemma digits_then_colon (d1 d2 r1 r2 : string) :
  all_digits d1 → all_digits d2 →
  d1 +:+ String ":" r1 = d2 +:+ String ":" r2 → d1 = d2 ∧ r1 = r2.
Proof.
  revert d2. induction d1 as [|c d1 IH]; intros d2 H1 H2 E.
  - destruct d2 as [|c2 d2]; cbn in E.
    + by injection E.
    + injection E as <- _. by inversion H2.
  - destruct d2 as [|c2 d2]; cbn in E.
    + injection E as -> _. by inversion H1.
    + injection E as -> E. inversion H1; inversion H2; subst.
      destruct (IH d2) as [-> ->]; done.
Qed.

Lemma message_split (ic : nat * check) :
  ∃ r, message ic
       = "Revision " +:+ (Js.Number_toString10 (N.of_nat ic.1) +:+ String ":" r)
       ∧ r = match ic.2 with
             | HashCheck => " Content hash mismatch"
             | SignatureCheck => " Invalid signature"
             | LinkageCheck =>
                 match ic.1 with
                 | O => " First revision should have null previousHash"
                 | S _ => " Chain linkage broken"
                 end
             end.
Proof.
  eexists. split; [|reflexivity].
  unfold message, revision_label. rewrite append_assoc. f_equal. f_equal.
  by destruct ic as [[|i] []].
Qed.

(** Distinct failed checks have distinct error strings. *)
Lemma message_inj (ic1 ic2 : nat * check) :
  message ic1 = message ic2 → ic1 = ic2.
Proof.
  destruct (message_split ic1) as (r1 & -> & Hr1).
  destruct (message_split ic2) as (r2 & -> & Hr2).
  intros E. apply append_inv_head in E.
  apply digits_then_colon in E as [Ei Er];
    [|apply Number_toString10_digits..].
  apply Number_toString10_inj in Ei.
  destruct ic1 as [i c1], ic2 as [j c2]. cbn in *.
  assert (i = j) as -> by lia. f_equal.
  subst r1 r2. destruct c1, c2, j; try done; discriminate Er.
Qed.

(** Every message starts with the index of its revision. *)
Lemma message_labelled (ic : nat * check) :
  String.prefix (revision_label ic.1 +:+ ": ") (message ic) = true.
Proof.
  unfold message.
  assert (Hpre : ∀ a b, String.prefix a (a +:+ b) = true).
  { intros a b. induction a as [|c a IH]; [by destruct b|].
    change (String c a +:+ b) with (String c (a +:+ b)).
    cbn [String.prefix]. by destruct (ascii_dec c c). }
  destruct ic as [i c]. cbn [fst snd].
  destruct c; [| |destruct i];
    match goal with
    | |- String.prefix (?l +:+ ": ") (?l +:+ String ":" (String " " ?r)) = true =>
        replace (l +:+ String ":" (String " " r)) with ((l +:+ ": ") +:+ r)
          by (by rewrite append_assoc)
    end; apply Hpre.
Qed.

End MessageFacts.

(* ===================================================================== *)
(** ** Chains made by [createSignedContent] and [addRevision] *)
(* ===================================================================== *)

Section BuiltChains.
Context {Pf : Platform}.

Lemma intact_verifyChain (sc : SignedContent) (publicKey : list byte)
    (key : CryptoKey) :
  subtle_importKey_raw publicKey = Returns key →
  intact sc key →
  verifyChain sc publicKey = Returns {| valid := true; errors := [] |}.
Proof.
  intros Hkey Hok. rewrite (verifyChain_spec sc publicKey key Hkey).
  by rewrite (intact_failed_checks sc key Hok).
Qed.

Lemma createSignedContent_intact (c : string) (kp : Keypair)
    (cfg : TSAConfig) (md : option Metadata) (w w' : world)
    (sc : SignedContent) (sk key : CryptoKey) :
  subtle_importKey_pkcs8 (privateKey kp) = Returns sk →
  (∀ m, ∃ s, subtle_sign sk m = Returns s ∧ subtle_verify key s m = true) →
  createSignedContent c kp cfg md w = (Returns sc, w') →
  intact sc key ∧ length (revisions sc) = 1%nat.
Proof.
  intros Hsk Hsign Hrun.
  apply createSignedContent_inv in Hrun as (sig & Hsig & Hrev & _).
  destruct (signContentWithTimestamp_inv c kp cfg w w' sig sk key Hsk Hsign
              Hsig) as [Hhash Hver].
  split; [by eapply intact_singleton|by rewrite Hrev].
Qed.

Lemma addRevision_intact (sc sc' : SignedContent) (c : string) (kp : Keypair)
    (cfg : TSAConfig) (w w' : world) (sk key : CryptoKey) :
  subtle_importKey_pkcs8 (privateKey kp) = Returns sk →
  (∀ m, ∃ s, subtle_sign sk m = Returns s ∧ subtle_verify key s m = true) →
  intact sc key →
  addRevision sc c kp cfg w = (Returns sc', w') →
  intact sc' key
  ∧ ∃ r, revisions sc' = (revisions sc ++ [r])%list
         ∧ rev_content r = c
         ∧ contentHash (rev_signature r) = bufferToHex (hashContent c).
Proof.
  intros Hsk Hsign Hok Hrun.
  apply addRevision_inv in Hrun as (lastRevision & sig & Hlast & Hsig & Hrev & _).
  destruct (signContentWithTimestamp_inv c kp cfg w w' sig sk key Hsk Hsign
              Hsig) as [Hhash Hver].
  split; [by eapply intact_snoc|]. by eexists.
Qed.

End BuiltChains.

(** C3: for every content string, keypair whose halves match, TSA
    configuration and optional metadata, once the timestamp authority
    answers the request, [createSignedContent] returns a chain with exactly
    one revision, whose [previousHash] is null, and [verifyChain] on it with
    the keypair's public key returns [valid = true] without errors. *)
Theorem createSignedContent_single_valid {Pf : Platform} (c : string)
    (kp : Keypair) (cfg : TSAConfig) (md : option Metadata) (w w' : world)
    (token verified : string) :
  matching_keypair kp →
  tsa_answers (bufferToHex (hashContent c)) cfg
    (snd (Date_now_toISOString w)) w' token verified →
  ∃ sc r,
    createSignedContent c kp cfg md w = (Returns sc, w')
    ∧ revisions sc = [r] ∧ previousHash r = None
    ∧ verifyChain sc (publicKey kp) = Returns {| valid := true; errors := [] |}.
Proof.
  intros (sk & key & Hsk & Hkey & Hsign) Htsa.
  destruct (signContentWithTimestamp_returns c kp cfg w w' token verified
              sk key Hsk Hsign Htsa) as (sig & Hsig & Hhash & Hver & _).
  eexists _, _. split.
  { unfold createSignedContent, M_bind, M_ret. rewrite Hsig. reflexivity. }
  split; [reflexivity|]. split; [reflexivity|].
  apply (intact_verifyChain _ _ key Hkey).
  by eapply intact_singleton.
Qed.

Lemma createSignedContent_single_valid_witness :
  ∃ sc r,
    createSignedContent (Pf:=Mock.platform) "draft" Mock.keypair
      Mock.tsaConfig None 0%nat = (Returns sc, 3%nat)
    ∧ revisions sc = [r] ∧ previousHash r = None
    ∧ verifyChain (Pf:=Mock.platform) sc (publicKey Mock.keypair)
      = Returns {| valid := true; errors := [] |}.
Proof.
  apply (createSignedContent_single_valid (Pf:=Mock.platform) "draft"
           Mock.keypair Mock.tsaConfig None 0%nat 3%nat
           "VGltZVN0YW1wUmVzcA==" "2024-01-01T12:00:00.000Z").
  - exact Mock_keypair_matching.
  - exists (Some 1704110400000%Z). split; by vm_compute.
Defined.

(** C2 (as amended): with a public key the platform imports, [verifyChain]
    goes through every revision and returns one error string per failed
    check, in the order of the chain: the strings are pairwise distinct and
    each starts with the index of its revision; [valid] holds exactly when
    no check failed.  With a public key the platform does not import it
    returns no verdict: it throws at the first revision, and only a chain
    without revisions is reported, as valid.  In particular, with a
    matching keypair, on a chain made by [createSignedContent] and
    three calls of [addRevision], [verifyChain] reports no error, and after
    the content of revision 1 is replaced by one with another hash (the
    stored hash untouched) it reports [valid = false] with the single error
    of the hash check of revision 1, and nothing about revisions 0 and 2. *)
Theorem verifyChain_reports_every_failure {Pf : Platform} :
  (∀ (sc : SignedContent) (pk : list byte) (key : CryptoKey),
     subtle_importKey_raw pk = Returns key →
     ∃ v, verifyChain sc pk = Returns v
          ∧ errors v = message <$> failed_checks sc key
          ∧ (valid v = true ↔ failed_checks sc key = [])
          ∧ NoDup (errors v)
          ∧ (∀ i c, (i, c) ∈ failed_checks sc key
                    ↔ (i < length (revisions sc))%nat
                      ∧ check_passes sc key i c = false)
          ∧ (∀ ic, String.prefix (revision_label ic.1 +:+ ": ") (message ic)
                   = true))
  ∧ (∀ (sc : SignedContent) (pk : list byte) (msg : string),
       subtle_importKey_raw pk = Throws msg →
       verifyChain sc pk
       = match revisions sc with
         | [] => Returns {| valid := true; errors := [] |}
         | _ :: _ => Throws msg
         end)
  ∧ (∀ (kp : Keypair) (cfg : TSAConfig) (md : option Metadata)
       (c0 c1 c2 c3 tampered : string) (w0 w1 w2 w3 w4 : world)
       (s0 s1 s2 s3 : SignedContent),
       matching_keypair kp →
       createSignedContent c0 kp cfg md w0 = (Returns s0, w1) →
       addRevision s0 c1 kp cfg w1 = (Returns s1, w2) →
       addRevision s1 c2 kp cfg w2 = (Returns s2, w3) →
       addRevision s2 c3 kp cfg w3 = (Returns s3, w4) →
       bufferToHex (hashContent tampered) ≠ bufferToHex (hashContent c1) →
       verifyChain s3 (publicKey kp)
       = Returns {| valid := true; errors := [] |}
       ∧ verifyChain (corrupt_content 1 tampered s3) (publicKey kp)
         = Returns {| valid := false;
                      errors := ["Revision 1: Content hash mismatch"] |}).
Proof.
  split; [|split].
  - intros sc pk key Hkey. eexists. split; [by apply verifyChain_spec|].
    cbn. split; [done|]. split; [|split; [|split]].
    + destruct (failed_checks sc key); cbn; split; done.
    + apply NoDup_fmap_2; [intros x y; apply message_inj|].
      apply NoDup_filter, NoDup_checks_from.
    + intros i c. apply elem_of_failed_checks.
    + apply message_labelled.
  - intros sc pk msg. apply verifyChain_rejected.
  - intros kp cfg md c0 c1 c2 c3 tampered w0 w1 w2 w3 w4 s0 s1 s2 s3
      (sk & key & Hsk & Hkey & Hsign) H0 H1 H2 H3 Hne.
    destruct (createSignedContent_intact c0 kp cfg md w0 w1 s0 sk key Hsk
                Hsign H0) as [Hok0 Hlen0].
    destruct (addRevision_intact s0 s1 c1 kp cfg w1 w2 sk key Hsk Hsign Hok0
                H1) as (Hok1 & r1 & Hrev1 & Hc1 & Hh1).
    destruct (addRevision_intact s1 s2 c2 kp cfg w2 w3 sk key Hsk Hsign Hok1
                H2) as (Hok2 & r2 & Hrev2 & _).
    destruct (addRevision_intact s2 s3 c3 kp cfg w3 w4 sk key Hsk Hsign Hok2
                H3) as (Hok3 & r3 & Hrev3 & _).
    split; [by apply (intact_verifyChain _ _ key)|].
    assert (Hr1 : revisions s3 !! 1%nat = Some r1).
    { rewrite Hrev3, Hrev2, Hrev1.
      destruct (revisions s0) as [|r0 [|? ?]]; try discriminate Hlen0.
      reflexivity. }
    rewrite (verifyChain_spec _ _ key Hkey).
    rewrite (failed_checks_corrupt s3 key 1 r1 tampered Hok3 Hr1)
      by (by rewrite Hh1).
    reflexivity.
Qed.

Lemma verifyChain_reports_every_failure_witness :
  verifyChain (Pf:=Mock.platform) Mock.chain3 (publicKey Mock.keypair)
  = Returns {| valid := true; errors := [] |}
  ∧ verifyChain (Pf:=Mock.platform)
      (corrupt_content 1 "forged draft" Mock.chain3) (publicKey Mock.keypair)
    = Returns {| valid := false;
                 errors := ["Revision 1: Content hash mismatch"] |}.
Proof.
  apply (proj2 (proj2 (verifyChain_reports_every_failure (Pf:=Mock.platform)))
           Mock.keypair Mock.tsaConfig None "draft" "second draft"
           "third draft" "final" "forged draft" 0%nat 3%nat 6%nat 9%nat
           12%nat Mock.chain0 Mock.chain1 Mock.chain2 Mock.chain3).
  - exact Mock_keypair_matching.
  - by vm_compute.
  - by vm_compute.
  - by vm_compute.
  - by vm_compute.
  - by vm_compute.
Defined.

(** C2 fails as stated: the chain with the changed revision 1, verified
    with a public key of the wrong length, gets no verdict and no error
    string; [verifyChain] throws. *)
Lemma verifyChain_throws_on_bad_key :
  verifyChain (Pf:=Mock.platform)
    (corrupt_content 1 "forged draft" Mock.chain3) []
  = Throws "Invalid keyData".
Proof. by vm_compute. Qed.

(* ===================================================================== *)
(** ** The [genTime] parser *)
(* ===================================================================== *)

Section GenTimeFacts.

Lemma all_digits_app (a b : string) :
  all_digits (a +:+ b) ↔ all_digits a ∧ all_digits b.
Proof.
  unfold all_digits. induction a as [|c a IH]; cbn.
  - split; [by split|by intros [_ ?]].
  - change (list_ascii_of_string (String c a +:+ b))
      with (c :: list_ascii_of_string (a +:+ b)).
    rewrite !Forall_cons, IH. tauto.
Qed.

Lemma length_append (a b : string) :
  String.length (a +:+ b) = (String.length a + String.length b)%nat.
Proof.
  induction a as [|c a IH]; [done|].
  change (S (String.length (a +:+ b)) = S (String.length a + String.length b)).
  by rewrite IH.
Qed.

Lemma take_digits_spec (n : nat) (s d r : string) :
  JsDate.take_digits n s = Some (d, r) →
  s = d +:+ r ∧ String.length d = n ∧ all_digits d.
Proof.
  revert s d r. induction n as [|n IH]; intros s d r.
  - cbn. intros [= <- <-]. repeat split. constructor.
  - cbn [JsDate.take_digits]. destruct s as [|c s]; [done|].
    destruct (JsDate.is_digit c) eqn:Hc; [|done].
    destruct (JsDate.take_digits n s) as [[d' r']|] eqn:Ht; [|done].
    intros [= <- <-]. destruct (IH s d' r' Ht) as (-> & <- & Hd).
    repeat split. by constructor.
Qed.

Lemma take_digits_app (d r : string) :
  all_digits d → JsDate.take_digits (String.length d) (d +:+ r) = Some (d, r).
Proof.
  induction d as [|c d IH]; intros Hd; [done|].
  inversion Hd as [|? ? Hc Hd']; subst.
  change (String c d +:+ r) with (String c (d +:+ r)).
  cbn [String.length JsDate.take_digits]. by rewrite Hc, IH.
Qed.

Lemma span_digits_spec (s d r : string) :
  JsDate.span_digits s = (d, r) → s = d +:+ r ∧ all_digits d.
Proof.
  revert d r. induction s as [|c s IH]; intros d r; cbn.
  - intros [= <- <-]. split; [done|constructor].
  - destruct (JsDate.is_digit c) eqn:Hc.
    + destruct (JsDate.span_digits s) as [d' r'].
      intros [= <- <-]. destruct (IH d' r' eq_refl) as [-> Hd].
      split; [done|by constructor].
    + intros [= <- <-]. split; [done|constructor].
Qed.

Lemma span_digits_Z (d : string) :
  all_digits d → JsDate.span_digits (d +:+ "Z") = (d, "Z").
Proof.
  induction d as [|c d IH]; intros Hd; [done|].
  inversion Hd as [|? ? Hc Hd']; subst.
  change (String c d +:+ "Z") with (String c (d +:+ "Z")).
  cbn [JsDate.span_digits]. by rewrite Hc, IH.
Qed.

Lemma optional_fraction_spec (s r : string) (fraction : option string) :
  JsDate.optional_fraction s = (fraction, r) →
  s = from_option (λ f, "." +:+ f) "" fraction +:+ r
  ∧ ∀ f, fraction = Some f → f ≠ "" ∧ all_digits f.
Proof.
  unfold JsDate.optional_fraction.
  destruct s as [|c s]; [by intros [= <- <-]|].
  destruct (Ascii.eqb_spec c ".") as [->|Hc].
  - destruct (JsDate.span_digits s) as [f r'] eqn:Hspan.
    apply span_digits_spec in Hspan as [-> Hf].
    destruct f as [|c f]; intros [= <- <-]; [done|].
    split; [done|]. by intros ? [= <-].
  - assert (E : ∀ (A : Type) (x y : A),
               match c with "."%char => x | _ => y end = y).
    { intros A x y.
      destruct c as [[] [] [] [] [] [] [] []]; try reflexivity.
      by destruct Hc. }
    rewrite E. by intros [= <- <-].
Qed.

Lemma match_genTime_grammar (s : string) :
  is_Some (match_genTime s) ↔ genTime_grammar s.
Proof.
  split.
  - intros [m Hm]. unfold match_genTime in Hm.
    repeat match type of Hm with
    | context [JsDate.take_digits ?n ?x] =>
        let d := fresh "d" in let r := fresh "r" in let Ht := fresh "Ht" in
        destruct (JsDate.take_digits n x) as [[d r]|] eqn:Ht;
          [apply take_digits_spec in Ht as (-> & ? & ?);
           cbn [mbind option_bind] in Hm
          |discriminate Hm]
    end.
    match type of Hm with
    | context [JsDate.optional_fraction ?x] =>
        destruct (JsDate.optional_fraction x) as [fraction r5] eqn:Hf
    end.
    apply optional_fraction_spec in Hf as [-> Hfrac].
    destruct (String.eqb_spec r5 "Z") as [->|]; [|discriminate Hm].
    exists (d +:+ d0 +:+ d1 +:+ d2 +:+ d3 +:+ d4), fraction.
    split; [rewrite !length_append; lia|].
    split; [by rewrite !all_digits_app|].
    split; [exact Hfrac|]. by rewrite !append_assoc.
  - intros (dt & fraction & Hlen & Hdt & Hfrac & ->).
    do 15 (destruct dt as [|? dt]; try discriminate Hlen).
    unfold all_digits in Hdt. cbn in Hdt.
    repeat match goal with
           | Hd : Forall _ (_ :: _) |- _ =>
               apply Forall_cons in Hd as [? Hd]
           end.
    unfold match_genTime. push_append.
    cbn [JsDate.take_digits mbind option_bind].
    repeat match goal with
           | Hc : JsDate.is_digit ?c = true |- context [JsDate.is_digit ?c] =>
               rewrite Hc; cbn [JsDate.take_digits mbind option_bind]
           end.
    destruct fraction as [f|]; cbn [from_option].
    + destruct (Hfrac f eq_refl) as [Hne Hf].
      push_append. unfold JsDate.optional_fraction.
      rewrite (span_digits_Z f Hf). destruct f; [done|]. by cbn.
    + by cbn.
Qed.

Lemma ends_with_Z_grammar (s : string) : genTime_grammar s → ends_with_Z s.
Proof.
  intros (dt & fraction & _ & _ & _ & ->).
  exists (dt +:+ from_option (λ f, "." +:+ f) "" fraction).
  by rewrite append_assoc.
Qed.

Lemma optional_fraction_app (fraction : option string) :
  (∀ f, fraction = Some f → f ≠ "" ∧ all_digits f) →
  JsDate.optional_fraction (from_option (λ f, "." +:+ f) "" fraction +:+ "Z")
  = (fraction, "Z").
Proof.
  intros Hfrac. destruct fraction as [f|]; cbn [from_option]; [|done].
  destruct (Hfrac f eq_refl) as [Hne Hf].
  push_append. unfold JsDate.optional_fraction.
  rewrite (span_digits_Z f Hf). by destruct f.
Qed.

Lemma take_digits_exact (n : nat) (d r : string) :
  String.length d = n → all_digits d →
  JsDate.take_digits n (d +:+ r) = Some (d, r).
Proof. intros <-. apply take_digits_app. Qed.

(** The groups the regular expression captures in a string of the
    grammar. *)
Lemma match_genTime_fields (y mo d h mi sec : string)
    (fraction : option string) :
  String.length y = 4%nat → all_digits y →
  String.length mo = 2%nat → all_digits mo →
  String.length d = 2%nat → all_digits d →
  String.length h = 2%nat → all_digits h →
  String.length mi = 2%nat → all_digits mi →
  String.length sec = 2%nat → all_digits sec →
  (∀ f, fraction = Some f → f ≠ "" ∧ all_digits f) →
  match_genTime (y +:+ mo +:+ d +:+ h +:+ mi +:+ sec
                 +:+ from_option (λ f, "." +:+ f) "" fraction +:+ "Z")
  = Some {| gt_year := y; gt_month := mo; gt_day := d; gt_hour := h;
            gt_minute := mi; gt_second := sec; gt_fraction := fraction |}.
Proof.
  intros Ly Hy Lmo Hmo Ld Hd Lh Hh Lmi Hmi Lsec Hsec Hfrac.
  unfold match_genTime.
  rewrite (take_digits_exact 4 y) by done. cbn [mbind option_bind].
  rewrite (take_digits_exact 2 mo) by done. cbn [mbind option_bind].
  rewrite (take_digits_exact 2 d) by done. cbn [mbind option_bind].
  rewrite (take_digits_exact 2 h) by done. cbn [mbind option_bind].
  rewrite (take_digits_exact 2 mi) by done. cbn [mbind option_bind].
  rewrite (take_digits_exact 2 sec) by done. cbn [mbind option_bind].
  by rewrite (optional_fraction_app fraction Hfrac).
Qed.

(** What [new Date] reads in the string built from the groups. *)
Lemma Date_parse_isoString (y mo d h mi sec : string)
    (fraction : option string) :
  String.length y = 4%nat → all_digits y →
  String.length mo = 2%nat → all_digits mo →
  String.length d = 2%nat → all_digits d →
  String.length h = 2%nat → all_digits h →
  String.length mi = 2%nat → all_digits mi →
  String.length sec = 2%nat → all_digits sec →
  (∀ f, fraction = Some f → f ≠ "" ∧ all_digits f) →
  JsDate.Date_parse
    (isoString_of {| gt_year := y; gt_month := mo; gt_day := d;
                     gt_hour := h; gt_minute := mi; gt_second := sec;
                     gt_fraction := fraction |})
  = JsDate.of_fields y mo d h mi sec fraction.
Proof.
  intros Ly Hy Lmo Hmo Ld Hd Lh Hh Lmi Hmi Lsec Hsec Hfrac.
  unfold isoString_of, JsDate.Date_parse. cbn [gt_year gt_month gt_day
    gt_hour gt_minute gt_second gt_fraction].
  rewrite (take_digits_exact 4 y) by done. cbn [mbind option_bind].
  push_append. cbn [JsDate.expect]. rewrite Ascii.eqb_refl.
  cbn [mbind option_bind].
  rewrite (take_digits_exact 2 mo) by done. cbn [mbind option_bind].
  push_append. cbn [JsDate.expect]. rewrite Ascii.eqb_refl.
  cbn [mbind option_bind].
  rewrite (take_digits_exact 2 d) by done. cbn [mbind option_bind].
  push_append. cbn [JsDate.expect]. rewrite Ascii.eqb_refl.
  cbn [mbind option_bind].
  rewrite (take_digits_exact 2 h) by done. cbn [mbind option_bind].
  push_append. cbn [JsDate.expect]. rewrite Ascii.eqb_refl.
  cbn [mbind option_bind].
  rewrite (take_digits_exact 2 mi) by done. cbn [mbind option_bind].
  push_append. cbn [JsDate.expect]. rewrite Ascii.eqb_refl.
  cbn [mbind option_bind].
  rewrite (take_digits_exact 2 sec) by done. cbn [mbind option_bind].
  pose proof (optional_fraction_app fraction Hfrac) as Hopt.
  destruct fraction as [f|]; cbn [from_option] in Hopt.
  - change (("." +:+ f) +:+ "Z") with (String "." (f +:+ "Z")) in Hopt.
    push_append. by rewrite Hopt.
  - change ("" +:+ "Z") with "Z" in Hopt. push_append. by rewrite Hopt.
Qed.

Lemma is_digit_value (c : ascii) :
  JsDate.is_digit c = true → (0 ≤ Z.of_N (N_of_ascii c) - 48 ≤ 9)%Z.
Proof.
  unfold JsDate.is_digit. intros Hc. apply andb_true_iff in Hc as [H1 H2].
  apply N.leb_le in H1, H2. lia.
Qed.

Lemma dec_value_from_ge (s : string) (acc : Z) :
  all_digits s → (0 ≤ acc)%Z → (acc ≤ JsDate.dec_value_from acc s)%Z.
Proof.
  revert acc. induction s as [|c s IH]; intros acc Hs Hacc; [done|].
  apply Forall_cons in Hs as [Hc Hs]. apply is_digit_value in Hc.
  cbn [JsDate.dec_value_from].
  etransitivity; [|apply IH; [done|lia]]. lia.
Qed.

Lemma dec_value_skip_zeros (s : string) :
  JsDate.dec_value (JsDate.skip_zeros s) = JsDate.dec_value s.
Proof.
  induction s as [|c s IH]; [done|]. cbn [JsDate.skip_zeros].
  destruct (Ascii.eqb_spec c "0") as [->|_]; [|done]. by rewrite IH.
Qed.

Lemma skip_zeros_length (s : string) :
  (String.length (JsDate.skip_zeros s) ≤ String.length s)%nat.
Proof.
  induction s as [|c s IH]; [done|]. cbn [JsDate.skip_zeros].
  destruct (Ascii.eqb c "0"); cbn; lia.
Qed.

Lemma substring_0_all (n : nat) (s : string) :
  (String.length s ≤ n)%nat → substring 0 n s = s.
Proof.
  revert n. induction s as [|c s IH]; intros n Hn; [by destruct n|].
  destruct n as [|n]; [cbn in Hn; lia|]. cbn [substring].
  rewrite IH; [done|cbn in Hn; lia].
Qed.

Lemma all_digits_substring_0 (n : nat) (s : string) :
  all_digits s → all_digits (substring 0 n s).
Proof.
  revert n. induction s as [|c s IH]; intros n Hs.
  - destruct n; constructor.
  - apply Forall_cons in Hs as [Hc Hs]. destruct n as [|n]; [constructor|].
    cbn [substring]. apply Forall_cons. split; [done|by apply IH].
Qed.

(** Up to nine digits, the number of a token is the number its digits
    denote. *)
Lemma token_number_short (f : string) :
  (String.length f ≤ 9)%nat → JsDate.token_number f = JsDate.dec_value f.
Proof.
  intros Hlen. unfold JsDate.token_number. rewrite substring_0_all.
  - apply dec_value_skip_zeros.
  - pose proof (skip_zeros_length f). lia.
Qed.

(** The number of a token is zero exactly when all its digits are. *)
Lemma token_number_zero (f : string) :
  all_digits f → (JsDate.token_number f =? 0)%Z = all_zeros f.
Proof.
  unfold JsDate.token_number, all_zeros.
  induction f as [|c f IH]; intros Hf; [done|].
  apply Forall_cons in Hf as [Hc Hf].
  cbn [JsDate.skip_zeros list_ascii_of_string forallb].
  rewrite (Ascii.eqb_sym "0" c).
  destruct (Ascii.eqb_spec c "0") as [->|Hne]; [by apply IH|].
  cbn [andb substring]. apply Z.eqb_neq.
  unfold JsDate.dec_value. cbn [JsDate.dec_value_from].
  pose proof (is_digit_value c Hc) as Hv.
  assert (Z.of_N (N_of_ascii c) ≠ 48%Z).
  { intros E. apply Hne. rewrite <- (ascii_N_embedding c).
    replace (N_of_ascii c) with 48%N by lia. done. }
  pose proof (dec_value_from_ge (substring 0 8 f)
                (10 * 0 + (Z.of_N (N_of_ascii c) - 48))%Z
                (all_digits_substring_0 8 f Hf)).
  lia.
Qed.

(** Of a fraction of up to nine digits, the milliseconds are the first
    three digits. *)
Lemma ReadMilliseconds_short (f : string) :
  all_digits f → (String.length f ≤ 9)%nat →
  JsDate.ReadMilliseconds f = fraction_milliseconds f.
Proof.
  intros Hf Hlen. unfold JsDate.ReadMilliseconds.
  rewrite token_number_short by done.
  unfold fraction_milliseconds, JsDate.dec_value.
  do 10 (try (destruct f as [|? f]; [|apply Forall_cons in Hf as [? Hf]]));
    try (cbn in Hlen; lia);
    repeat match goal with
           | Hc : JsDate.is_digit _ = true |- _ => apply is_digit_value in Hc
           end;
    push_append;
    cbn [String.length Nat.eqb Nat.leb Nat.min Nat.sub substring
         JsDate.dec_value_from];
    try lia.
  all: change (Z.of_N (N_of_ascii "0")) with 48%Z.
  all: repeat match goal with
           | |- context [(10 ^ Z.of_nat ?k)%Z] =>
               let v := eval vm_compute in (10 ^ Z.of_nat k)%Z in
               change (10 ^ Z.of_nat k)%Z with v
           end.
  all: divlia.
Qed.

(** The Date of the fields, as the platform makes it and as the fields
    denote it. *)
Lemma of_fields_genTime_date (y mo d h mi sec : string)
    (fraction : option string) :
  (∀ f, fraction = Some f → f ≠ "" ∧ all_digits f) →
  JsDate.of_fields y mo d h mi sec fraction
  = genTime_date y mo d h mi sec fraction.
Proof.
  intros Hfrac. unfold JsDate.of_fields, genTime_date, genTime_in_range,
    utc_instant.
  assert ((from_option JsDate.token_number 0 fraction =? 0)%Z
          = from_option all_zeros true fraction) as ->.
  { destruct fraction as [f|]; [|done]. cbn [from_option].
    apply token_number_zero. by destruct (Hfrac f eq_refl). }
  destruct (from_option all_zeros true fraction);
    repeat match goal with
           | |- context [(?a <=? ?b)%Z] => destruct (Z.leb_spec a b)
           | |- context [(?a <? ?b)%Z] => destruct (Z.ltb_spec a b)
           | |- context [(?a =? ?b)%Z] => destruct (Z.eqb_spec a b)
           end; cbn [andb orb]; try reflexivity; lia.
Qed.

End GenTimeFacts.

(** C7: the [genTime] parser accepts exactly the strings of the grammar
    [YYYYMMDDHHMMSS[.fraction]Z]: it returns a Date for these and throws
    the parse failure for every other string, so for every string that
    does not end with Z.  The Date it returns for a string of the grammar
    is the Date of its fields: the instant of that day and time in UTC
    when the fields are in range, the Invalid Date when they are not; the
    milliseconds of a fraction of up to nine digits are its first three
    digits.  So ["20240101120000Z"] parses to the instant
    2024-01-01T12:00:00.000Z and ["20240101120000.500Z"] to
    2024-01-01T12:00:00.500Z. *)
Theorem parseGenTime_grammar :
  (∀ s, (∃ d, parseGenTime s = Returns d) ↔ genTime_grammar s)
  ∧ (∀ (y mo d h mi sec : string) (fraction : option string),
       String.length y = 4%nat → all_digits y →
       String.length mo = 2%nat → all_digits mo →
       String.length d = 2%nat → all_digits d →
       String.length h = 2%nat → all_digits h →
       String.length mi = 2%nat → all_digits mi →
       String.length sec = 2%nat → all_digits sec →
       (∀ f, fraction = Some f → f ≠ "" ∧ all_digits f) →
       parseGenTime (y +:+ mo +:+ d +:+ h +:+ mi +:+ sec
                     +:+ from_option (λ f, "." +:+ f) "" fraction +:+ "Z")
       = Returns (genTime_date y mo d h mi sec fraction))
  ∧ (∀ f, all_digits f → (String.length f ≤ 9)%nat →
          JsDate.ReadMilliseconds f = fraction_milliseconds f)
  ∧ (∃ d, parseGenTime "20240101120000Z" = Returns d
          ∧ JsDate.Date_toISOString d = Returns "2024-01-01T12:00:00.000Z")
  ∧ (∃ d, parseGenTime "20240101120000.500Z" = Returns d
          ∧ JsDate.Date_toISOString d = Returns "2024-01-01T12:00:00.500Z")
  ∧ (∀ s, ¬ ends_with_Z s →
          parseGenTime s = Throws ("Invalid GeneralizedTime format: " +:+ s)).
Proof.
  assert (Hiff : ∀ s, (∃ d, parseGenTime s = Returns d) ↔ genTime_grammar s).
  { intros s. rewrite <- match_genTime_grammar. unfold parseGenTime.
    destruct (match_genTime s) as [m|]; split.
    - by intros _.
    - intros _. by eexists.
    - by intros [d ?].
    - by intros [? ?]. }
  split; [exact Hiff|]. split; [|split; [|split; [|split]]].
  - intros y mo d h mi sec fraction Ly Hy Lmo Hmo Ld Hd Lh Hh Lmi Hmi Lsec
      Hsec Hfrac.
    unfold parseGenTime. rewrite match_genTime_fields by done.
    rewrite Date_parse_isoString by done.
    by rewrite of_fields_genTime_date.
  - apply ReadMilliseconds_short.
  - exists (Some 1704110400000%Z). by vm_compute.
  - exists (Some 1704110400500%Z). by vm_compute.
  - intros s Hz. unfold parseGenTime.
    destruct (match_genTime s) as [m|] eqn:Hm; [|done].
    destruct Hz. apply ends_with_Z_grammar, match_genTime_grammar.
    by rewrite Hm.
Qed.

Lemma parseGenTime_grammar_witness :
  parseGenTime "20240229235959.25Z" = Returns (Some 1709251199250%Z)
  ∧ parseGenTime "20230229000000Z" = Returns (Some 1677628800000%Z)
  ∧ parseGenTime "20241301000000Z" = Returns None
  ∧ JsDate.ReadMilliseconds "000123" = 0%Z.
Proof.
  split; [|split; [|split]].
  - exact (proj1 (proj2 parseGenTime_grammar) "2024" "02" "29" "23" "59" "59"
             (Some "25") eq_refl ltac:(repeat constructor)
             eq_refl ltac:(repeat constructor)
             eq_refl ltac:(repeat constructor)
             eq_refl ltac:(repeat constructor)
             eq_refl ltac:(repeat constructor)
             eq_refl ltac:(repeat constructor)
             ltac:(intros f [= <-]; split; [done|repeat constructor])).
  - exact (proj1 (proj2 parseGenTime_grammar) "2023" "02" "29" "00" "00" "00"
             None eq_refl ltac:(repeat constructor)
             eq_refl ltac:(repeat constructor)
             eq_refl ltac:(repeat constructor)
             eq_refl ltac:(repeat constructor)
             eq_refl ltac:(repeat constructor)
             eq_refl ltac:(repeat constructor)
             ltac:(intros f; discriminate)).
  - exact (proj1 (proj2 parseGenTime_grammar) "2024" "13" "01" "00" "00" "00"
             None eq_refl ltac:(repeat constructor)
             eq_refl ltac:(repeat constructor)
             eq_refl ltac:(repeat constructor)
             eq_refl ltac:(repeat constructor)
             eq_refl ltac:(repeat constructor)
             eq_refl ltac:(repeat constructor)
             ltac:(intros f; discriminate)).
  - exact (proj1 (proj2 (proj2 parseGenTime_grammar)) "000123"
             ltac:(repeat constructor) ltac:(cbn; lia)).
Defined.

(* ===================================================================== *)
(** ** The OID of the hash algorithm *)
(* ===================================================================== *)

(** A name that is neither a key of [oids] nor a property of
    [Object.prototype] falls back to the OID of SHA-256. *)
Lemma oid_of_fallback (config : TSAConfig) :
  oids !! hashAlg_of config = None →
  hashAlg_of config ∉ Object_prototype_builtins →
  hashAlg_of config ≠ "__proto__" →
  oid_of config = JString sha256_oid.
Proof.
  intros Hown Hbuiltin Hproto. unfold oid_of, get_property.
  rewrite Hown. unfold Object_prototype_get.
  rewrite bool_decide_eq_false_2 by done.
  apply String.eqb_neq in Hproto. by rewrite Hproto.
Qed.

(** C8 fails on the code: the name ["constructor"] is none of sha256,
    sha384 and sha512, and the request is built with the inherited property
    [oids.constructor], not with the OID of SHA-256.  *)
Theorem oid_of_constructor :
  let config := {| url := "https://tsa.example/tsr";
                   hashAlgorithm := Some "constructor";
                   policyOID := None |} in
  ¬ supported_hashAlgorithm (hashAlg_of config)
  ∧ oid_of config = JBuiltin "constructor"
  ∧ oid_of config ≠ JString sha256_oid.
Proof.
  cbn zeta. split; [|split].
  - vm_compute. intros [|[|]]; discriminate.
  - by vm_compute.
  - by vm_compute.
Qed.

(* ===================================================================== *)
(** ** [addRevision] leaves the chain it is given untouched *)
(* ===================================================================== *)

Section HeapFacts.
Context {Pf : Platform}.

Lemma alloc_spec (o : object) (h : heap) :
  h !! (alloc o h).1 = None
  ∧ (alloc o h).2 = <[(alloc o h).1 := o]> h
  ∧ h ⊆ (alloc o h).2.
Proof.
  unfold alloc. cbn.
  assert (Hfresh : h !! fresh (dom h) = None).
  { apply not_elem_of_dom. apply is_fresh. }
  split; [done|]. split; [done|]. by apply insert_subseteq.
Qed.

Lemma read_revisions_Some (h : heap) (items : list loc)
    (revs : list ContentRevision) :
  read_revisions h items = Some revs
  ↔ Forall2 (λ l r, h !! l = Some (ORevision r)) items revs.
Proof.
  unfold read_revisions. rewrite mapM_Some.
  split; intros Hall; (eapply Forall2_impl; [exact Hall|]);
    intros l r Hlr; cbn beta in *;
    destruct (h !! l) as [[]|]; cbn in *; congruence.
Qed.

Lemma read_revisions_mono (h h' : heap) (items : list loc)
    (revs : list ContentRevision) :
  h ⊆ h' →
  read_revisions h items = Some revs → read_revisions h' items = Some revs.
Proof.
  intros Hsub. rewrite !read_revisions_Some. intros Hall.
  eapply Forall2_impl; [exact Hall|]. intros l r Hl.
  exact (lookup_weaken _ _ _ _ Hl Hsub).
Qed.

Lemma read_chain_Some (h : heap) (l : loc) (sc : SignedContent) :
  read_chain h l = Some sc
  ↔ ∃ a items,
      h !! l = Some (OSignedContent (content sc) a (c2paManifest sc))
      ∧ h !! a = Some (OArray items)
      ∧ read_revisions h items = Some (revisions sc).
Proof.
  unfold read_chain. split.
  - destruct (h !! l) as [[| |c a m]|] eqn:Hl; try done.
    destruct (h !! a) as [[|items|]|] eqn:Ha; try done.
    destruct (read_revisions h items) as [revs|] eqn:Hr; [|done].
    intros [= <-]. by exists a, items.
  - intros (a & items & -> & -> & ->). by destruct sc.
Qed.

Lemma read_chain_mono (h h' : heap) (l : loc) (sc : SignedContent) :
  h ⊆ h' → read_chain h l = Some sc → read_chain h' l = Some sc.
Proof.
  intros Hsub. rewrite !read_chain_Some.
  intros (a & items & Hl & Ha & Hrevs). exists a, items.
  split; [exact (lookup_weaken _ _ _ _ Hl Hsub)|].
  split; [exact (lookup_weaken _ _ _ _ Ha Hsub)|].
  by eapply read_revisions_mono.
Qed.

(** What [addRevision] does to the heap, given the signature it obtains. *)
Lemma addRevision_heap_run (h : heap) (l : loc) (sc : SignedContent)
    (lastRevision : ContentRevision) (newContent : string) (kp : Keypair)
    (cfg : TSAConfig) (w w' : world) (sig : TimestampedSignature) :
  read_chain h l = Some sc →
  last (revisions sc) = Some lastRevision →
  signContentWithTimestamp newContent kp cfg w = (Returns sig, w') →
  let r := {| rev_content := newContent; rev_signature := sig;
              previousHash :=
                Some (contentHash (rev_signature lastRevision)) |} in
  let sc' := {| content := newContent;
                revisions := (revisions sc ++ [r])%list;
                c2paManifest := Some (createC2PAManifest newContent sig None) |} in
  ∃ l' h',
    addRevision_heap h l newContent kp cfg w = (Returns (l', h'), w')
    ∧ h ⊆ h'
    ∧ read_chain h' l' = Some sc'.
Proof.
  intros Hread Hlast Hsig r sc'.
  apply read_chain_Some in Hread as (a & items & Hl & Ha & Hrevs).
  apply read_revisions_Some in Hrevs.
  assert (Hlen : length items = length (revisions sc))
    by by eapply Forall2_length.
  rewrite last_lookup in Hlast.
  destruct (Forall2_lookup_r _ _ _ _ _ Hrevs Hlast) as (ll & Hll & Hlr).
  unfold addRevision_heap. rewrite Hl, Ha.
  unfold M_bind, lift, M_ret.
  replace (length items - 1)%nat with (pred (length (revisions sc))) by lia.
  rewrite Hll. cbn [mbind option_bind]. rewrite Hlr.
  cbn [mbind option_bind as_revision require]. rewrite Hsig.
  fold r. set (o1 := ORevision r).
  destruct (alloc_spec o1 h) as (Hf1 & E1 & Hs1).
  destruct (alloc o1 h) as [l1 h1] eqn:A1. cbn [fst snd] in *. subst h1.
  set (o2 := OArray (items ++ [l1])).
  destruct (alloc_spec o2 (<[l1:=o1]> h)) as (Hf2 & E2 & Hs2).
  destruct (alloc o2 (<[l1:=o1]> h)) as [l2 h2] eqn:A2.
  cbn [fst snd] in *. subst h2.
  set (o3 := OSignedContent newContent l2
               (Some (createC2PAManifest newContent sig None))).
  destruct (alloc_spec o3 (<[l2:=o2]> (<[l1:=o1]> h))) as (Hf3 & E3 & Hs3).
  destruct (alloc o3 (<[l2:=o2]> (<[l1:=o1]> h))) as [l3 h3] eqn:A3.
  cbn [fst snd] in *. subst h3.
  exists l3, (<[l3:=o3]> (<[l2:=o2]> (<[l1:=o1]> h))).
  split; [reflexivity|].
  assert (Hsub : h ⊆ <[l3:=o3]> (<[l2:=o2]> (<[l1:=o1]> h))).
  { etrans; [exact Hs1|]. etrans; [exact Hs2|]. exact Hs3. }
  split; [exact Hsub|].
  assert (Hne32 : l3 ≠ l2) by (intros ->; by rewrite lookup_insert_eq in Hf3).
  assert (Hne21 : l2 ≠ l1) by (intros ->; by rewrite lookup_insert_eq in Hf2).
  assert (Hne31 : l3 ≠ l1).
  { intros ->. rewrite lookup_insert_ne in Hf3 by done.
    by rewrite lookup_insert_eq in Hf3. }
  apply read_chain_Some. exists l2, (items ++ [l1])%list. cbn.
  split; [by rewrite lookup_insert_eq|].
  split; [rewrite lookup_insert_ne by done; by rewrite lookup_insert_eq|].
  apply read_revisions_Some. apply Forall2_app.
  - eapply Forall2_impl; [exact Hrevs|]. intros k rk Hk.
    exact (lookup_weaken _ _ _ _ Hk Hsub).
  - constructor; [|constructor].
    rewrite lookup_insert_ne by done. rewrite lookup_insert_ne by done.
    by rewrite lookup_insert_eq.
Qed.

End HeapFacts.

(** C4: for every heap and every non-empty chain in it, once the keypair
    signs and the timestamp authority answers, [addRevision] returns a new
    chain whose revisions are those of the input, in order, followed by one
    new revision; the [previousHash] of the new revision is the
    [contentHash] stored in the last revision of the input, whatever the
    input's [content] field is; every object of the heap, and so the input
    chain, is as it was; the value returned is the one the value-level
    [addRevision] computes. *)
Theorem addRevision_appends_and_preserves {Pf : Platform} (h : heap)
    (l : loc) (sc : SignedContent) (lastRevision : ContentRevision)
    (newContent : string) (kp : Keypair) (cfg : TSAConfig) (w w' : world)
    (token verified : string) :
  read_chain h l = Some sc →
  last (revisions sc) = Some lastRevision →
  matching_keypair kp →
  tsa_answers (bufferToHex (hashContent newContent)) cfg
    (snd (Date_now_toISOString w)) w' token verified →
  ∃ l' h' sc' r,
    addRevision_heap h l newContent kp cfg w = (Returns (l', h'), w')
    ∧ read_chain h' l' = Some sc'
    ∧ revisions sc' = (revisions sc ++ [r])%list
    ∧ previousHash r = Some (contentHash (rev_signature lastRevision))
    ∧ rev_content r = newContent
    ∧ (∀ k o, h !! k = Some o → h' !! k = Some o)
    ∧ read_chain h' l = Some sc
    ∧ addRevision sc newContent kp cfg w = (Returns sc', w').
Proof.
  intros Hread Hlast (sk & key & Hsk & Hkey & Hsign) Htsa.
  destruct (signContentWithTimestamp_returns newContent kp cfg w w' token
              verified sk key Hsk Hsign Htsa) as (sig & Hsig & _).
  destruct (addRevision_heap_run h l sc lastRevision newContent kp cfg w w'
              sig Hread Hlast Hsig) as (l' & h' & Hrun & Hsub & Hread').
  eexists l', h', _, _. split; [exact Hrun|]. split; [exact Hread'|].
  split; [reflexivity|]. split; [reflexivity|]. split; [reflexivity|].
  split; [intros k o Hk; exact (lookup_weaken _ _ _ _ Hk Hsub)|].
  split; [by eapply read_chain_mono|].
  unfold addRevision, M_bind, lift, M_ret.
  replace (revisions sc !! (length (revisions sc) - 1)%nat)
    with (last (revisions sc)) by (by rewrite last_lookup, Nat.sub_1_r).
  rewrite Hlast. cbn [require]. by rewrite Hsig.
Qed.

Lemma addRevision_appends_and_preserves_witness :
  ∃ (l' : loc) (h' : heap) (sc' : SignedContent) (r : ContentRevision),
    addRevision_heap (Pf:=Mock.platform) Mock.heap0 3%positive "second draft"
      Mock.keypair Mock.tsaConfig 3%nat = (Returns (l', h'), 6%nat)
    ∧ read_chain h' l' = Some sc'
    ∧ revisions sc' = (revisions Mock.edited_chain0 ++ [r])%list
    ∧ previousHash r = Some (contentHash (rev_signature Mock.revision0))
    ∧ read_chain h' 3%positive = Some Mock.edited_chain0.
Proof.
  destruct (addRevision_appends_and_preserves (Pf:=Mock.platform) Mock.heap0
              3%positive Mock.edited_chain0 Mock.revision0
              "second draft" Mock.keypair Mock.tsaConfig 3%nat 6%nat
              "VGltZVN0YW1wUmVzcA==" "2024-01-01T12:00:00.000Z")
    as (l' & h' & sc' & r & Hrun & Hread & Hrevs & Hprev & _ & _ & Hold & _).
  - by vm_compute.
  - by vm_compute.
  - exact Mock_keypair_matching.
  - exists (Some 1704110400000%Z). split; by vm_compute.
  - exists l', h', sc', r.
    split; [exact Hrun|]. split; [exact Hread|]. split; [exact Hrevs|].
    split; [exact Hprev|exact Hold].
Defined.

(* ===================================================================== *)
(** ** Signatures embedded in EXIF metadata *)
(* ===================================================================== *)

Lemma prefix_legacy_mark (s : string) :
  String.prefix "Signature: {" s = true → String.prefix "Signature: " s = true.
Proof.
  do 11 (destruct s as [|? s]; [by cbn|]; cbn [String.prefix];
         destruct (Ascii.ascii_dec _ _); [|done]).
  intros _. by destruct s.
Qed.

(** Where the pattern matches, the text contains [Signature: ]. *)
Lemma match_Signature_includes (s group : string) :
  match_Signature s = Some group → Js.includes "Signature: " s = true.
Proof.
  induction s as [|c s IH]; intros Hmatch.
  - cbn in Hmatch. done.
  - cbn [match_Signature] in Hmatch. cbn [Js.includes].
    destruct (String.prefix "Signature: {" (String c s)) eqn:Hprefix.
    + by rewrite (prefix_legacy_mark _ Hprefix).
    + rewrite (IH Hmatch). apply orb_true_r.
Qed.

Section NodeFacts.
Context {Pf : Platform} {Nf : NodePlatform}.

Lemma signJpegWithExif_run (jpegBuffer : list byte) (filename : string)
    (kp : Keypair) (ts : Timestamp) (md : option Metadata) (w w' : world)
    (clean block out : list byte) (sig : FileSignature) :
  exif_remove jpegBuffer = Returns clean →
  signFile filename clean kp ts (Some (jpeg_metadata md)) w
  = (Returns sig, w') →
  exif_dump (with_signature (load_or_empty jpegBuffer) md sig)
  = Returns block →
  exif_insert block clean = Returns out →
  signJpegWithExif jpegBuffer filename kp ts md w = (Returns out, w').
Proof.
  intros Hclean Hsig Hdump Hinsert.
  unfold signJpegWithExif, M_bind, lift.
  by rewrite Hclean, Hsig, Hdump, Hinsert.
Qed.

Lemma verifyJpegExif_run (out clean : list byte) (sig : FileSignature)
    (loaded : ExifObj ExifRest) (v : Verdict) :
  exif_load out = Returns loaded →
  exif_UserComment loaded = Some (ExifText (JSON_stringify sig)) →
  json_round_trip sig →
  has_legacy_mark sig = false →
  exif_remove out = Returns clean →
  verifyFileSignature sig clean = Returns v →
  verifyJpegExif out
  = {| ev_valid := valid v; ev_signature := Some sig;
       ev_errors := errors v |}.
Proof.
  intros Hload Hcomment [Hne Hparse] Hmark Hclean Hverify.
  unfold verifyJpegExif. rewrite Hload, Hcomment.
  apply String.eqb_neq in Hne. rewrite Hne.
  unfold has_legacy_mark in Hmark. rewrite Hmark, Hparse, Hclean.
  by rewrite Hverify.
Qed.

(** The text [verifyJpegExif] hands to [JSON.parse]: the group of the
    pattern when the pattern matches, the whole [UserComment] otherwise. *)
Lemma verifyJpegExif_parses (out : list byte) (comment : string)
    (loaded : ExifObj ExifRest) :
  exif_load out = Returns loaded →
  exif_UserComment loaded = Some (ExifText comment) →
  comment ≠ "" →
  verifyJpegExif out
  = match JSON_parse (default comment (match_Signature comment)) with
    | Throws _ => no_signature "Failed to parse signature JSON from EXIF"
    | Returns signature =>
        match exif_remove out with
        | Throws msg => caught msg
        | Returns cleanJpegBuffer =>
            match verifyFileSignature signature cleanJpegBuffer with
            | Throws msg => caught msg
            | Returns verification =>
                {| ev_valid := valid verification;
                   ev_signature := Some signature;
                   ev_errors := errors verification |}
            end
        end
    end.
Proof.
  intros Hload Hcomment Hne.
  unfold verifyJpegExif. rewrite Hload, Hcomment.
  apply String.eqb_neq in Hne. rewrite Hne.
  destruct (match_Signature comment) as [group|] eqn:Hmatch; cbn [default].
  - by rewrite (match_Signature_includes comment group Hmatch).
  - by destruct (Js.includes "Signature: " comment).
Qed.

End NodeFacts.

Lemma Mock_strip_idempotent : strip_idempotent (Nf:=Mock.node).
Proof.
  intros image clean. cbn. unfold Mock.remove.
  destruct image as [|b rest]; [done|]. cbn.
  destruct (Byte.to_N b =? 0)%N.
  - by intros [= <-].
  - destruct (Byte.to_N b =? 1)%N; [|done].
    destruct (Mock.read3 rest) as [[n rest']|]; [|done].
    by intros [= <-].
Qed.

(** X25: [signJpegWithExif] signs the metadata-stripped image, and
    [verifyJpegExif] strips the image it is given before it recomputes the
    hash.  So for every keypair whose halves match, when the codec gives
    back what was embedded (stripping the output gives the stripped input,
    loading it gives the embedded [UserComment]) and [JSON.parse] gives
    back the signature [JSON.stringify] wrote, the output of
    [signJpegWithExif] verifies whenever the pattern
    [/Signature: (\{.+\})/] does not match the JSON text of the signature;
    a text without [Signature: ] is such a text.  When the pattern matches,
    [verifyJpegExif] parses the matched group in place of the text and
    reports what comes of that. *)
Theorem signJpegWithExif_then_verifyJpegExif {Pf : Platform}
    {Nf : NodePlatform}
    (jpegBuffer : list byte) (filename : string) (kp : Keypair)
    (ts : Timestamp) (md : option Metadata) (w w' : world)
    (clean block out : list byte) (sig : FileSignature) :
  matching_keypair kp →
  exif_remove jpegBuffer = Returns clean →
  signFile filename clean kp ts (Some (jpeg_metadata md)) w
  = (Returns sig, w') →
  exif_dump (with_signature (load_or_empty jpegBuffer) md sig)
  = Returns block →
  exif_insert block clean = Returns out →
  codec_round_trip (with_signature (load_or_empty jpegBuffer) md sig)
    clean out →
  json_round_trip sig →
  file_hash (fs_file sig) = bufferToHex (subtle_digest_SHA256 clean)
  ∧ signJpegWithExif jpegBuffer filename kp ts md w = (Returns out, w')
  ∧ (has_legacy_mark sig = false → match_Signature (JSON_stringify sig) = None)
  ∧ (match_Signature (JSON_stringify sig) = None →
     verifyJpegExif out
     = {| ev_valid := true; ev_signature := Some sig; ev_errors := [] |})
  ∧ (∀ group, match_Signature (JSON_stringify sig) = Some group →
     verifyJpegExif out
     = match JSON_parse group with
       | Throws _ => no_signature "Failed to parse signature JSON from EXIF"
       | Returns signature =>
           match verifyFileSignature signature clean with
           | Throws msg => caught msg
           | Returns verification =>
               {| ev_valid := valid verification;
                  ev_signature := Some signature;
                  ev_errors := errors verification |}
           end
       end).
Proof.
  intros Hkp Hclean Hsig Hdump Hinsert (Hstrip & loaded & Hload & Hcomment)
    [Hne Hparse].
  destruct (verifyFileSignature_signFile filename clean kp ts
              (Some (jpeg_metadata md)) w Hkp)
    as (sig' & w'' & Hsig' & Hhash & _ & Hverify).
  rewrite Hsig in Hsig'. injection Hsig' as <- <-.
  pose proof (verifyJpegExif_parses out (JSON_stringify sig) loaded Hload
                Hcomment Hne) as Hrun.
  split; [exact Hhash|].
  split; [by eapply signJpegWithExif_run|].
  split; [|split].
  - unfold has_legacy_mark. intros Hmark.
    destruct (match_Signature (JSON_stringify sig)) as [group|] eqn:Hmatch;
      [|done].
    by rewrite (match_Signature_includes _ group Hmatch) in Hmark.
  - intros Hmatch. rewrite Hrun, Hmatch. cbn [default].
    by rewrite Hparse, Hstrip, Hverify.
  - intros group Hmatch. rewrite Hrun, Hmatch. cbn [default].
    by rewrite Hstrip.
Qed.

(** A file name that carries [Signature: ] without a brace after it: the
    signed image verifies.  A file name in which a brace follows: the
    matched group is parsed. *)
Lemma signJpegWithExif_then_verifyJpegExif_witness :
  (signJpegWithExif (Pf:=Mock.platform) (Nf:=Mock.node) Mock.image
     "Signature: x.jpg" Mock.keypair Mock.mockTimestamp None 0%nat
   = (Returns Mock.labelled_photo, 1%nat)
   ∧ Mock.labelled_photo ≠ Mock.image
   ∧ has_legacy_mark (Nf:=Mock.node) Mock.labelled_signature = true
   ∧ verifyJpegExif (Pf:=Mock.platform) (Nf:=Mock.node) Mock.labelled_photo
     = {| ev_valid := true; ev_signature := Some Mock.labelled_signature;
          ev_errors := [] |})
  ∧ verifyJpegExif (Pf:=Mock.platform) (Nf:=Mock.node) Mock.renamed_photo
    = match JSON_parse (NodePlatform:=Mock.node) Mock.renamed_group with
      | Throws _ => no_signature "Failed to parse signature JSON from EXIF"
      | Returns signature =>
          match verifyFileSignature (Pf:=Mock.platform) signature Mock.image
          with
          | Throws msg => caught msg
          | Returns verification =>
              {| ev_valid := valid verification;
                 ev_signature := Some signature;
                 ev_errors := errors verification |}
          end
      end.
Proof.
  split.
  - destruct (signJpegWithExif_then_verifyJpegExif (Pf:=Mock.platform)
                (Nf:=Mock.node) Mock.image "Signature: x.jpg" Mock.keypair
                Mock.mockTimestamp None 0%nat 1%nat Mock.image
                (match Mock.dump
                         (with_signature (Pf:=Mock.platform) (Nf:=Mock.node)
                            (load_or_empty (Nf:=Mock.node) Mock.image) None
                            Mock.labelled_signature) with
                 | Returns block => block
                 | Throws _ => []
                 end)
                Mock.labelled_photo Mock.labelled_signature)
      as (_ & Hrun & _ & Hverify & _).
    + exact Mock_keypair_matching.
    + vm_compute; reflexivity.
    + vm_compute; reflexivity.
    + vm_compute; reflexivity.
    + vm_compute; reflexivity.
    + split; [vm_compute; reflexivity|]. exists Mock.loaded_labelled_photo.
      split; vm_compute; reflexivity.
    + split; [by vm_compute|vm_compute; reflexivity].
    + split; [exact Hrun|]. split; [by vm_compute|].
      split; [vm_compute; reflexivity|].
      apply Hverify. vm_compute; reflexivity.
  - destruct (signJpegWithExif_then_verifyJpegExif (Pf:=Mock.platform)
                (Nf:=Mock.node) Mock.image "Signature: {.jpg" Mock.keypair
                Mock.mockTimestamp None 0%nat 1%nat Mock.image
                (match Mock.dump
                         (with_signature (Pf:=Mock.platform) (Nf:=Mock.node)
                            (load_or_empty (Nf:=Mock.node) Mock.image) None
                            Mock.renamed_signature) with
                 | Returns block => block
                 | Throws _ => []
                 end)
                Mock.renamed_photo Mock.renamed_signature)
      as (_ & _ & _ & _ & Hgroup).
    + exact Mock_keypair_matching.
    + vm_compute; reflexivity.
    + vm_compute; reflexivity.
    + vm_compute; reflexivity.
    + vm_compute; reflexivity.
    + split; [vm_compute; reflexivity|]. exists Mock.loaded_renamed_photo.
      split; vm_compute; reflexivity.
    + split; [by vm_compute|vm_compute; reflexivity].
    + apply Hgroup. vm_compute; reflexivity.
Defined.

(** C9 fails on the code: an image signed under a file name in which a
    brace follows the text [Signature: ] does not verify.  The keypair
    matches, the strip operation of the codec is idempotent, the codec
    gives back what was embedded and [JSON.parse] gives back the signature
    [JSON.stringify] wrote; but the pattern of the legacy format matches
    inside the JSON text, [verifyJpegExif] parses the group from the brace
    of the file name on, and reports a signature it cannot parse. *)
Theorem verifyJpegExif_signJpegWithExif_fails :
  let filename := "Signature: {.jpg" in
  matching_keypair (Pf:=Mock.platform) Mock.keypair
  ∧ strip_idempotent (Nf:=Mock.node)
  ∧ signFile (Pf:=Mock.platform) filename Mock.image Mock.keypair
      Mock.mockTimestamp (Some (jpeg_metadata None)) 0%nat
    = (Returns Mock.renamed_signature, 1%nat)
  ∧ signJpegWithExif (Pf:=Mock.platform) (Nf:=Mock.node) Mock.image filename
      Mock.keypair Mock.mockTimestamp None 0%nat
    = (Returns Mock.renamed_photo, 1%nat)
  ∧ codec_round_trip (Nf:=Mock.node)
      (with_signature (Pf:=Mock.platform) (Nf:=Mock.node)
         (load_or_empty (Nf:=Mock.node) Mock.image) None
         Mock.renamed_signature)
      Mock.image Mock.renamed_photo
  ∧ json_round_trip (Nf:=Mock.node) Mock.renamed_signature
  ∧ match_Signature (JSON_stringify (NodePlatform:=Mock.node)
                       Mock.renamed_signature)
    = Some Mock.renamed_group
  ∧ String.prefix "{.jpg" Mock.renamed_group = true
  ∧ verifyJpegExif (Pf:=Mock.platform) (Nf:=Mock.node) Mock.renamed_photo
    = {| ev_valid := false; ev_signature := None;
         ev_errors := ["Failed to parse signature JSON from EXIF"] |}.
Proof.
  cbn zeta.
  split; [exact Mock_keypair_matching|].
  split; [exact Mock_strip_idempotent|].
  split; [vm_compute; reflexivity|].
  split; [vm_compute; reflexivity|].
  split.
  { split; [vm_compute; reflexivity|]. exists Mock.loaded_renamed_photo.
    split; vm_compute; reflexivity. }
  split; [split; [by vm_compute|vm_compute; reflexivity]|].
  split; [vm_compute; reflexivity|].
  split; vm_compute; reflexivity.
Qed.

(* ===================================================================== *)
(** ** [hexToBuffer] on any string *)
(* ===================================================================== *)

Lemma string_pairs_ind (P : string → Prop) :
  P "" → (∀ c, P (String c "")) →
  (∀ a b s, P s → P (String a (String b s))) → ∀ s, P s.
Proof.
  intros H0 H1 H2.
  assert (H : ∀ s, P s ∧ ∀ c, P (String c s)).
  { induction s as [|c s [IH1 IH2]]; split; auto. }
  intros s. apply H.
Qed.

Lemma hex_pairs_length (hex : string) :
  length (hex_pairs hex) = (String.length hex / 2)%nat.
Proof.
  induction hex as [| |a b s IH] using string_pairs_ind; [done..|].
  cbn [hex_pairs length String.length]. rewrite IH.
  change (S (S (String.length s))) with (1 * 2 + String.length s)%nat.
  rewrite Nat.add_comm, Nat.div_add; lia.
Qed.

Lemma hex_pairs_substring (hex : string) (k : nat) (p : string) :
  hex_pairs hex !! k = Some p → substring (2 * k) 2 hex = p.
Proof.
  revert k. induction hex as [| |a b s IH] using string_pairs_ind;
    intros k Hk; [done..|].
  destruct k as [|k].
  - injection Hk as <-. cbn [Nat.mul substring]. by destruct s.
  - replace (2 * S k)%nat with (S (S (2 * k))) by lia.
    cbn [substring]. by apply IH.
Qed.

Lemma hexToBuffer_loop_done (fuel : nat) (hex : string) (i : nat)
    (bytes : list byte) :
  (String.length hex ≤ i)%nat → hexToBuffer_loop fuel hex i bytes = bytes.
Proof.
  intros Hi. destruct fuel; [done|]. cbn [hexToBuffer_loop].
  destruct (Nat.ltb_spec i (String.length hex)); [lia|done].
Qed.

Lemma hexToBuffer_loop_pairs (hex : string) (fuel k : nat) :
  let ds := map pair_byte (hex_pairs hex) in
  (String.length hex - 2 * k ≤ fuel)%nat → (k ≤ length ds)%nat →
  hexToBuffer_loop fuel hex (2 * k)
    (take k ds ++ replicate (length ds - k) x00)%list = ds.
Proof.
  intros ds. assert (Hn : length ds = (String.length hex / 2)%nat).
  { unfold ds. by rewrite length_map, hex_pairs_length. }
  pose proof (Nat.div_mod_eq (String.length hex) 2) as Hdiv.
  pose proof (Nat.mod_upper_bound (String.length hex) 2) as Hmod.
  revert k. induction fuel as [|fuel IH]; intros k Hf Hk.
  - cbn. replace (length ds - k)%nat with 0%nat by lia.
    rewrite take_ge; [|lia]. by rewrite app_nil_r.
  - cbn [hexToBuffer_loop].
    destruct (Nat.ltb_spec (2 * k) (String.length hex)) as [Hlt|Hge].
    + replace (2 * k / 2)%nat with k
        by (symmetry; rewrite Nat.mul_comm; apply Nat.div_mul; lia).
      destruct (decide (k < length ds)%nat) as [Hk'|Hk'].
      * destruct (lookup_lt_is_Some_2 ds k Hk') as [b Hb].
        assert (Hp : ∃ p, hex_pairs hex !! k = Some p ∧ b = pair_byte p).
        { unfold ds in Hb. rewrite list_lookup_fmap in Hb.
          destruct (hex_pairs hex !! k) as [p|]; [|done].
          exists p. split; [done|]. by injection Hb. }
        destruct Hp as (p & Hp & ->).
        rewrite (hex_pairs_substring hex k p Hp).
        replace (2 * k + 2)%nat with (2 * S k)%nat by lia.
        fold (pair_byte p).
        replace (<[k:=pair_byte p]>
                   (take k ds ++ replicate (length ds - k) x00)%list)
          with (take (S k) ds ++ replicate (length ds - S k) x00)%list.
        { apply IH; lia. }
        rewrite insert_app_r_alt; rewrite length_take; [|lia].
        replace (k - k `min` length ds)%nat with 0%nat by lia.
        replace (length ds - k)%nat with (S (length ds - S k)) by lia.
        cbn. rewrite (take_S_r ds k _ Hb). by rewrite <- app_assoc.
      * assert (k = length ds) as -> by lia.
        rewrite list_insert_ge.
        2:{ rewrite length_app, length_take, length_replicate. lia. }
        rewrite hexToBuffer_loop_done; [|lia].
        rewrite Nat.sub_diag, take_ge; [|lia]. by rewrite app_nil_r.
    + replace (length ds - k)%nat with 0%nat by lia.
      rewrite take_ge; [|lia]. by rewrite app_nil_r.
Qed.

Lemma hexToBuffer_hex_pairs (hex : string) :
  hexToBuffer hex = map pair_byte (hex_pairs hex).
Proof.
  unfold hexToBuffer. rewrite <- hex_pairs_length.
  pose proof (hexToBuffer_loop_pairs hex (String.length hex) 0) as Hloop.
  cbv zeta in Hloop. rewrite length_map, !Nat.sub_0_r, take_0 in Hloop.
  change (2 * 0)%nat with 0%nat in Hloop. apply Hloop; lia.
Qed.

(** X1: [hexToBuffer] reads its argument two characters at a time: byte
    [k] of the result is [parseInt] of the characters [2k] and [2k + 1],
    stored as a byte (0 when [parseInt] gives [NaN]).  A last character
    without a partner is dropped, so the result has half as many bytes as
    the string has characters, rounded down. *)
Theorem hexToBuffer_reads_pairs (hex : string) :
  hexToBuffer hex = map pair_byte (hex_pairs hex)
  ∧ length (hexToBuffer hex) = (String.length hex / 2)%nat.
Proof.
  split; [apply hexToBuffer_hex_pairs|].
  by rewrite hexToBuffer_hex_pairs, length_map, hex_pairs_length.
Qed.

Lemma In_all_ascii (c : ascii) : In c all_ascii.
Proof.
  apply in_map_iff. exists (nat_of_ascii c). split.
  - apply ascii_nat_embedding.
  - apply in_seq. pose proof (nat_ascii_bounded c). lia.
Qed.

Lemma decodes_to_lower_all :
  forallb (λ a, forallb (decodes_to_lower a) all_ascii) all_ascii = true.
Proof. by vm_compute. Qed.

Lemma pair_byte_lower (a b : ascii) :
  is_hex_digit a = true → is_hex_digit b = true →
  byte_hex (pair_byte (String a (String b "")))
  = String (hex_lower a) (String (hex_lower b) "").
Proof.
  intros Ha Hb. pose proof decodes_to_lower_all as Hall.
  rewrite forallb_forall in Hall. specialize (Hall a (In_all_ascii a)).
  rewrite forallb_forall in Hall. specialize (Hall b (In_all_ascii b)).
  unfold decodes_to_lower in Hall. rewrite Ha, Hb in Hall.
  by apply String.eqb_eq.
Qed.

(** X2: decoding and encoding again puts a hex string in lower case.  For
    every string of hexadecimal digits, upper or lower case, of even
    length, [bufferToHex (hexToBuffer hex)] is [hex] with its letters in
    lower case; so a hex string in lower case comes back unchanged. *)
Theorem bufferToHex_hexToBuffer (hex : string) :
  Nat.even (String.length hex) = true →
  Forall (λ c, is_hex_digit c = true) (list_ascii_of_string hex) →
  bufferToHex (hexToBuffer hex) = lower_hex hex.
Proof.
  rewrite hexToBuffer_hex_pairs.
  induction hex as [| |a b s IH] using string_pairs_ind; [done..|].
  intros Heven Hhex. cbn [list_ascii_of_string] in Hhex.
  apply Forall_cons in Hhex as [Ha Hhex].
  apply Forall_cons in Hhex as [Hb Hhex].
  cbn [hex_pairs map lower_hex]. rewrite bufferToHex_cons.
  rewrite (pair_byte_lower a b Ha Hb), IH; [done| |done].
  by rewrite <- Heven.
Qed.

Lemma bufferToHex_hexToBuffer_witness :
  bufferToHex (hexToBuffer "00FFa1") = "00ffa1".
Proof.
  apply (bufferToHex_hexToBuffer "00FFa1"); [reflexivity|].
  repeat constructor.
Defined.

(* ===================================================================== *)
(** ** File signatures: what a change of the file or of the record does *)
(* ===================================================================== *)

Lemma bufferToHex_inj (a b : list byte) : bufferToHex a = bufferToHex b → a = b.
Proof.
  intros E. rewrite <- (hexToBuffer_bufferToHex_id a), E.
  apply hexToBuffer_bufferToHex_id.
Qed.

(** X3: a change of the file is found.  When a file signed with a matching
    keypair is verified against bytes with another digest, the verdict is
    invalid; its errors are the hash mismatch, followed by the size
    mismatch exactly when the length differs as well.  The signature
    itself is not reported: it still verifies over the stored hash. *)
Theorem verifyFileSignature_detects_change {Pf : Platform}
    (filename : string) (b b' : list byte) (kp : Keypair) (ts : Timestamp)
    (metadata : option Metadata) (w : world) :
  matching_keypair kp →
  subtle_digest_SHA256 b' ≠ subtle_digest_SHA256 b →
  ∃ sig w',
    signFile filename b kp ts metadata w = (Returns sig, w')
    ∧ verifyFileSignature sig b'
      = Returns {|
          valid := false;
          errors :=
            "File hash mismatch - file has been modified"
            :: (if (length b' =? length b)%nat then []
                else ["File size mismatch"]) |}.
Proof.
  intros (sk & pk & Hsk & Hpk & Hsign) Hdiff.
  destruct (signHash_matching kp sk pk (subtle_digest_SHA256 b) Hsk Hsign)
    as (s & Hs & Hv).
  eexists _, _. split; [by apply signFile_returns|].
  rewrite (verifyFileSignature_imported _ _ pk).
  2:{ cbn. by rewrite hexToBuffer_bufferToHex_id. }
  unfold hash_check, size_check, signature_check. cbn.
  rewrite !hexToBuffer_bufferToHex_id, Hv.
  assert (String.eqb (bufferToHex (subtle_digest_SHA256 b'))
            (bufferToHex (subtle_digest_SHA256 b)) = false) as ->.
  { apply String.eqb_neq. intros E. by apply Hdiff, bufferToHex_inj. }
  destruct (Nat.eqb_spec (length b') (length b)) as [E|E].
  - rewrite E, Z.eqb_refl. done.
  - assert (Z.eqb (Z.of_nat (length b')) (Z.of_nat (length b)) = false) as ->
      by (apply Z.eqb_neq; lia).
    done.
Qed.

Lemma verifyFileSignature_detects_change_witness :
  ∃ sig (w' : nat),
    signFile (Pf:=Mock.platform) "photo.jpg" [x01; x02; x03] Mock.keypair
      Mock.mockTimestamp None 0%nat = (Returns sig, w')
    ∧ verifyFileSignature (Pf:=Mock.platform) sig [x01; x02; x03; x04]
      = Returns {| valid := false;
                   errors := ["File hash mismatch - file has been modified";
                              "File size mismatch"] |}.
Proof.
  apply (verifyFileSignature_detects_change (Pf:=Mock.platform) "photo.jpg"
           [x01; x02; x03] [x01; x02; x03; x04] Mock.keypair
           Mock.mockTimestamp None 0%nat).
  - exact Mock_keypair_matching.
  - by vm_compute.
Defined.

(** X4: [verifyFileSignature] reads four fields of the record: the hash,
    the size, the public key and the signature.  Two records that agree on
    them get the same verdict, or the same exception, for every file; the
    file name, the MIME type, the algorithm name, the signing time, the
    TSA timestamp and the metadata do not enter the verdict. *)
Theorem verifyFileSignature_checked_fields {Pf : Platform}
    (sig sig' : FileSignature) (b : list byte) :
  same_checked_fields sig sig' →
  verifyFileSignature sig' b = verifyFileSignature sig b.
Proof.
  intros (Hhash & Hsize & Hkey & Hsig). unfold verifyFileSignature.
  by rewrite Hhash, Hsize, Hkey, Hsig.
Qed.

Lemma verifyFileSignature_checked_fields_witness :
  verifyFileSignature (Pf:=Mock.platform)
    (relabelled "other.jpg"
       {| authority := "nobody"; token := "";
          verifiedAt := "1999-12-31T23:59:59.000Z" |}
       None Mock.photo_signature)
    Mock.image
  = Returns {| valid := true; errors := [] |}.
Proof.
  rewrite (verifyFileSignature_checked_fields (Pf:=Mock.platform)
             Mock.photo_signature).
  - by vm_compute.
  - by vm_compute.
Defined.

(* ===================================================================== *)
(** ** [signContent] *)
(* ===================================================================== *)

(** X5: what [signContent] makes verifies.  With a matching keypair,
    [signContent] returns a signature whose hash is the hex form of
    [hashContent] of the content and whose key is the hex form of the
    public key; [verifySignature] accepts it, both with the public key of
    the keypair and with the key decoded from the signature itself. *)
Theorem verifySignature_signContent {Pf : Platform} (c : string)
    (kp : Keypair) (w : world) :
  matching_keypair kp →
  ∃ sig w',
    signContent c kp w = (Returns sig, w')
    ∧ cs_contentHash sig = bufferToHex (hashContent c)
    ∧ cs_publicKey sig = bufferToHex (publicKey kp)
    ∧ verifySignature (cs_contentHash sig) (cs_signature sig) (publicKey kp)
      = Returns true
    ∧ verifySignature (cs_contentHash sig) (cs_signature sig)
        (hexToBuffer (cs_publicKey sig))
      = Returns true.
Proof.
  intros Hkp.
  destruct (verifySignature_signHash kp (hashContent c) Hkp)
    as (sigHex & Hsign & Hverify).
  unfold signContent, M_bind, lift, effect, M_ret. rewrite Hsign.
  destruct (Date_now_toISOString w) as [now w']. eexists _, _.
  split; [done|]. cbn. rewrite hexToBuffer_bufferToHex_id. by repeat split.
Qed.

Lemma verifySignature_signContent_witness :
  ∃ sig (w' : nat),
    signContent (Pf:=Mock.platform) "draft" Mock.keypair 0%nat
    = (Returns sig, w')
    ∧ verifySignature (Pf:=Mock.platform) (cs_contentHash sig)
        (cs_signature sig) (publicKey Mock.keypair)
      = Returns true.
Proof.
  destruct (verifySignature_signContent (Pf:=Mock.platform) "draft"
              Mock.keypair 0%nat Mock_keypair_matching)
    as (sig & w' & Hrun & _ & _ & Hverify & _).
  by exists sig, w'.
Defined.

(* ===================================================================== *)
(** ** The revision chain: keys, unread fields, cuts *)
(* ===================================================================== *)

Section ChainExtras.
Context {Pf : Platform}.

Lemma valid_intact (sc : SignedContent) (pk : list byte) (key : CryptoKey) :
  subtle_importKey_raw pk = Returns key →
  verifyChain sc pk = Returns {| valid := true; errors := [] |} →
  intact sc key.
Proof.
  intros Hkey Hvalid. rewrite (verifyChain_spec sc pk key Hkey) in Hvalid.
  injection Hvalid as Hlen Herrs. apply fmap_nil_inv in Herrs.
  intros i c. destruct (check_passes sc key i c) eqn:Hc; [done|].
  destruct (decide (i < length (revisions sc))%nat) as [Hi|Hi].
  - assert (Hin : (i, c) ∈ failed_checks sc key)
      by by apply elem_of_failed_checks.
    rewrite Herrs in Hin. by apply elem_of_nil in Hin.
  - unfold check_passes in Hc. by rewrite lookup_ge_None_2 in Hc by lia.
Qed.

Lemma check_passes_checked_fields (sc sc' : SignedContent) (key : CryptoKey)
    (i : nat) (c : check) :
  checked_fields <$> revisions sc = checked_fields <$> revisions sc' →
  check_passes sc key i c = check_passes sc' key i c.
Proof.
  intros Heq.
  assert (Hlook : ∀ j, checked_fields <$> (revisions sc !! j)
                       = checked_fields <$> (revisions sc' !! j)).
  { intros j. by rewrite <- !list_lookup_fmap, Heq. }
  unfold check_passes. pose proof (Hlook i) as Hi.
  destruct (revisions sc !! i) as [r|], (revisions sc' !! i) as [r'|];
    try done.
  injection Hi as Hcontent Hhash Hsig Hprev.
  destruct c; [by rewrite Hcontent, Hhash|by rewrite Hhash, Hsig|].
  destruct i as [|j]; [by rewrite Hprev|].
  pose proof (Hlook j) as Hj.
  destruct (revisions sc !! j) as [p|], (revisions sc' !! j) as [p'|];
    try done.
  injection Hj as _ Hphash _ _. by rewrite Hprev, Hphash.
Qed.

End ChainExtras.

(** X6: a public key that does not import.  [verifyChain] imports the key
    once per revision, inside the loop.  So with a key that the platform
    refuses, a chain without revisions is reported valid, and every other
    chain makes [verifyChain] throw instead of returning a verdict. *)
Theorem verifyChain_unusable_key {Pf : Platform} (sc : SignedContent)
    (pk : list byte) (msg : string) :
  subtle_importKey_raw pk = Throws msg →
  verifyChain sc pk
  = match revisions sc with
    | [] => Returns {| valid := true; errors := [] |}
    | _ :: _ => Throws msg
    end.
Proof. apply verifyChain_rejected. Qed.

Lemma verifyChain_unusable_key_witness :
  verifyChain (Pf:=Mock.platform) Mock.empty_chain []
  = Returns {| valid := true; errors := [] |}
  ∧ verifyChain (Pf:=Mock.platform) Mock.chain0 [] = Throws "Invalid keyData".
Proof.
  split.
  - by apply (verifyChain_unusable_key (Pf:=Mock.platform) Mock.empty_chain []
                "Invalid keyData").
  - by apply (verifyChain_unusable_key (Pf:=Mock.platform) Mock.chain0 []
                "Invalid keyData").
Defined.

(** X7: [verifyChain] reads four fields of each revision: the content, the
    stored hash, the signature and the previous hash.  Two chains whose
    revisions agree on them get the same verdict, or the same exception;
    the [content] and the manifest of the chain, and the public key, the
    timestamps and the TSA token stored in the revisions, do not enter
    it. *)
Theorem verifyChain_checked_fields {Pf : Platform} (sc sc' : SignedContent)
    (pk : list byte) :
  checked_fields <$> revisions sc = checked_fields <$> revisions sc' →
  verifyChain sc pk = verifyChain sc' pk.
Proof.
  intros Heq. destruct (subtle_importKey_raw pk) as [key|msg] eqn:Hkey.
  - rewrite !(verifyChain_spec _ pk key Hkey).
    assert (failed_checks sc key = failed_checks sc' key) as ->; [|done].
    unfold failed_checks.
    replace (length (revisions sc')) with (length (revisions sc))
      by (by rewrite <- (length_fmap checked_fields), Heq, length_fmap).
    apply list_filter_iff. intros [i c]. unfold fails. cbn.
    by rewrite (check_passes_checked_fields sc sc' key i c Heq).
  - rewrite !(verifyChain_rejected _ pk msg Hkey).
    destruct (revisions sc), (revisions sc'); done.
Qed.

Lemma verifyChain_checked_fields_witness :
  verifyChain (Pf:=Mock.platform) Mock.edited_chain0 (publicKey Mock.keypair)
  = verifyChain (Pf:=Mock.platform) Mock.chain0 (publicKey Mock.keypair).
Proof.
  apply (verifyChain_checked_fields (Pf:=Mock.platform)). reflexivity.
Defined.

Section CutFacts.
Context {Pf : Platform}.

Lemma intact_truncated (sc : SignedContent) (key : CryptoKey) (n : nat) :
  intact sc key → intact (truncated n sc) key.
Proof.
  intros Hok i c. specialize (Hok i c). unfold check_passes in *. cbn.
  destruct (decide (i < n)%nat) as [Hi|Hi].
  - rewrite lookup_take_lt by done.
    destruct (revisions sc !! i) as [r|]; [|done].
    destruct c; [done|done|]. destruct i as [|j]; [done|].
    rewrite lookup_take_lt by lia. done.
  - by rewrite lookup_take_ge by lia.
Qed.

(** In an intact chain every revision but the first names a previous
    hash. *)
Lemma intact_previousHash (sc : SignedContent) (key : CryptoKey) (j : nat)
    (r : ContentRevision) :
  intact sc key → revisions sc !! S j = Some r →
  ∃ prev, revisions sc !! j = Some prev
          ∧ previousHash r = Some (contentHash (rev_signature prev)).
Proof.
  intros Hok Hr. specialize (Hok (S j) LinkageCheck).
  unfold check_passes in Hok. rewrite Hr in Hok.
  destruct (lookup_lt_is_Some_2 (revisions sc) j) as [prev Hprev].
  { apply lookup_lt_Some in Hr. lia. }
  rewrite Hprev in Hok. exists prev. split; [done|].
  by apply bool_decide_eq_true in Hok.
Qed.

Lemma failed_checks_without_first (sc : SignedContent) (key : CryptoKey)
    (n : nat) :
  intact sc key → (0 < n < length (revisions sc))%nat →
  failed_checks (without_first n sc) key = [(0%nat, LinkageCheck)].
Proof.
  intros Hok Hn.
  destruct (lookup_lt_is_Some_2 (revisions sc) n) as [r Hr]; [lia|].
  destruct n as [|m]; [lia|].
  destruct (intact_previousHash sc key m r Hok Hr) as (prev & _ & Hprev).
  unfold failed_checks. cbn [without_first revisions]. rewrite length_drop.
  apply filter_singleton.
  - apply NoDup_checks_from.
  - apply elem_of_checks_from. cbn. lia.
  - unfold fails, check_passes. cbn. rewrite lookup_drop, Nat.add_0_r, Hr.
    rewrite Hprev. by apply bool_decide_eq_false.
  - intros [i c] _ Hfail. unfold fails, check_passes in Hfail. cbn in Hfail.
    rewrite lookup_drop in Hfail.
    pose proof (Hok (S m + i)%nat c) as Hic. unfold check_passes in Hic.
    destruct (revisions sc !! (S m + i)%nat) as [ri|] eqn:Hri; [|done].
    destruct c; [congruence|congruence|].
    destruct i as [|j]; [done|].
    rewrite lookup_drop in Hfail.
    replace (S m + S j)%nat with (S (S m + j)) in Hic by lia.
    destruct (revisions sc !! (S m + j)%nat); congruence.
Qed.

End CutFacts.

(** X8: [addRevision] keeps a valid chain valid.  Whenever a chain that
    [verifyChain] accepts under the public key of a matching keypair is
    extended by [addRevision] with that keypair, the result has one
    revision more, carries the new content, and is accepted as well. *)
Theorem addRevision_keeps_valid {Pf : Platform} (sc sc' : SignedContent)
    (c : string) (kp : Keypair) (cfg : TSAConfig) (w w' : world) :
  matching_keypair kp →
  verifyChain sc (publicKey kp) = Returns {| valid := true; errors := [] |} →
  addRevision sc c kp cfg w = (Returns sc', w') →
  verifyChain sc' (publicKey kp) = Returns {| valid := true; errors := [] |}
  ∧ length (revisions sc') = S (length (revisions sc))
  ∧ content sc' = c
  ∧ rev_content <$> last (revisions sc') = Some c.
Proof.
  intros (sk & pk & Hsk & Hpk & Hsign) Hvalid Hadd.
  pose proof (valid_intact sc (publicKey kp) pk Hpk Hvalid) as Hok.
  destruct (addRevision_intact sc sc' c kp cfg w w' sk pk Hsk Hsign Hok Hadd)
    as (Hok' & r & Hrev & Hc & _).
  split; [by apply (intact_verifyChain sc' (publicKey kp) pk)|].
  split; [rewrite Hrev, length_app; cbn; lia|].
  split; [by destruct (addRevision_inv _ _ _ _ _ _ _ Hadd)
               as (? & ? & _ & _ & _ & ?)|].
  by rewrite Hrev, last_snoc, <- Hc.
Qed.

Lemma addRevision_keeps_valid_witness :
  verifyChain (Pf:=Mock.platform) Mock.chain1 (publicKey Mock.keypair)
  = Returns {| valid := true; errors := [] |}
  ∧ length (revisions Mock.chain1) = 2%nat.
Proof.
  destruct (addRevision_keeps_valid (Pf:=Mock.platform) Mock.chain0
              Mock.chain1 "second draft" Mock.keypair Mock.tsaConfig
              3%nat 6%nat Mock_keypair_matching)
    as (Hvalid & Hlen & _).
  - by vm_compute.
  - by vm_compute.
  - split; [exact Hvalid|exact Hlen].
Defined.

(** X9: a cut at the end is not noticed.  If [verifyChain] accepts a
    chain, it accepts the chain cut after any number of revisions: nothing
    in a chain tells that later revisions were removed. *)
Theorem verifyChain_truncated {Pf : Platform} (sc : SignedContent)
    (pk : list byte) (n : nat) :
  verifyChain sc pk = Returns {| valid := true; errors := [] |} →
  verifyChain (truncated n sc) pk = Returns {| valid := true; errors := [] |}.
Proof.
  intros Hvalid. destruct (subtle_importKey_raw pk) as [key|msg] eqn:Hkey.
  - apply (intact_verifyChain _ pk key Hkey), intact_truncated.
    by apply (valid_intact sc pk key).
  - rewrite (verifyChain_rejected _ pk msg Hkey) in Hvalid.
    rewrite (verifyChain_rejected _ pk msg Hkey). cbn.
    destruct (revisions sc); [|done]. by rewrite take_nil.
Qed.

Lemma verifyChain_truncated_witness :
  verifyChain (Pf:=Mock.platform) (truncated 2 Mock.chain3)
    (publicKey Mock.keypair)
  = Returns {| valid := true; errors := [] |}.
Proof.
  apply (verifyChain_truncated (Pf:=Mock.platform) Mock.chain3). by vm_compute.
Defined.

(** X10: a cut at the front is noticed.  If [verifyChain] accepts a chain
    and its first [n] revisions are removed, with [n] at least one and at
    least one revision left, the verdict is invalid with exactly one
    error: the revision that is now first has a previous hash. *)
Theorem verifyChain_without_first {Pf : Platform} (sc : SignedContent)
    (pk : list byte) (n : nat) :
  verifyChain sc pk = Returns {| valid := true; errors := [] |} →
  (0 < n < length (revisions sc))%nat →
  verifyChain (without_first n sc) pk
  = Returns {| valid := false;
               errors := ["Revision 0: First revision should have null previousHash"] |}.
Proof.
  intros Hvalid Hn. destruct (subtle_importKey_raw pk) as [key|msg] eqn:Hkey.
  - rewrite (verifyChain_spec _ pk key Hkey).
    rewrite (failed_checks_without_first sc key n); [done| |done].
    by apply (valid_intact sc pk key).
  - rewrite (verifyChain_rejected _ pk msg Hkey) in Hvalid.
    destruct (revisions sc); [cbn in Hn; lia|done].
Qed.

Lemma verifyChain_without_first_witness :
  verifyChain (Pf:=Mock.platform) (without_first 1 Mock.chain3)
    (publicKey Mock.keypair)
  = Returns {| valid := false;
               errors := ["Revision 0: First revision should have null previousHash"] |}.
Proof.
  apply (verifyChain_without_first (Pf:=Mock.platform) Mock.chain3).
  - by vm_compute.
  - vm_compute. lia.
Defined.

(** X11: [addRevision] needs a revision to link to.  On a chain without
    revisions it throws, and it does so before anything is signed and
    before the timestamp authority is asked: the world is as it was. *)
Theorem addRevision_empty_chain {Pf : Platform} (sc : SignedContent)
    (c : string) (kp : Keypair) (cfg : TSAConfig) (w : world) :
  revisions sc = [] →
  ∃ msg, addRevision sc c kp cfg w = (Throws msg, w).
Proof.
  intros Hrev. unfold addRevision, M_bind, lift. rewrite Hrev. cbn.
  by eexists.
Qed.

Lemma addRevision_empty_chain_witness :
  ∃ msg, addRevision (Pf:=Mock.platform) Mock.empty_chain "draft"
           Mock.keypair Mock.tsaConfig 0%nat = (Throws msg, 0%nat).
Proof.
  by apply (addRevision_empty_chain (Pf:=Mock.platform) Mock.empty_chain).
Defined.

(** X12: the chain proof that [exportWithManifest] writes can be checked
    without the chain.  It has one entry per revision.  For a chain that
    [verifyChain] accepts, every entry carries the hash of the content of
    its revision, its signature verifies over that hash under the same
    key, and its previous hash is the hash of the entry before it, or
    null for the first entry. *)
Theorem exportWithManifest_chainProof {Pf : Platform} (sc : SignedContent)
    (pk : list byte) :
  verifyChain sc pk = Returns {| valid := true; errors := [] |} →
  let proof := cp_revisions (exp_chainProof (exportWithManifest sc)) in
  length proof = length (revisions sc)
  ∧ ∀ i e, proof !! i = Some e →
      (∃ r, revisions sc !! i = Some r
            ∧ cp_contentHash e = bufferToHex (hashContent (rev_content r)))
      ∧ verifySignature (cp_contentHash e) (cp_signature e) pk = Returns true
      ∧ cp_previousHash e
        = match i with
          | O => None
          | S j => cp_contentHash <$> proof !! j
          end.
Proof.
  intros Hvalid proof. unfold proof. cbn. split; [by rewrite length_map|].
  intros i e He. rewrite list_lookup_fmap in He.
  destruct (revisions sc !! i) as [r|] eqn:Hr; [|done].
  injection He as <-. cbn.
  destruct (subtle_importKey_raw pk) as [key|msg] eqn:Hkey.
  - pose proof (valid_intact sc pk key Hkey Hvalid) as Hok.
    pose proof (Hok i HashCheck) as Hhash.
    pose proof (Hok i SignatureCheck) as Hsig.
    unfold check_passes in Hhash, Hsig. rewrite Hr in Hhash, Hsig.
    apply String.eqb_eq in Hhash.
    split; [by exists r|].
    split; [by rewrite (verifySignature_imported _ _ _ key Hkey), Hsig|].
    destruct i as [|j].
    + specialize (Hok 0%nat LinkageCheck). unfold check_passes in Hok.
      rewrite Hr in Hok. by apply bool_decide_eq_true in Hok.
    + destruct (intact_previousHash sc key j r Hok Hr) as (prev & Hp & ->).
      by rewrite list_lookup_fmap, Hp.
  - rewrite (verifyChain_rejected _ pk msg Hkey) in Hvalid.
    destruct (revisions sc); done.
Qed.

Lemma exportWithManifest_chainProof_witness :
  length (cp_revisions (exp_chainProof (exportWithManifest Mock.chain3)))
  = 4%nat.
Proof.
  destruct (exportWithManifest_chainProof (Pf:=Mock.platform) Mock.chain3
              (publicKey Mock.keypair)) as [Hlen _].
  - by vm_compute.
  - exact Hlen.
Defined.

(** X13: the manifest follows the signature.  The manifest that
    [signContentC2PA] returns carries the signature it returns and binds
    its hash.  The chain that [createSignedContent] returns, and the chain
    that [addRevision] returns, carry a manifest about their last
    revision: its signature value is the signature of that revision and
    its hash assertion binds the hash of that revision.  The title is the
    one given to [createSignedContent], or [Signed Content] without one;
    [addRevision] takes no metadata, so after it the title is
    [Signed Content] whatever the chain was created with. *)
Theorem manifest_follows_chain {Pf : Platform} :
  (∀ c kp cfg md w w' sig m,
     signContentC2PA c kp cfg md w = (Returns (sig, m), w') →
     signContentWithTimestamp c kp cfg w = (Returns sig, w')
     ∧ manifest_signature_value m = signature sig
     ∧ manifest_hash m = Some (JsonString (contentHash sig)))
  ∧ (∀ c kp cfg md w w' sc,
     createSignedContent c kp cfg md w = (Returns sc, w') →
     manifest_of_last_revision sc
     ∧ manifest_title <$> c2paManifest sc
       = Some (string_or (md ≫= title) "Signed Content"))
  ∧ (∀ sc c kp cfg w w' sc',
       addRevision sc c kp cfg w = (Returns sc', w') →
       manifest_of_last_revision sc'
       ∧ manifest_title <$> c2paManifest sc' = Some "Signed Content").
Proof.
  split; [|split].
  - intros c kp cfg md w w' sig m. unfold signContentC2PA, M_bind, M_ret.
    destruct (signContentWithTimestamp c kp cfg w) as [[sig'|msg] w1];
      [|discriminate].
    by intros [= <- <- <-].
  - intros c kp cfg md w w' sc.
    unfold createSignedContent, M_bind, M_ret.
    destruct (signContentWithTimestamp c kp cfg w) as [[sig|msg] w1];
      [|discriminate].
    intros [= <- <-]. split; [|done].
    eexists _, _. by repeat split.
  - intros sc c kp cfg w w' sc'.
    unfold addRevision, M_bind, M_ret, lift.
    destruct (revisions sc !! _) as [lastRevision|]; [|discriminate]. cbn.
    destruct (signContentWithTimestamp c kp cfg w) as [[sig|msg] w1];
      [|discriminate].
    intros [= <- <-]. split; [|done].
    eexists _, _. cbn [c2paManifest revisions content].
    split; [done|]. split; [apply last_snoc|]. by repeat split.
Qed.

Lemma manifest_follows_chain_witness :
  manifest_of_last_revision Mock.chain1
  ∧ manifest_title <$> c2paManifest Mock.chain1 = Some "Signed Content".
Proof.
  apply (proj2 (proj2 (manifest_follows_chain (Pf:=Mock.platform)))
           Mock.chain0 "second draft" Mock.keypair Mock.tsaConfig 3%nat
           6%nat).
  by vm_compute.
Defined.

(* ===================================================================== *)
(** ** The timestamp authority *)
(* ===================================================================== *)

Section TsaExtras.
Context {Pf : Platform}.

(** What [requestTimestamp] makes of the response to its request. *)
Lemma requestTimestamp_response (hash : string) (cfg : TSAConfig)
    (w w1 w2 : world) (request : list byte) (response : Response) :
  createTimeStampRequest hash cfg w = (Returns request, w1) →
  fetch_post (url cfg) "application/timestamp-query" request w1
  = (Returns response, w2) →
  requestTimestamp hash cfg w
  = (if resp_ok response then
       match parseTimestampToken (resp_body response) with
       | Returns time => Returns (bufferToBase64 (resp_body response), time)
       | Throws msg => Throws msg
       end
     else Throws ("TSA request failed: "
                  +:+ Js.Number_toString10 (resp_status response)),
     w2).
Proof.
  intros Hreq Hfetch. unfold requestTimestamp, M_bind.
  rewrite Hreq, Hfetch. destruct (resp_ok response); cbn; [|done].
  unfold lift, M_ret. by destruct (parseTimestampToken (resp_body response)).
Qed.

Lemma signContent_returns (c : string) (kp : Keypair) (w : world)
    (sigHex : string) :
  signHash (hashContent c) (inl (privateKey kp)) = Returns sigHex →
  signContent c kp w
  = (Returns {| cs_contentHash := bufferToHex (hashContent c);
                cs_signature := sigHex;
                cs_publicKey := bufferToHex (publicKey kp);
                cs_timestamp := (Date_now_toISOString w).1 |},
     (Date_now_toISOString w).2).
Proof.
  intros Hsign. unfold signContent, M_bind, lift, effect, M_ret.
  rewrite Hsign. by destruct (Date_now_toISOString w).
Qed.

End TsaExtras.

(** X14: the answer of the authority is not matched with the request.
    What [requestTimestamp] returns is read off the response alone: when
    two requests, for any two hashes, get the same response, they return
    the same token and the same time, or fail alike.  Neither the hash nor
    the nonce sent is compared with what the token holds. *)
Theorem requestTimestamp_unbound {Pf : Platform} (hash hash' : string)
    (cfg cfg' : TSAConfig) (w w1 w2 v v1 v2 : world)
    (request request' : list byte) (response : Response) :
  createTimeStampRequest hash cfg w = (Returns request, w1) →
  fetch_post (url cfg) "application/timestamp-query" request w1
  = (Returns response, w2) →
  createTimeStampRequest hash' cfg' v = (Returns request', v1) →
  fetch_post (url cfg') "application/timestamp-query" request' v1
  = (Returns response, v2) →
  (requestTimestamp hash cfg w).1 = (requestTimestamp hash' cfg' v).1.
Proof.
  intros Hreq Hfetch Hreq' Hfetch'.
  rewrite (requestTimestamp_response hash cfg w w1 w2 request response)
    by done.
  by rewrite (requestTimestamp_response hash' cfg' v v1 v2 request' response).
Qed.

Lemma requestTimestamp_unbound_witness :
  (requestTimestamp (Pf:=Mock.platform) "00ff" Mock.tsaConfig 0%nat).1
  = (requestTimestamp (Pf:=Mock.platform) "abcdef" Mock.tsaConfig 7%nat).1.
Proof.
  apply (requestTimestamp_unbound (Pf:=Mock.platform) "00ff" "abcdef"
           Mock.tsaConfig Mock.tsaConfig 0%nat 1%nat 2%nat 7%nat 8%nat 9%nat
           (Mock.value_of (createTimeStampRequest (Pf:=Mock.platform) "00ff"
                             Mock.tsaConfig 0%nat) [])
           (Mock.value_of (createTimeStampRequest (Pf:=Mock.platform) "abcdef"
                             Mock.tsaConfig 7%nat) [])
           {| resp_ok := true; resp_status := 200;
              resp_body := Mock.response_bytes |}).
  - by vm_compute.
  - by vm_compute.
  - by vm_compute.
  - by vm_compute.
Defined.

(** X15: an authority that refuses.  When the response to the timestamp
    request has a failure status, [createSignedContent] throws
    [TSA request failed: ] followed by the status, after the content has
    been signed and the request has been sent; no chain is returned, and
    the body of the response is not parsed. *)
Theorem createSignedContent_tsa_failure {Pf : Platform} (c : string)
    (kp : Keypair) (cfg : TSAConfig) (md : option Metadata)
    (w w1 w2 : world) (sigHex : string) (request : list byte)
    (response : Response) :
  signHash (hashContent c) (inl (privateKey kp)) = Returns sigHex →
  createTimeStampRequest (bufferToHex (hashContent c)) cfg
    (Date_now_toISOString w).2 = (Returns request, w1) →
  fetch_post (url cfg) "application/timestamp-query" request w1
  = (Returns response, w2) →
  resp_ok response = false →
  createSignedContent c kp cfg md w
  = (Throws ("TSA request failed: "
             +:+ Js.Number_toString10 (resp_status response)), w2).
Proof.
  intros Hsign Hreq Hfetch Hok.
  unfold createSignedContent, signContentWithTimestamp, M_bind.
  rewrite (signContent_returns c kp w sigHex Hsign). cbn [cs_contentHash].
  rewrite (requestTimestamp_response _ cfg _ w1 w2 request response Hreq Hfetch).
  by rewrite Hok.
Qed.

Lemma createSignedContent_tsa_failure_witness :
  createSignedContent (Pf:=Mock.platform) "draft" Mock.keypair
    {| url := "https://tsa.example/down"; hashAlgorithm := None;
       policyOID := None |} None 0%nat
  = (Throws "TSA request failed: 503", 3%nat).
Proof.
  apply (createSignedContent_tsa_failure (Pf:=Mock.platform) "draft"
           Mock.keypair
           {| url := "https://tsa.example/down"; hashAlgorithm := None;
              policyOID := None |} None 0%nat 2%nat 3%nat
           (match signHash (Pf:=Mock.platform)
                    (hashContent (Pf:=Mock.platform) "draft")
                    (inl (privateKey Mock.keypair)) with
            | Returns s => s
            | Throws _ => ""
            end)
           (Mock.value_of (createTimeStampRequest (Pf:=Mock.platform)
                             (bufferToHex (hashContent (Pf:=Mock.platform)
                                             "draft"))
                             Mock.tsaConfig 1%nat) [])
           {| resp_ok := false; resp_status := 503; resp_body := [] |}).
  - by vm_compute.
  - by vm_compute.
  - by vm_compute.
  - reflexivity.
Defined.

(* ===================================================================== *)
(** ** Verdicts on images *)
(* ===================================================================== *)

Section ExifExtras.
Context {Pf : Platform} {Nf : NodePlatform}.

Lemma verifyFileSignature_valid_errors (sig : FileSignature) (b : list byte)
    (v : Verdict) :
  verifyFileSignature sig b = Returns v →
  valid v = (length (errors v) =? 0)%nat.
Proof.
  unfold verifyFileSignature.
  destruct (verifySignature _ _ _) as [ok|msg]; [|done]. cbn.
  by intros [= <-].
Qed.

End ExifExtras.

(** X16: what a verdict of [verifyJpegExif] means.  The verdict is valid
    exactly when it has no errors.  A verdict without a signature is
    invalid and has one error.  A valid verdict carries the signature that
    was read from the image, and [verifyFileSignature] accepts that
    signature for the image with its metadata stripped. *)
Theorem verifyJpegExif_verdict {Pf : Platform} {Nf : NodePlatform}
    (jpegBuffer : list byte) :
  let v := verifyJpegExif jpegBuffer in
  (ev_valid v = true ↔ ev_errors v = [])
  ∧ (ev_signature v = None →
     ev_valid v = false ∧ length (ev_errors v) = 1%nat)
  ∧ (ev_valid v = true →
     ∃ sig clean,
       ev_signature v = Some sig
       ∧ exif_remove jpegBuffer = Returns clean
       ∧ verifyFileSignature sig clean
         = Returns {| valid := true; errors := [] |}).
Proof.
  cbv zeta. unfold verifyJpegExif, caught, no_signature.
  destruct (exif_load jpegBuffer) as [exifObj|msg]; [|by cbn].
  destruct (exif_UserComment exifObj) as [[userComment|]|]; [|by cbn..].
  destruct (String.eqb userComment ""); [by cbn|].
  destruct (JSON_parse _) as [sig|msg]; [|by cbn].
  destruct (exif_remove jpegBuffer) as [clean|msg]; [|by cbn].
  destruct (verifyFileSignature sig clean) as [[ok errs]|msg] eqn:Hverify;
    [|by cbn].
  pose proof (verifyFileSignature_valid_errors _ _ _ Hverify) as Hlen.
  cbn in *. split; [|split].
  - rewrite Hlen. destruct errs; by cbn.
  - done.
  - intros ->. exists sig, clean. destruct errs; [done|by cbn in Hlen].
Qed.

Lemma verifyJpegExif_verdict_witness :
  ∃ sig clean,
    ev_signature (verifyJpegExif (Pf:=Mock.platform) (Nf:=Mock.node)
                    Mock.signed_photo) = Some sig
    ∧ exif_remove (NodePlatform:=Mock.node) Mock.signed_photo = Returns clean
    ∧ verifyFileSignature (Pf:=Mock.platform) sig clean
      = Returns {| valid := true; errors := [] |}.
Proof.
  apply (verifyJpegExif_verdict (Pf:=Mock.platform) (Nf:=Mock.node)
           Mock.signed_photo).
  by vm_compute.
Defined.

(** X17: the signature in an image covers the image without its metadata.
    [verifyJpegExif] reads the [UserComment] entry of the image and the
    bytes that are left when the metadata is stripped.  Two images that
    load, have the same [UserComment] and strip to the same bytes get the
    same verdict: the other entries, among them the [Artist],
    [ImageDescription] and [Software] that [signJpegWithExif] writes, can
    be changed in a signed image without any effect on the verdict. *)
Theorem verifyJpegExif_other_entries {Pf : Platform} {Nf : NodePlatform}
    (a b : list byte) (exifA exifB : ExifObj ExifRest) :
  exif_load a = Returns exifA →
  exif_load b = Returns exifB →
  exif_UserComment exifA = exif_UserComment exifB →
  exif_remove a = exif_remove b →
  verifyJpegExif b = verifyJpegExif a.
Proof.
  intros Ha Hb Hcomment Hremove. unfold verifyJpegExif.
  by rewrite Ha, Hb, Hcomment, Hremove.
Qed.

Lemma verifyJpegExif_other_entries_witness :
  Mock.retagged_photo ≠ Mock.signed_photo
  ∧ verifyJpegExif (Pf:=Mock.platform) (Nf:=Mock.node) Mock.retagged_photo
    = {| ev_valid := true; ev_signature := Some Mock.photo_signature;
         ev_errors := [] |}.
Proof.
  split; [by vm_compute|].
  rewrite (verifyJpegExif_other_entries (Pf:=Mock.platform) (Nf:=Mock.node)
             Mock.signed_photo Mock.retagged_photo Mock.loaded_photo
             Mock.loaded_retagged_photo).
  - by vm_compute.
  - by vm_compute.
  - by vm_compute.
  - by vm_compute.
  - by vm_compute.
Defined.

(* ===================================================================== *)
(** ** The file name that is signed *)
(* ===================================================================== *)

Lemma ends_with_slash_app (a b : string) :
  b ≠ "" → ends_with_slash (a +:+ b) = ends_with_slash b.
Proof.
  intros Hb. induction a as [|c a IH]; [done|].
  change (String c a +:+ b) with (String c (a +:+ b)).
  cbn [ends_with_slash]. destruct (a +:+ b) eqn:E; [|done].
  destruct a as [|c' a'].
  - change ("" +:+ b) with b in E. congruence.
  - change (String c' a' +:+ b) with (String c' (a' +:+ b)) in E.
    discriminate.
Qed.

Lemma ends_with_slash_cons (c : ascii) (s : string) :
  s ≠ "" → ends_with_slash (String c s) = ends_with_slash s.
Proof. by destruct s. Qed.

Lemma no_slash_ends (s : string) : no_slash s → ends_with_slash s = false.
Proof.
  induction s as [|c s IH]; [done|]. intros Hs.
  apply Forall_cons in Hs as [Hc Hs]. cbn [ends_with_slash].
  destruct s; [by apply Ascii.eqb_neq|by apply IH].
Qed.

Lemma slash_join_ends (pieces : list string) :
  pieces ≠ [] → ends_with_slash (slash_join pieces) = true.
Proof.
  induction pieces as [|piece pieces IH]; [done|]. intros _.
  cbn [slash_join]. rewrite ends_with_slash_app by done.
  destruct pieces as [|p ps]; [done|].
  rewrite ends_with_slash_cons; [by apply IH|].
  cbn [slash_join]. by destruct p.
Qed.

(** [split] gives the pieces between the slashes; the path is the pieces
    before the last, each with its slash, and then the last. *)
Lemma split_slash_last (p : string) :
  ∃ init l, split_slash p = (init ++ [l])%list
            ∧ p = slash_join init +:+ l ∧ no_slash l.
Proof.
  induction p as [|c p (init & l & Hsplit & Hp & Hl)].
  - exists [], "". by repeat split; [constructor].
  - cbn [split_slash]. destruct (Ascii.eqb_spec c "/") as [->|Hc].
    + exists ("" :: init), l. rewrite Hsplit.
      split; [done|]. split; [|done]. cbn [slash_join].
      change ("" +:+ ?x) with x. push_append. by rewrite <- Hp.
    + rewrite Hsplit. destruct init as [|i0 init].
      * exists [], (String c l). cbn [slash_join app] in *.
        change ("" +:+ ?x) with x in *.
        split; [done|]. split; [by rewrite Hp|].
        by apply Forall_cons.
      * exists (String c i0 :: init), l. cbn [slash_join app] in *.
        push_append. split; [done|]. split; [by rewrite <- Hp|done].
Qed.

Lemma append_nil_r (s : string) : s +:+ "" = s.
Proof.
  induction s as [|c s IH]; [done|].
  change (String c s +:+ "") with (String c (s +:+ "")). by rewrite IH.
Qed.

(** X18: the name under which a file is signed.  [signFileFromPath] and
    [signJpegFileWithExif] sign under [filepath.split('/').pop() ||
    filepath].  For a path that does not end with a slash this is the part
    after the last slash: it has no slash in it, and the path is a
    directory part, empty or ending with a slash, followed by it.  For a
    path that ends with a slash it is the whole path. *)
Theorem filename_of_path (filepath : string) :
  if ends_with_slash filepath then filename_of filepath = filepath
  else no_slash (filename_of filepath)
       ∧ ∃ dir, filepath = dir +:+ filename_of filepath
                ∧ (dir = "" ∨ ends_with_slash dir = true).
Proof.
  destruct (split_slash_last filepath) as (init & l & Hsplit & Hp & Hl).
  unfold filename_of. rewrite Hsplit, last_snoc. cbn [string_or].
  destruct (String.eqb_spec l "") as [->|Hne].
  - rewrite append_nil_r in Hp. destruct init as [|i0 init].
    + rewrite Hp. cbn. split; [constructor|]. exists "". by split; [|left].
    + assert (ends_with_slash filepath = true) as ->; [|done].
      rewrite Hp. by apply slash_join_ends.
  - assert (ends_with_slash filepath = false) as ->.
    { rewrite Hp, ends_with_slash_app by done. by apply no_slash_ends. }
    split; [done|]. exists (slash_join init). split; [done|].
    destruct init as [|i0 init]; [by left|right]. by apply slash_join_ends.
Qed.

Example sidecar_text_head :
  String.prefix
    ("{" +:+ Mock.newline +:+ "  " +:+ Mock.quote "version" +:+ ": "
     +:+ Mock.quote "1.0" +:+ "," +:+ Mock.newline +:+ "  "
     +:+ Mock.quote "file" +:+ ": {" +:+ Mock.newline +:+ "    "
     +:+ Mock.quote "name" +:+ ": " +:+ Mock.quote "photo.jpg" +:+ ",")
    Mock.sidecar_text = true.
Proof. by vm_compute. Qed.

(* ===================================================================== *)
(** ** Signing and verifying files on disk *)
(* ===================================================================== *)

(** X19: a sidecar verifies.  [signAndSaveSidecar] reads the file, signs
    its bytes under the file name of the path, and writes the signature as
    text to the output path, or to the path of the file followed by
    [.sig] when no output path, or an empty one, is given.  With a
    matching keypair, a file system that afterwards gives back the file
    and the text written, and a [JSON.parse] that reads the text back,
    [verifyFileFromPath] returns a valid verdict with that signature and
    no errors. *)
Theorem verifyFileFromPath_signAndSaveSidecar {Pf : Platform}
    {Nf : NodePlatform} {Ff : FilePlatform} (filepath : string)
    (kp : Keypair) (ts : Timestamp) (outputPath : option string)
    (md : option Metadata) (w w' : world)
    (fsys fsys1 fsys2 fsys3 fsys4 : files) (b : list byte)
    (sig : FileSignature) :
  let sidecarPath := string_or outputPath (filepath +:+ ".sig") in
  matching_keypair kp →
  readFile filepath fsys = (Returns b, fsys1) →
  signFile (filename_of filepath) b kp ts md w = (Returns sig, w') →
  writeFile_text sidecarPath (serializeFileSignature sig) fsys1
  = (Returns (), fsys2) →
  readFile filepath fsys2 = (Returns b, fsys3) →
  readFile_utf8 sidecarPath fsys3
  = (Returns (serializeFileSignature sig), fsys4) →
  parseFileSignature (serializeFileSignature sig) = Returns sig →
  signAndSaveSidecar filepath kp ts outputPath md (w, fsys)
  = (Returns (sig, sidecarPath), (w', fsys2))
  ∧ verifyFileFromPath filepath sidecarPath (w', fsys2)
    = (Returns {| fv_valid := true; fv_errors := []; fv_signature := sig |},
       (w', fsys4)).
Proof.
  intros sidecarPath Hkp Hread Hsig Hwrite Hread' Htext Hparse.
  subst sidecarPath.
  destruct (verifyFileSignature_signFile (filename_of filepath) b kp ts md w
              Hkp) as (sig' & w'' & Hsig' & _ & _ & Hverify).
  rewrite Hsig in Hsig'. injection Hsig' as <- <-. split.
  - unfold signAndSaveSidecar, signFileFromPath, IO_bind, in_files, in_world,
      IO_ret.
    cbn [fst snd]. rewrite Hread. cbn [fst snd]. rewrite Hsig.
    cbn [fst snd]. by rewrite Hwrite.
  - unfold verifyFileFromPath, IO_bind, in_files, in_world, IO_ret, lift.
    cbn [fst snd]. rewrite Hread'. cbn [fst snd]. rewrite Htext.
    cbn [fst snd]. rewrite Hparse. cbn [fst snd]. by rewrite Hverify.
Qed.

Lemma verifyFileFromPath_signAndSaveSidecar_witness :
  signAndSaveSidecar (Pf:=Mock.platform) (Ff:=Mock.file_platform)
    "photos/photo.jpg" Mock.keypair
    Mock.mockTimestamp (Some "") None (0%nat, Mock.disk)
  = (Returns (Mock.sidecar_signature, "photos/photo.jpg.sig"),
     (1%nat, Mock.disk_with_sidecar))
  ∧ verifyFileFromPath (Pf:=Mock.platform) (Nf:=Mock.node)
      (Ff:=Mock.file_platform) "photos/photo.jpg" "photos/photo.jpg.sig"
      (1%nat, Mock.disk_with_sidecar)
    = (Returns {| fv_valid := true; fv_errors := [];
                  fv_signature := Mock.sidecar_signature |},
       (1%nat, Mock.disk_with_sidecar)).
Proof.
  apply (verifyFileFromPath_signAndSaveSidecar (Pf:=Mock.platform)
           (Nf:=Mock.node) (Ff:=Mock.file_platform) "photos/photo.jpg"
           Mock.keypair Mock.mockTimestamp (Some "") None 0%nat 1%nat
           Mock.disk Mock.disk Mock.disk_with_sidecar Mock.disk_with_sidecar
           Mock.disk_with_sidecar Mock.image Mock.sidecar_signature).
  - exact Mock_keypair_matching.
  - reflexivity.
  - reflexivity.
  - reflexivity.
  - reflexivity.
  - reflexivity.
  - reflexivity.
Defined.

(** X20: a JPEG file signed on disk verifies from disk.
    [signJpegFileWithExif] reads the input file, embeds a signature made
    under the file name of the input path, and writes the result to the
    output path, which may be the input path.  Under the conditions under
    which the embedded signature verifies in memory (a matching keypair, a
    codec and a [JSON] that give back what was written, no legacy mark in
    the text) and with a file system that gives back the bytes written,
    [verifyJpegFileExif] on the output path returns a valid verdict with
    that signature. *)
Theorem verifyJpegFileExif_signJpegFileWithExif {Pf : Platform}
    {Nf : NodePlatform} {Ff : FilePlatform} (inputPath outputPath : string)
    (kp : Keypair) (ts : Timestamp) (md : option Metadata) (w w' : world)
    (fsys fsys1 fsys2 fsys3 : files) (jpegBuffer clean block out : list byte)
    (sig : FileSignature) :
  matching_keypair kp →
  readFile inputPath fsys = (Returns jpegBuffer, fsys1) →
  exif_remove jpegBuffer = Returns clean →
  signFile (filename_of inputPath) clean kp ts (Some (jpeg_metadata md)) w
  = (Returns sig, w') →
  exif_dump (with_signature (load_or_empty jpegBuffer) md sig)
  = Returns block →
  exif_insert block clean = Returns out →
  codec_round_trip (with_signature (load_or_empty jpegBuffer) md sig)
    clean out →
  json_round_trip sig →
  has_legacy_mark sig = false →
  writeFile outputPath out fsys1 = (Returns (), fsys2) →
  readFile outputPath fsys2 = (Returns out, fsys3) →
  signJpegFileWithExif inputPath outputPath kp ts md (w, fsys)
  = (Returns (), (w', fsys2))
  ∧ verifyJpegFileExif outputPath (w', fsys2)
    = (Returns {| ev_valid := true; ev_signature := Some sig;
                  ev_errors := [] |}, (w', fsys3)).
Proof.
  intros Hkp Hread Hclean Hsig Hdump Hinsert
    (Hstrip & loaded & Hload & Hcomment) Hjson Hmark Hwrite Hread'.
  destruct (verifyFileSignature_signFile (filename_of inputPath) clean kp ts
              (Some (jpeg_metadata md)) w Hkp)
    as (sig' & w'' & Hsig' & _ & _ & Hverify).
  rewrite Hsig in Hsig'. injection Hsig' as <- <-. split.
  - unfold signJpegFileWithExif, IO_bind, in_files, in_world.
    cbn [fst snd]. rewrite Hread. cbn [fst snd].
    rewrite (signJpegWithExif_run jpegBuffer (filename_of inputPath) kp ts md
               w w' clean block out sig) by done.
    cbn [fst snd]. by rewrite Hwrite.
  - unfold verifyJpegFileExif, IO_bind, in_files, IO_ret.
    cbn [fst snd]. rewrite Hread'.
    by rewrite (verifyJpegExif_run out clean sig loaded
                  {| valid := true; errors := [] |}).
Qed.

Lemma verifyJpegFileExif_signJpegFileWithExif_witness :
  signJpegFileWithExif (Pf:=Mock.platform) (Nf:=Mock.node)
    (Ff:=Mock.file_platform) "photos/photo.jpg" "photos/signed.jpg"
    Mock.keypair Mock.mockTimestamp None (0%nat, Mock.disk)
  = (Returns (), (1%nat, Mock.disk_with_signed_photo))
  ∧ verifyJpegFileExif (Pf:=Mock.platform) (Nf:=Mock.node)
      (Ff:=Mock.file_platform) "photos/signed.jpg"
      (1%nat, Mock.disk_with_signed_photo)
    = (Returns {| ev_valid := true;
                  ev_signature := Some Mock.photo_signature;
                  ev_errors := [] |},
       (1%nat, Mock.disk_with_signed_photo)).
Proof.
  apply (verifyJpegFileExif_signJpegFileWithExif (Pf:=Mock.platform)
           (Nf:=Mock.node) (Ff:=Mock.file_platform) "photos/photo.jpg"
           "photos/signed.jpg" Mock.keypair Mock.mockTimestamp None
           0%nat 1%nat Mock.disk Mock.disk Mock.disk_with_signed_photo
           Mock.disk_with_signed_photo Mock.image Mock.image
           (match Mock.dump
                    (with_signature (Pf:=Mock.platform) (Nf:=Mock.node)
                       (load_or_empty (Nf:=Mock.node) Mock.image) None
                       Mock.photo_signature) with
            | Returns block => block
            | Throws _ => []
            end)
           Mock.signed_photo Mock.photo_signature).
  - exact Mock_keypair_matching.
  - reflexivity.
  - reflexivity.
  - reflexivity.
  - reflexivity.
  - reflexivity.
  - split; [reflexivity|]. exists Mock.loaded_photo.
    split; reflexivity.
  - split; [by vm_compute|reflexivity].
  - reflexivity.
  - reflexivity.
  - reflexivity.
Defined.

(* ===================================================================== *)
(** ** Base64 *)
(* ===================================================================== *)

Lemma list_triples_ind {A} (P : list A → Prop) :
  P [] → (∀ a, P [a]) → (∀ a b, P [a; b]) →
  (∀ a b c l, P l → P (a :: b :: c :: l)) → ∀ l, P l.
Proof.
  intros H0 H1 H2 H3.
  assert (H : ∀ l, P l ∧ (∀ a, P (a :: l)) ∧ ∀ a b, P (a :: b :: l)).
  { induction l as [|c l (IH0 & IH1 & IH2)]; repeat split; auto. }
  intros l. apply H.
Qed.

Lemma base64_sextets (bs : list N) :
  list_ascii_of_string (Mock.base64 bs)
  = (map Mock.base64_char (Mock.sextets bs) ++ Mock.padding bs)%list.
Proof.
  induction bs as [|a|a b|a b c l IH] using list_triples_ind; [done..|].
  cbn [Mock.base64 Mock.sextets Mock.padding map list_ascii_of_string app].
  by rewrite IH.
Qed.

Lemma sextets_bound (bs : list N) :
  Forall (λ b, (b < 256)%N) bs → Forall (λ v, (v < 64)%N) (Mock.sextets bs).
Proof.
  induction bs as [|a|a b|a b c l IH] using list_triples_ind; intros Hbs.
  - constructor.
  - apply Forall_cons in Hbs as [Ha _]. cbn. repeat constructor; divlia.
  - apply Forall_cons in Hbs as [Ha Hbs]. apply Forall_cons in Hbs as [Hb _].
    cbn. repeat constructor; divlia.
  - apply Forall_cons in Hbs as [Ha Hbs]. apply Forall_cons in Hbs as [Hb Hbs].
    apply Forall_cons in Hbs as [Hc Hbs]. cbn [Mock.sextets].
    repeat (apply Forall_cons; split); [divlia..|by apply IH].
Qed.

Lemma bytes_of_sextets_sextets (bs : list N) :
  Forall (λ b, (b < 256)%N) bs →
  Mock.bytes_of_sextets (Mock.sextets bs) = bs.
Proof.
  induction bs as [|a|a b|a b c l IH] using list_triples_ind; intros Hbs.
  - done.
  - apply Forall_cons in Hbs as [Ha _]. cbn. f_equal. divlia.
  - apply Forall_cons in Hbs as [Ha Hbs]. apply Forall_cons in Hbs as [Hb _].
    cbn. f_equal; [divlia|]. f_equal. divlia.
  - apply Forall_cons in Hbs as [Ha Hbs]. apply Forall_cons in Hbs as [Hb Hbs].
    apply Forall_cons in Hbs as [Hc Hbs].
    cbn [Mock.sextets Mock.bytes_of_sextets]. rewrite IH by done.
    f_equal; [divlia|]. f_equal; [divlia|]. f_equal. divlia.
Qed.

Lemma sextet_ok_all : forallb Mock.sextet_ok (map N.of_nat (seq 0 64)) = true.
Proof. by vm_compute. Qed.

Lemma sextet_ok_lt (v : N) : (v < 64)%N → Mock.sextet_ok v = true.
Proof.
  intros Hv. pose proof sextet_ok_all as Hall.
  rewrite forallb_forall in Hall. apply Hall, in_map_iff.
  exists (N.to_nat v). split; [apply N2Nat.id|]. apply in_seq. lia.
Qed.

Lemma base64_char_facts (v : N) :
  (v < 64)%N →
  Mock.is_ascii_whitespace (Mock.base64_char v) = false
  ∧ Mock.is_padding (Mock.base64_char v) = false
  ∧ Mock.base64_value (Mock.base64_char v) = Some v.
Proof.
  intros Hv. pose proof (sextet_ok_lt v Hv) as Hok. unfold Mock.sextet_ok in Hok.
  apply andb_true_iff in Hok as [Hok Hvalue].
  apply andb_true_iff in Hok as [Hws Hpad].
  apply negb_true_iff in Hws, Hpad. by apply bool_decide_eq_true in Hvalue.
Qed.

Lemma padding_cases (bs : list N) :
  Mock.padding bs = [] ∨ Mock.padding bs = ["="%char]
  ∨ Mock.padding bs = ["="%char; "="%char].
Proof.
  induction bs as [|a|a b|a b c l IH] using list_triples_ind; cbn; auto.
Qed.

(** The text has a multiple of four characters; without the padding, the
    number of characters is not 1 modulo 4. *)
Lemma base64_lengths (bs : list N) :
  (length (Mock.sextets bs) + length (Mock.padding bs)) mod 4 = 0
  ∧ length (Mock.sextets bs) mod 4 ≠ 1.
Proof.
  induction bs as [|a|a b|a b c l [IH1 IH2]] using list_triples_ind;
    [by cbn..|].
  cbn [Mock.sextets Mock.padding length].
  replace (S (S (S (S (length (Mock.sextets l))))) + length (Mock.padding l))
    with (length (Mock.sextets l) + length (Mock.padding l) + 1 * 4) by lia.
  replace (S (S (S (S (length (Mock.sextets l))))))
    with (length (Mock.sextets l) + 1 * 4) by lia.
  by rewrite !Nat.Div0.mod_add.
Qed.

Lemma filter_Forall {A} (P : A → Prop) `{∀ a, Decision (P a)} (l : list A) :
  Forall P l → filter P l = l.
Proof.
  induction 1 as [|a l Ha Hl IH]; [done|].
  by rewrite filter_cons_True, IH.
Qed.

Lemma filter_no_whitespace (vs : list N) (pad : list ascii) :
  Forall (λ v, (v < 64)%N) vs →
  Forall (λ c, Mock.is_ascii_whitespace c = false) pad →
  filter (λ c, Mock.is_ascii_whitespace c = false)
    (map Mock.base64_char vs ++ pad)%list
  = (map Mock.base64_char vs ++ pad)%list.
Proof.
  intros Hvs Hpad. apply filter_Forall, Forall_app. split; [|done].
  apply Forall_map. eapply Forall_impl; [exact Hvs|].
  intros v Hv. by apply base64_char_facts.
Qed.

Lemma strip_padding_base64 (vs : list N) (pad : list ascii) :
  Forall (λ v, (v < 64)%N) vs →
  pad = [] ∨ pad = ["="%char] ∨ pad = ["="%char; "="%char] →
  (length vs + length pad) mod 4 = 0 →
  Mock.strip_padding (map Mock.base64_char vs ++ pad)%list
  = map Mock.base64_char vs.
Proof.
  intros Hvs Hpad Hlen. set (cs := map Mock.base64_char vs).
  assert (Hcs : Forall (λ c, Mock.is_padding c = false) (reverse cs)).
  { apply Forall_reverse, Forall_map. eapply Forall_impl; [exact Hvs|].
    intros v Hv. by apply base64_char_facts. }
  unfold Mock.strip_padding.
  replace (length (cs ++ pad)) with (length vs + length pad)
    by (unfold cs; by rewrite length_app, length_map).
  rewrite Hlen. cbn [Nat.eqb]. rewrite reverse_app.
  destruct Hpad as [-> | [-> | ->]].
  - cbn [reverse rev_append app]. rewrite app_nil_r.
    destruct (reverse cs) as [|c1 r1]; [done|].
    apply Forall_cons in Hcs as [Hc _]. by rewrite Hc.
  - change (reverse ["="%char]) with ["="%char]. cbn [app].
    change (Mock.is_padding "=") with true. cbv iota.
    destruct (reverse cs) as [|c2 r2] eqn:E.
    + by rewrite <- E, reverse_involutive.
    + apply Forall_cons in Hcs as [Hc _].
      by rewrite Hc, <- E, reverse_involutive.
  - change (reverse ["="%char; "="%char]) with ["="%char; "="%char].
    cbn [app]. change (Mock.is_padding "=") with true. cbv iota.
    apply reverse_involutive.
Qed.

Lemma mapM_base64_value (vs : list N) :
  Forall (λ v, (v < 64)%N) vs →
  mapM Mock.base64_value (map Mock.base64_char vs) = Some vs.
Proof.
  induction 1 as [|v vs Hv Hvs IH]; [done|].
  cbn [map mapM]. destruct (base64_char_facts v Hv) as (_ & _ & ->).
  cbn. by rewrite IH.
Qed.

Lemma N_of_ascii_bound (c : ascii) : (N_of_ascii c < 256)%N.
Proof. destruct c as [[] [] [] [] [] [] [] []]; by vm_compute. Qed.

Lemma atob_base64_of_binary (binary : string) :
  Mock.atob (Mock.base64_of_binary binary) = Returns binary.
Proof.
  unfold Mock.atob, Mock.base64_of_binary.
  set (bs := map N_of_ascii (list_ascii_of_string binary)).
  assert (Hbs : Forall (λ b, (b < 256)%N) bs).
  { apply Forall_map, Forall_forall. intros c _. apply N_of_ascii_bound. }
  pose proof (sextets_bound bs Hbs) as Hvs.
  destruct (base64_lengths bs) as [Hlen Hlen'].
  rewrite base64_sextets, filter_no_whitespace; [|done|].
  2:{ destruct (padding_cases bs) as [-> | [-> | ->]]; by repeat constructor. }
  rewrite strip_padding_base64; [|done|apply padding_cases|done].
  rewrite length_map. destruct (Nat.eqb_spec (length (Mock.sextets bs) mod 4) 1);
    [done|].
  rewrite mapM_base64_value by done. cbn.
  rewrite bytes_of_sextets_sextets by done. unfold bs.
  rewrite map_map. f_equal.
  rewrite <- (string_of_list_ascii_of_string binary) at 2. f_equal.
  rewrite <- (map_id (list_ascii_of_string binary)) at 2.
  apply map_ext. intros c. apply ascii_N_embedding.
Qed.

Example atob_examples :
  Mock.atob "aGk=" = Returns "hi"
  ∧ Mock.atob "aGk" = Returns "hi"
  ∧ Mock.atob " aG k= " = Returns "hi"
  ∧ (∃ msg, Mock.atob "a" = Throws msg)
  ∧ (∃ msg, Mock.atob "aG=k" = Throws msg)
  ∧ (∃ msg, Mock.atob "aGk*" = Throws msg).
Proof. repeat split; try (by vm_compute); by eexists. Qed.

(** X21: the base64 codec gives back every byte array.  With [btoa] and
    [atob] as browsers and Node.js define them (the base64 alphabet of RFC
    4648 with padding; forgiving decoding), [base64ToBuffer] maps
    [bufferToBase64 buffer] back to [buffer], for every byte array. *)
Theorem base64ToBuffer_bufferToBase64 (buffer : list byte) :
  base64ToBuffer Mock.atob (bufferToBase64 (Pf:=Mock.platform) buffer)
  = Returns buffer.
Proof.
  unfold base64ToBuffer, bufferToBase64.
  change (btoa (binary_string buffer))
    with (Mock.base64_of_binary (binary_string buffer)).
  rewrite atob_base64_of_binary. cbn. f_equal. unfold binary_string.
  rewrite list_ascii_of_string_of_list_ascii, map_map.
  rewrite <- (map_id buffer) at 2. apply map_ext. intros b.
  apply byte_of_ascii_of_byte.
Qed.

(* ===================================================================== *)
(** ** Hex strings in upper case *)
(* ===================================================================== *)

Lemma lower_hex_length (s : string) :
  String.length (lower_hex s) = String.length s.
Proof. induction s as [|c s IH]; [done|]. cbn. by rewrite IH. Qed.

Lemma hexToBuffer_lower_hex (hex : string) :
  Nat.even (String.length hex) = true →
  Forall (λ c, is_hex_digit c = true) (list_ascii_of_string hex) →
  hexToBuffer (lower_hex hex) = hexToBuffer hex.
Proof.
  rewrite !hexToBuffer_hex_pairs.
  induction hex as [| |a b s IH] using string_pairs_ind; [done..|].
  intros Heven Hhex. cbn [list_ascii_of_string] in Hhex.
  apply Forall_cons in Hhex as [Ha Hhex].
  apply Forall_cons in Hhex as [Hb Hhex].
  cbn [lower_hex hex_pairs map]. rewrite IH; [|by rewrite <- Heven|done].
  f_equal. rewrite <- (pair_byte_lower a b Ha Hb). unfold pair_byte at 1.
  by destruct (byte_hex_facts (pair_byte (String a (String b ""))))
    as (_ & _ & ->).
Qed.

(** X22: [verifySignature] takes hex in either case.  For a hash and a
    signature that are hex strings of even length, with letters in upper
    or lower case, the result is the result for the same strings in lower
    case. *)
Theorem verifySignature_hex_case {Pf : Platform} (hash sigHex : string)
    (pk : list byte) :
  Nat.even (String.length hash) = true →
  Forall (λ c, is_hex_digit c = true) (list_ascii_of_string hash) →
  Nat.even (String.length sigHex) = true →
  Forall (λ c, is_hex_digit c = true) (list_ascii_of_string sigHex) →
  verifySignature hash sigHex pk
  = verifySignature (lower_hex hash) (lower_hex sigHex) pk.
Proof.
  intros Hh1 Hh2 Hs1 Hs2. unfold verifySignature.
  by rewrite !hexToBuffer_lower_hex.
Qed.

Lemma verifySignature_hex_case_witness :
  verifySignature (Pf:=Mock.platform) "00FF" "ABCD" (publicKey Mock.keypair)
  = verifySignature (Pf:=Mock.platform) "00ff" "abcd" (publicKey Mock.keypair).
Proof.
  apply (verifySignature_hex_case (Pf:=Mock.platform) "00FF" "ABCD");
    [reflexivity|repeat constructor|reflexivity|repeat constructor].
Defined.

(* ===================================================================== *)
(** ** A changed revision, anywhere in a chain *)
(* ===================================================================== *)

(** X23: a changed content is found where it is.  If [verifyChain]
    accepts a chain and the content of its revision [k] is replaced by a
    text with another hash, the stored hash left as it is, the verdict is
    invalid with exactly one error, the hash mismatch of revision [k]; no
    other revision is reported. *)
Theorem verifyChain_corrupt_content {Pf : Platform} (sc : SignedContent)
    (pk : list byte) (k : nat) (r : ContentRevision) (tampered : string) :
  verifyChain sc pk = Returns {| valid := true; errors := [] |} →
  revisions sc !! k = Some r →
  bufferToHex (hashContent tampered) ≠ contentHash (rev_signature r) →
  verifyChain (corrupt_content k tampered sc) pk
  = Returns {| valid := false;
               errors := [revision_label k +:+ ": Content hash mismatch"] |}.
Proof.
  intros Hvalid Hr Hne.
  destruct (subtle_importKey_raw pk) as [key|msg] eqn:Hkey.
  - rewrite (verifyChain_spec _ pk key Hkey).
    rewrite (failed_checks_corrupt sc key k r tampered); [done| |done..].
    by apply (valid_intact sc pk key).
  - rewrite (verifyChain_rejected _ pk msg Hkey) in Hvalid.
    destruct (revisions sc); done.
Qed.

Lemma verifyChain_corrupt_content_witness :
  verifyChain (Pf:=Mock.platform) (corrupt_content 3 "forged" Mock.chain3)
    (publicKey Mock.keypair)
  = Returns {| valid := false;
               errors := ["Revision 3: Content hash mismatch"] |}.
Proof.
  apply (verifyChain_corrupt_content (Pf:=Mock.platform) Mock.chain3
           (publicKey Mock.keypair) 3
           (default Mock.revision0 (revisions Mock.chain3 !! 3%nat)) "forged").
  - by vm_compute.
  - by vm_compute.
  - by vm_compute.
Defined.

(* ===================================================================== *)
(** ** Comments in the legacy form *)
(* ===================================================================== *)

Lemma up_to_last_brace_app (t : string) :
  Forall (λ c, is_LineTerminator c = false) (list_ascii_of_string t) →
  up_to_last_brace (t +:+ "}") = Some (t +:+ "}").
Proof.
  induction t as [|c t IH]; intros Ht; [done|].
  cbn [list_ascii_of_string] in Ht. apply Forall_cons in Ht as [Hc Ht].
  change (String c t +:+ "}") with (String c (t +:+ "}")).
  cbn [up_to_last_brace]. by rewrite Hc, IH.
Qed.

Lemma match_Signature_legacy (body : string) :
  body ≠ "" →
  Forall (λ c, is_LineTerminator c = false) (list_ascii_of_string body) →
  let json := String "{" (body +:+ "}") in
  Js.includes "Signature: " ("Signature: " +:+ json) = true
  ∧ match_Signature ("Signature: " +:+ json) = Some json.
Proof.
  intros Hne Hbody json. unfold json. push_append. split; [done|].
  destruct body as [|c body]; [done|].
  cbn [list_ascii_of_string] in Hbody. apply Forall_cons in Hbody as [Hc Hbody].
  change (String c body +:+ "}") with (String c (body +:+ "}")).
  cbn [match_Signature String.prefix string_drop].
  repeat (destruct (ascii_dec _ _) as [_|Hfalse]; [|done]).
  cbn [dot_plus_brace]. by rewrite Hc, up_to_last_brace_app.
Qed.

(** X24: a comment in the legacy form is read.  When the [UserComment] of
    an image is the text [Signature: ] followed by the JSON text of a
    signature, that text being one line between braces that [JSON.parse]
    reads back, [verifyJpegExif] takes the signature out of the comment
    and returns the verdict of [verifyFileSignature] for it and the image
    with its metadata stripped. *)
Theorem verifyJpegExif_legacy_comment {Pf : Platform} {Nf : NodePlatform}
    (jpegBuffer clean : list byte) (loaded : ExifObj ExifRest)
    (sig : FileSignature) (body : string) (v : Verdict) :
  exif_load jpegBuffer = Returns loaded →
  exif_UserComment loaded
  = Some (ExifText ("Signature: " +:+ JSON_stringify sig)) →
  JSON_stringify sig = String "{" (body +:+ "}") →
  body ≠ "" →
  single_line body = true →
  JSON_parse (JSON_stringify sig) = Returns sig →
  exif_remove jpegBuffer = Returns clean →
  verifyFileSignature sig clean = Returns v →
  verifyJpegExif jpegBuffer
  = {| ev_valid := valid v; ev_signature := Some sig;
       ev_errors := errors v |}.
Proof.
  intros Hload Hcomment Hjson Hne Hbody Hparse Hclean Hverify.
  assert (Hline : Forall (λ c, is_LineTerminator c = false)
                    (list_ascii_of_string body)).
  { apply Forall_forall. intros c Hc. unfold single_line in Hbody.
    rewrite forallb_forall in Hbody.
    by apply negb_true_iff, Hbody, list_elem_of_In. }
  destruct (match_Signature_legacy body Hne Hline) as [Hinc Hmatch].
  cbv zeta in Hinc, Hmatch. rewrite <- Hjson in Hinc, Hmatch.
  unfold verifyJpegExif. rewrite Hload, Hcomment.
  assert (String.eqb ("Signature: " +:+ JSON_stringify sig) "" = false) as ->
    by (by push_append).
  by rewrite Hinc, Hmatch, Hparse, Hclean, Hverify.
Qed.

Lemma verifyJpegExif_legacy_comment_witness :
  verifyJpegExif (Pf:=Mock.platform) (Nf:=Mock.node) Mock.legacy_photo
  = {| ev_valid := true; ev_signature := Some Mock.photo_signature;
       ev_errors := [] |}.
Proof.
  apply (verifyJpegExif_legacy_comment (Pf:=Mock.platform) (Nf:=Mock.node)
           Mock.legacy_photo Mock.image Mock.loaded_legacy_photo
           Mock.photo_signature
           (substring 1
              (String.length (Mock.stringify_FileSignature Mock.photo_signature)
               - 2)
              (Mock.stringify_FileSignature Mock.photo_signature))
           {| valid := true; errors := [] |}).
  - vm_compute; reflexivity.
  - vm_compute; reflexivity.
  - vm_compute; reflexivity.
  - by vm_compute.
  - vm_compute; reflexivity.
  - vm_compute; reflexivity.
  - vm_compute; reflexivity.
  - vm_compute; reflexivity.
Defined.
